(** * ai-workflow-manager: ingestion and retrieval pipeline

    A shallow embedding of the pipeline's code: the chunker of
    [generate_embeddings.js], the text normaliser of [extract_text.js],
    the crawler of [rag_crawler.js], the validator of [validate_input.js],
    the Step Functions state machine of the RAG pipeline and the query
    handler of [chatbot_query.js], with the properties their specification
    states about them; then the handlers of [error_handler.js],
    [generate_embeddings.js], [extract_text.js], [process_document.js] and
    [store_embeddings.js] with the service calls they make, and the link
    resolution of [rag_crawler.js], with further properties of the code. *)

From Stdlib Require Import ZArith NArith QArith Lia Strings.String Strings.Ascii.
From Stdlib Require Import Numbers.DecimalString Numbers.DecimalPos.
From stdpp Require Import base option list gmap strings.

Set Warnings "-register-all".
Local Open Scope nat_scope.

(** ** JavaScript strings

    A JavaScript string is a sequence of UTF-16 code units; [length],
    [substring], [trim] and the regular expressions of the source all work on
    code units. *)

Module JS.

Definition jsstring : Type := list N.

(** An ASCII literal of the source, as code units. *)
Definition lit (s : string) : jsstring :=
  map Ascii.N_of_ascii (String.list_ascii_of_string s).

Definition LF : N := 10%N.

(** [\s] of a regular expression, which is also what [trim] removes: the
    WhiteSpace and LineTerminator code points of ECMAScript. *)
Definition isWhiteSpace (c : N) : bool :=
  ((9 <=? c) && (c <=? 13) || (c =? 32) || (c =? 160) || (c =? 5760)
   || (8192 <=? c) && (c <=? 8202) || (c =? 8232) || (c =? 8233)
   || (c =? 8239) || (c =? 8287) || (c =? 12288) || (c =? 65279))%N.

Fixpoint dropWhile {A} (p : A -> bool) (l : list A) : list A :=
  match l with
  | [] => []
  | x :: l' => if p x then dropWhile p l' else l
  end.

(** [s.trim()] *)
Definition trim (s : jsstring) : jsstring :=
  rev (dropWhile isWhiteSpace (rev (dropWhile isWhiteSpace s))).

(** [s.split(/[class]+/)]: the pieces between the maximal runs of characters
    of the class; a run at either end leaves an empty piece there, and the
    empty string gives one empty piece. [cur] is the piece being read,
    reversed; [inSep] tells that the previous character was a separator. *)
Fixpoint splitRuns (sep : N -> bool) (cur : jsstring) (inSep : bool)
    (s : jsstring) : list jsstring :=
  match s with
  | [] => [rev cur]
  | c :: s' =>
      if sep c then
        if inSep then splitRuns sep [] true s'
        else rev cur :: splitRuns sep [] true s'
      else splitRuns sep (c :: cur) false s'
  end.

Definition split (sep : N -> bool) (s : jsstring) : list jsstring :=
  splitRuns sep [] false s.

(** [s.replace(/[class]+/g, r)]: every maximal run of the class becomes [r]. *)
Fixpoint replaceRuns (cls : N -> bool) (r : jsstring) (inRun : bool)
    (s : jsstring) : jsstring :=
  match s with
  | [] => []
  | c :: s' =>
      if cls c then
        if inRun then replaceRuns cls r true s'
        else r ++ replaceRuns cls r true s'
      else c :: replaceRuns cls r false s'
  end.

(** [s.includes(c)] for a one-character needle. *)
Definition includesChar (c : N) (s : jsstring) : bool :=
  existsb (N.eqb c) s.

(** Truthiness of a string: the empty string is falsy. *)
Definition truthy (s : jsstring) : bool :=
  match s with [] => false | _ => true end.

(** *** Exceptions

    A computation that may throw; the exception carries its [message]. *)

Inductive result (A : Type) : Type :=
| Ok (a : A)
| Throw (message : jsstring).
Arguments Ok {A} a.
Arguments Throw {A} message.

Definition rbind {A B} (m : result A) (k : A -> result B) : result B :=
  match m with
  | Ok a => k a
  | Throw e => Throw e
  end.

(** [try { body } catch (error) { handler(error.message) }] *)
Definition tryCatch {A} (body : result A) (handler : jsstring -> result A)
    : result A :=
  match body with
  | Ok a => Ok a
  | Throw e => handler e
  end.

(** *** JSON values

    The inputs of the Lambda functions are parsed JSON. The code prints
    numbers, tests them for zero and asks their type, and does nothing else
    with them, so a number is held by the decimal that JavaScript prints for
    it, the shortest one that reads back as the same double: [JNum z] is the
    integer [z], and [JFrac m e] is [m / 10^e], a number with a fraction
    ([3.9] is [JFrac 39 1] and [1e-7] is [JFrac 1 7]). A value of type
    [option json] is a JavaScript value, [None] being [undefined]. *)

Inductive json : Type :=
| JNull
| JBool (b : bool)
| JNum (z : Z)
| JFrac (digits : Z) (places : positive)
| JStr (s : jsstring)
| JArr (items : list json)
| JObj (fields : list (string * json)).

(** An own property of a parsed object; of a repeated key the last one is
    kept, as [JSON.parse] does. *)
Fixpoint getField (fields : list (string * json)) (key : string)
    : option json :=
  match fields with
  | [] => None
  | (k, v) :: rest =>
      match getField rest key with
      | Some v' => Some v'
      | None => if String.eqb k key then Some v else None
      end
  end.

(** [v.key] for the property names the code reads ([type], [url], [name],
    [crawlDepth], ...): none of them is inherited, so only an object has
    them; reading a property of [null] throws. *)
Definition getProp (v : json) (key : string) : result (option json) :=
  match v with
  | JNull =>
      Throw (lit "Cannot read properties of null (reading '"
             ++ lit key ++ lit "')")
  | JObj fields => Ok (getField fields key)
  | _ => Ok None
  end.

Definition truthyJson (v : json) : bool :=
  match v with
  | JNull => false
  | JBool b => b
  | JNum z => negb (z =? 0)%Z
  | JFrac m _ => negb (m =? 0)%Z
  | JStr s => truthy s
  | JArr _ | JObj _ => true
  end.

Definition truthyValue (v : option json) : bool :=
  match v with
  | None => false
  | Some j => truthyJson j
  end.

Definition decimal (z : Z) : jsstring :=
  lit (NilZero.string_of_int (Z.to_int z)).

(** *** The string form of a number

    [Number::toString] of ECMAScript, for the number whose significant
    decimal digits are [ds] and whose value is [0.ds * 10^n]: the digits
    written out when [n] is at most 21, with zeros after them or a point
    among them, [0.00ds] down to six places, and the exponent form
    otherwise. *)

Definition signOf (z : Z) : jsstring := if (z <? 0)%Z then lit "-" else [].

Definition digitsOf (z : Z) : jsstring := decimal (Z.abs z).

(** The digits without the zeros at their end. *)
Definition significant (ds : jsstring) : jsstring :=
  rev (dropWhile (N.eqb 48) (rev ds)).

(** [d.ddde+x] *)
Definition exponential (ds : jsstring) (n : Z) : jsstring :=
  match ds with
  | [] => []
  | d :: rest =>
      d :: (if truthy rest then lit "." ++ rest else [])
      ++ lit "e" ++ (if (n - 1 <? 0)%Z then lit "-" else lit "+")
      ++ decimal (Z.abs (n - 1))
  end.

Definition numberToString (ds : jsstring) (n : Z) : jsstring :=
  let k := Z.of_nat (length ds) in
  if ((k <=? n) && (n <=? 21))%Z then ds ++ repeat 48%N (Z.to_nat (n - k))
  else if ((0 <? n) && (n <=? 21))%Z then
    take (Z.to_nat n) ds ++ lit "." ++ drop (Z.to_nat n) ds
  else if ((-6 <? n) && (n <=? 0))%Z then
    lit "0." ++ repeat 48%N (Z.to_nat (- n)) ++ ds
  else exponential ds n.

(** An integer below 10^21 in magnitude is its digits, followed by no
    zeros and holding no point: the first case of [numberToString]. *)
Definition integerToString (z : Z) : jsstring :=
  if (Z.abs z <? 10 ^ 21)%Z then decimal z
  else
    signOf z
    ++ exponential (significant (digitsOf z))
         (Z.of_nat (length (digitsOf z))).

Definition fractionToString (m : Z) (e : positive) : jsstring :=
  if (m =? 0)%Z then lit "0"
  else
    signOf m
    ++ numberToString (significant (digitsOf m))
         (Z.of_nat (length (digitsOf m)) - Z.pos e).

(** [String(v)], as a template literal and [parseInt] apply it. An object
    with an own [toString] property, which parsed JSON cannot make callable,
    has no primitive value. *)
Fixpoint toString (v : json) : result jsstring :=
  match v with
  | JNull => Ok (lit "null")
  | JBool true => Ok (lit "true")
  | JBool false => Ok (lit "false")
  | JNum z => Ok (integerToString z)
  | JFrac m e => Ok (fractionToString m e)
  | JStr s => Ok s
  | JArr items =>
      (fix join (first : bool) (items : list json) : result jsstring :=
         match items with
         | [] => Ok []
         | x :: rest =>
             rbind (match x with JNull => Ok [] | _ => toString x end)
               (fun sx =>
                  rbind (join false rest)
                    (fun sr =>
                       Ok ((if first then [] else lit ",") ++ sx ++ sr)))
         end) true items
  | JObj fields =>
      match getField fields "toString" with
      | Some _ => Throw (lit "Cannot convert object to primitive value")
      | None => Ok (lit "[object Object]")
      end
  end.

Definition toStringValue (v : option json) : result jsstring :=
  match v with
  | None => Ok (lit "undefined")
  | Some j => toString j
  end.

Definition digitValue (c : N) : option Z :=
  if ((48 <=? c) && (c <=? 57))%N then Some (Z.of_N (c - 48)) else None.

(** The value of the longest prefix of decimal digits, [acc] being the value
    of the digits already read and [None] that none was read. *)
Fixpoint parseDigits (acc : option Z) (s : jsstring) : option Z :=
  match s with
  | [] => acc
  | c :: s' =>
      match digitValue c with
      | Some d => parseDigits (Some (10 * default 0 acc + d)%Z) s'
      | None => acc
      end
  end.

(** [parseInt(s, 10)] of a string; [None] is [NaN]. *)
Definition parseInt10 (s : jsstring) : option Z :=
  match dropWhile isWhiteSpace s with
  | [] => None
  | c :: s' =>
      if (c =? 45)%N then Z.opp <$> parseDigits None s'
      else if (c =? 43)%N then parseDigits None s'
      else parseDigits None (c :: s')
  end.

End JS.

(** ** The chunker ([generate_embeddings.js]) *)

Module Chunker.
Import JS.

Definition MAX_CHUNK_SIZE : nat := 1000.

Definition isSentenceEnd (c : N) : bool :=
  ((c =? 46) || (c =? 33) || (c =? 63))%N.

(** The two variables of [splitTextIntoChunks] that its loops update. *)
Record state : Type := mkState {
  chunks : list jsstring;
  currentChunk : jsstring
}.

(** The inner [while (remainingSentence.length > 0)] loop. It does not
    terminate when [maxChunkSize] is 0, hence the fuel; [None] is a loop
    that has not finished. *)
Fixpoint hardSplit (fuel maxChunkSize : nat) (remainingSentence : jsstring)
    (out : list jsstring) : option (list jsstring) :=
  match remainingSentence with
  | [] => Some out
  | _ :: _ =>
      match fuel with
      | O => None
      | S fuel' =>
          let chunkSize := Nat.min (length remainingSentence) maxChunkSize in
          hardSplit fuel' maxChunkSize (drop chunkSize remainingSentence)
            (out ++ [take chunkSize remainingSentence])
      end
  end.

(** The body of [for (const sentence of sentences)]. *)
Definition sentenceStep (maxChunkSize : nat) (st : state)
    (sentence : jsstring) : option state :=
  if length (currentChunk st) + length sentence + 1 <=? maxChunkSize then
    Some (mkState (chunks st)
            (currentChunk st
               ++ (if truthy (currentChunk st) then lit " " else [])
               ++ trim sentence ++ lit "."))
  else
    let st1 :=
      if truthy (currentChunk st)
      then mkState (chunks st ++ [currentChunk st]) []
      else st in
    if maxChunkSize <? length sentence then
      out ← hardSplit (length sentence) maxChunkSize sentence (chunks st1);
      Some (mkState out (currentChunk st1))
    else
      Some (mkState (chunks st1) (trim sentence ++ lit ".")).

Fixpoint sentenceLoop (maxChunkSize : nat) (st : state)
    (sentences : list jsstring) : option state :=
  match sentences with
  | [] => Some st
  | s :: rest =>
      st' ← sentenceStep maxChunkSize st s;
      sentenceLoop maxChunkSize st' rest
  end.

(** The body of [for (const paragraph of paragraphs)]. *)
Definition paragraphStep (maxChunkSize : nat) (st : state)
    (paragraph : jsstring) : option state :=
  if maxChunkSize <? length paragraph then
    let sentences :=
      List.filter (fun s => 0 <? length (trim s))
        (split isSentenceEnd paragraph) in
    sentenceLoop maxChunkSize st sentences
  else if length (currentChunk st) + length paragraph + 1 <=? maxChunkSize then
    Some (mkState (chunks st)
            (currentChunk st
               ++ (if truthy (currentChunk st) then [LF] else [])
               ++ paragraph))
  else
    Some (mkState (chunks st ++ [currentChunk st]) paragraph).

Fixpoint paragraphLoop (maxChunkSize : nat) (st : state)
    (paragraphs : list jsstring) : option state :=
  match paragraphs with
  | [] => Some st
  | p :: rest =>
      st' ← paragraphStep maxChunkSize st p;
      paragraphLoop maxChunkSize st' rest
  end.

Definition paragraphsOf (text : jsstring) : list jsstring :=
  List.filter (fun p => 0 <? length (trim p)) (split (N.eqb LF) text).

Definition splitTextIntoChunks (text : jsstring) (maxChunkSize : nat)
    : option (list jsstring) :=
  st ← paragraphLoop maxChunkSize (mkState [] []) (paragraphsOf text);
  Some (if truthy (currentChunk st)
        then chunks st ++ [currentChunk st]
        else chunks st).

End Chunker.

(** ** The text normaliser ([extract_text.js]) *)

Module Normalizer.
Import JS.

(** What [replace(/\n{3,}/g, '\n\n')] leaves of a run of [run] newlines. *)
Definition newlineRun (run : nat) : jsstring :=
  replicate (if 3 <=? run then 2 else run) LF.

(** [s.replace(/\n{3,}/g, '\n\n')]; [run] counts the newlines just read. *)
Fixpoint collapseNewlines (run : nat) (s : jsstring) : jsstring :=
  match s with
  | [] => newlineRun run
  | c :: s' =>
      if (c =? LF)%N then collapseNewlines (S run) s'
      else newlineRun run ++ c :: collapseNewlines 0 s'
  end.

(** [s.replace(/\s+/g, ' ')] *)
Definition collapseWhitespace (s : jsstring) : jsstring :=
  replaceRuns isWhiteSpace (lit " ") false s.

Section CleanText.

(** [cheerio.load(text).text()] and [String.prototype.normalize] are library
    code: the normaliser is stated for any two such functions. *)
Variable cheerioText : jsstring -> jsstring.
Variable normalize : jsstring -> jsstring.

(** The text [cleanText] hands to [normalize]. *)
Definition cleanedBeforeNormalize (text : jsstring) : jsstring :=
  let cleanedText :=
    if includesChar 60 text && includesChar 62 text
    then cheerioText text else text in
  let cleanedText := collapseWhitespace cleanedText in
  collapseNewlines 0 cleanedText.

Definition cleanText (text : jsstring) : jsstring :=
  trim (normalize (cleanedBeforeNormalize text)).

End CleanText.

End Normalizer.

(** ** The crawler ([rag_crawler.js]) *)

Module Crawler.
Import JS.

Record page : Type := mkPage { pageUrl : jsstring; pageContent : jsstring }.

(** The variables the crawl loops update, and [fetched], the log of the
    calls to [crawlUrl] in the order they are made. *)
Record state : Type := mkState {
  visitedUrls : gset jsstring;
  newUrlsToCrawl : list jsstring;
  crawledPages : list page;
  fetched : list jsstring
}.

(** [s.endsWith(suffix)] *)
Definition endsWith (s suffix : jsstring) : bool :=
  bool_decide (drop (length s - length suffix) s = suffix).

(** [[...new Set(l)]]: the first occurrence of each element, in order. *)
Fixpoint dedupe (seen : gset jsstring) (l : list jsstring) : list jsstring :=
  match l with
  | [] => []
  | x :: l' =>
      if bool_decide (x ∈ seen) then dedupe seen l'
      else x :: dedupe ({[x]} ∪ seen) l'
  end.

(** [urlsToCrawl.slice(i, i + batchSize)] for [i = 0, batchSize, ...]. *)
Fixpoint batches (fuel batchSize : nat) (urls : list jsstring)
    : list (list jsstring) :=
  match urls, fuel with
  | [], _ | _, O => []
  | _ :: _, S fuel' =>
      take batchSize urls :: batches fuel' batchSize (drop batchSize urls)
  end.

Section Crawl.

(** [new URL(url).hostname]; [None] when the constructor throws. *)
Variable hostname : jsstring -> option jsstring.
(** What [crawlUrl] resolves to for a URL: the page's text and its links.
    [crawlUrl] catches its own errors and never rejects. *)
Variable crawlUrl : jsstring -> jsstring * list jsstring.
(** The order in which the fetches of one batch complete. *)
Variable completionOrder : list jsstring -> list jsstring.

Definition isSameDomain (url domain : jsstring) : bool :=
  match hostname url with
  | None => false
  | Some urlDomain =>
      bool_decide (urlDomain = domain) || endsWith urlDomain (lit "." ++ domain)
  end.

(** The synchronous start of the callbacks of a batch: each one tests and
    marks its URL before any fetch of the batch completes. The second
    component lists the URLs whose fetch was started. *)
Fixpoint startBatch (st : state) (urlBatch : list jsstring)
    : state * list jsstring :=
  match urlBatch with
  | [] => (st, [])
  | urlToCrawl :: rest =>
      if bool_decide (urlToCrawl ∈ visitedUrls st) then startBatch st rest
      else
        let st' := mkState ({[urlToCrawl]} ∪ visitedUrls st) (newUrlsToCrawl st)
                     (crawledPages st) (fetched st ++ [urlToCrawl]) in
        let '(st'', started) := startBatch st' rest in
        (st'', urlToCrawl :: started)
  end.

(** [links.forEach(...)] *)
Fixpoint addLinks (domain : jsstring) (st : state) (links : list jsstring)
    : state :=
  match links with
  | [] => st
  | link :: rest =>
      let st' :=
        if negb (bool_decide (link ∈ visitedUrls st)) && isSameDomain link domain
        then mkState (visitedUrls st) (newUrlsToCrawl st ++ [link])
               (crawledPages st) (fetched st)
        else st in
      addLinks domain st' rest
  end.

(** The rest of a callback, run when its fetch completes. *)
Definition finishUrl (domain : jsstring) (depth crawlDepth : nat)
    (st : state) (urlToCrawl : jsstring) : state :=
  let '(content, links) := crawlUrl urlToCrawl in
  let st1 :=
    if truthy content && truthy (trim content)
    then mkState (visitedUrls st) (newUrlsToCrawl st)
           (crawledPages st ++ [mkPage urlToCrawl content]) (fetched st)
    else st in
  if depth <? crawlDepth - 1 then addLinks domain st1 links else st1.

Definition processBatch (domain : jsstring) (depth crawlDepth : nat)
    (st : state) (urlBatch : list jsstring) : state :=
  let '(st', started) := startBatch st urlBatch in
  foldl (finishUrl domain depth crawlDepth) st' (completionOrder started).

Definition batchSize : nat := 5.

(** One iteration of [for (let depth = 0; depth < crawlDepth; depth++)]
    up to the update of [urlsToCrawl]. *)
Definition crawlLevel (domain : jsstring) (depth crawlDepth : nat)
    (st : state) (urlsToCrawl : list jsstring) : state :=
  let st0 := mkState (visitedUrls st) [] (crawledPages st) (fetched st) in
  foldl (processBatch domain depth crawlDepth) st0
    (batches (length urlsToCrawl) batchSize urlsToCrawl).

(** The depth loop; [remaining] is [crawlDepth - depth]. *)
Fixpoint crawlLoop (domain : jsstring) (remaining depth crawlDepth : nat)
    (st : state) (urlsToCrawl : list jsstring) : state :=
  match remaining with
  | O => st
  | S remaining' =>
      let st' := crawlLevel domain depth crawlDepth st urlsToCrawl in
      match dedupe ∅ (newUrlsToCrawl st') with
      | [] => st'
      | next => crawlLoop domain remaining' (S depth) crawlDepth st' next
      end
  end.

(** The crawl of the handler, from the normalised start URL. *)
Definition crawl (baseUrl domain : jsstring) (crawlDepth : nat) : state :=
  crawlLoop domain crawlDepth 0 crawlDepth (mkState ∅ [] [] []) [baseUrl].

End Crawl.

(** What [normalizeUrl] reads of [new URL(url)]. *)
Record location : Type := mkLocation {
  origin : jsstring;
  pathname : jsstring;
  search : jsstring
}.

(** [s.replace(/\/$/, '')] *)
Definition dropLastSlash (s : jsstring) : jsstring :=
  match rev s with
  | 47%N :: r => rev r
  | _ => s
  end.

(** [normalizeUrl], which the handler applies to the URL of the data source
    and to no link; [parse] is [new URL], [None] when it throws. *)
Definition normalizeUrl (parse : jsstring -> option location)
    (url : jsstring) : jsstring :=
  match parse url with
  | Some parsedUrl =>
      let normalizedUrl :=
        dropLastSlash (origin parsedUrl ++ pathname parsedUrl) in
      if truthy (search parsedUrl) then normalizedUrl ++ search parsedUrl
      else normalizedUrl
  | None => url
  end.

End Crawler.

(** ** The input validator ([validate_input.js]) *)

Module Validate.
Import JS.

Record event : Type := mkEvent {
  tenantId : option json;
  dataSources : option json;
  config : option json
}.

(** What [dynamoDB.get] of the tenant's configuration item resolves to. *)
Inductive tenantResult : Type :=
| Item (item : json)
| NoItem
| GetRejected (message : jsstring).

Record validation : Type := mkValidation {
  isValid : bool;
  errors : list jsstring;
  validatedTenantId : option json;
  validatedDataSources : option json;
  validatedConfig : option json
}.

(** The handler's [try] block: a computation over the [errors] array that
    may throw. *)
Definition M (A : Type) : Type := list jsstring -> result A * list jsstring.

Definition ret {A} (a : A) : M A := fun errors => (Ok a, errors).

Definition bind {A B} (m : M A) (k : A -> M B) : M B :=
  fun errors =>
    match m errors with
    | (Ok a, errors') => k a errors'
    | (Throw e, errors') => (Throw e, errors')
    end.

(** [errors.push(message)] *)
Definition push (message : jsstring) : M unit :=
  fun errors => (Ok tt, errors ++ [message]).

Definition lift {A} (r : result A) : M A := fun errors => (r, errors).

Notation "x <- m ;; k" := (bind m (fun x => k))
  (at level 62, m at next level, right associativity).
Notation "m ;;; k" := (bind m (fun _ => k))
  (at level 62, right associativity).

Definition atIndex (index : nat) : jsstring :=
  lit "Data source at index " ++ decimal (Z.of_nat index).

(** [['website', 'api', 'document'].includes(v)] *)
Definition isSourceType (v : option json) : bool :=
  match v with
  | Some (JStr s) =>
      bool_decide (s = lit "website") || bool_decide (s = lit "api")
      || bool_decide (s = lit "document")
  | _ => false
  end.

(** The callback of [event.dataSources.forEach]. *)
Definition checkSource (index : nat) (source : json) : M unit :=
  type <- lift (getProp source "type") ;;
  (if negb (truthyValue type) then
     push (atIndex index ++ lit " is missing required parameter: type")
   else if negb (isSourceType type) then
     shown <- lift (toStringValue type) ;;
     push (atIndex index ++ lit " has invalid type: " ++ shown)
   else ret tt) ;;;
  url <- lift (getProp source "url") ;;
  (if negb (truthyValue url) then
     push (atIndex index ++ lit " is missing required parameter: url")
   else ret tt) ;;;
  name <- lift (getProp source "name") ;;
  (if negb (truthyValue name) then
     push (atIndex index ++ lit " is missing required parameter: name")
   else ret tt).

Fixpoint checkSources (index : nat) (sources : list json) : M unit :=
  match sources with
  | [] => ret tt
  | source :: rest =>
      checkSource index source ;;; checkSources (S index) rest
  end.

Definition checkDataSources (ev : event) : M unit :=
  match dataSources ev with
  | Some (JArr (source :: rest)) => checkSources 0 (source :: rest)
  | _ => push (lit "Missing or invalid dataSources: must be a non-empty array")
  end.

(** A bounded numeric setting: checked only when it is not [undefined]. *)
Definition checkBound (cfg : json) (key : string) (lo hi : Z)
    (message : jsstring) : M unit :=
  value <- lift (getProp cfg key) ;;
  match value with
  | None => ret tt
  | Some v =>
      shown <- lift (toString v) ;;
      match parseInt10 shown with
      | None => push message
      | Some n => if (n <? lo)%Z || (hi <? n)%Z then push message else ret tt
      end
  end.

Definition isString (v : option json) : bool :=
  match v with
  | Some (JStr _) => true
  | _ => false
  end.

(** [typeof v === 'object'] of a truthy value. *)
Definition isObject (v : option json) : bool :=
  match v with
  | Some (JObj _) | Some (JArr _) => true
  | _ => false
  end.

Definition checkConfig (ev : event) : M unit :=
  if negb (truthyValue (config ev)) || negb (isObject (config ev)) then
    push (lit "Missing or invalid config: must be an object")
  else
    match config ev with
    | None => ret tt
    | Some cfg =>
        checkBound cfg "crawlDepth" 1 3
          (lit "Invalid crawlDepth: must be a number between 1 and 3") ;;;
        checkBound cfg "memoryDuration" 5 1440
          (lit "Invalid memoryDuration: must be a number between 5 and 1440 minutes") ;;;
        checkBound cfg "maxDocuments" 1 20
          (lit "Invalid maxDocuments: must be a number between 1 and 20") ;;;
        embeddingModel <- lift (getProp cfg "embeddingModel") ;;
        if truthyValue embeddingModel && negb (isString embeddingModel)
        then push (lit "Invalid embeddingModel: must be a string")
        else ret tt
    end.

Section Handler.

(** The tenant table, as [dynamoDB.get] sees it. *)
Variable dynamoGet : option json -> tenantResult.

(** The inner [try] of the tenant check: a failure of the lookup, or of the
    building of the message, is recorded as an error. *)
Definition checkTenant (ev : event) : M unit :=
  if negb (truthyValue (tenantId ev)) then
    push (lit "Missing required parameter: tenantId")
  else
    match dynamoGet (tenantId ev) with
    | Item _ => ret tt
    | NoItem =>
        match toStringValue (tenantId ev) with
        | Ok shown => push (lit "Tenant not found: " ++ shown)
        | Throw message => push (lit "Error verifying tenant: " ++ message)
        end
    | GetRejected message => push (lit "Error verifying tenant: " ++ message)
    end.

Definition handler (ev : event) : validation :=
  match (checkTenant ev ;;; checkDataSources ev ;;; checkConfig ev) [] with
  | (Ok _, errors) =>
      mkValidation (length errors =? 0) errors (tenantId ev)
        (if length errors =? 0 then dataSources ev else Some (JArr []))
        (if length errors =? 0 then config ev else Some (JObj []))
  | (Throw message, errors) =>
      mkValidation false ((lit "Validation error: " ++ message) :: errors)
        (tenantId ev) (Some (JArr [])) (Some (JObj []))
  end.

End Handler.

(** The conditions under which the specification has an input rejected. *)
Module Spec.

(** A value outside the bounds: a number below [lo] or above [hi]; what is
    not a number is within no bounds. *)
Definition outside (v : json) (lo hi : Z) : bool :=
  match v with
  | JNum z => (z <? lo)%Z || (hi <? z)%Z
  | JFrac m e => (m <? lo * 10 ^ Z.pos e)%Z || (hi * 10 ^ Z.pos e <? m)%Z
  | _ => true
  end.

(** A setting that is supplied and outside its bounds. *)
Definition outOfRange (cfg : option json) (key : string) (lo hi : Z) : bool :=
  match cfg with
  | Some (JObj fields) =>
      match getField fields key with
      | Some v => outside v lo hi
      | None => false
      end
  | _ => false
  end.

(** A setting that is left out, or given as an integer that JavaScript
    prints with all its digits. *)
Definition isInteger (v : option json) : bool :=
  match v with
  | None => true
  | Some (JNum z) => (Z.abs z <? 10 ^ 21)%Z
  | Some _ => false
  end.

(** The three bounded settings are integers where they are supplied. *)
Definition integerSettings (ev : event) : bool :=
  match config ev with
  | Some (JObj fields) =>
      isInteger (getField fields "crawlDepth")
      && isInteger (getField fields "memoryDuration")
      && isInteger (getField fields "maxDocuments")
  | _ => true
  end.

Definition field (source : json) (key : string) : option json :=
  match source with
  | JObj fields => getField fields key
  | _ => None
  end.

(** A data source that lacks [type], [url] or [name], or whose type is not
    one of the three. *)
Definition badSource (source : json) : bool :=
  negb (truthyValue (field source "type"))
  || negb (truthyValue (field source "url"))
  || negb (truthyValue (field source "name"))
  || negb (isSourceType (field source "type")).

(** The tenant is not given, or the table has no item for it. *)
Definition tenantMissing (dynamoGet : option json -> tenantResult)
    (ev : event) : bool :=
  negb (truthyValue (tenantId ev))
  || match dynamoGet (tenantId ev) with NoItem => true | _ => false end.

Definition dataSourcesMissing (ev : event) : bool :=
  match dataSources ev with
  | Some (JArr (_ :: _)) => false
  | _ => true
  end.

Definition someBadSource (ev : event) : bool :=
  match dataSources ev with
  | Some (JArr sources) => existsb badSource sources
  | _ => false
  end.

Definition configMissing (ev : event) : bool :=
  negb (truthyValue (config ev) && isObject (config ev)).

Definition rejects (dynamoGet : option json -> tenantResult) (ev : event)
    : bool :=
  tenantMissing dynamoGet ev
  || dataSourcesMissing ev
  || someBadSource ev
  || configMissing ev
  || outOfRange (config ev) "crawlDepth" 1 3
  || outOfRange (config ev) "memoryDuration" 5 1440
  || outOfRange (config ev) "maxDocuments" 1 20.

(** The two further rejections of the code: the lookup of a given tenant
    fails, and an embedding model is given that is not a string. *)
Definition lookupRejected (dynamoGet : option json -> tenantResult)
    (ev : event) : bool :=
  truthyValue (tenantId ev)
  && match dynamoGet (tenantId ev) with GetRejected _ => true | _ => false end.

Definition badEmbeddingModel (ev : event) : bool :=
  match config ev with
  | Some (JObj fields) =>
      truthyValue (getField fields "embeddingModel")
      && negb (isString (getField fields "embeddingModel"))
  | _ => false
  end.

End Spec.

End Validate.

(** ** The error handler ([error_handler.js]) *)

Module ErrorHandler.
Import JS.

(** What the three service calls of one invocation resolve to. *)
Record world : Type := mkWorld {
  dynamoPut : result unit;
  snsPublish : result unit;
  putMetricData : result unit
}.

Record handled : Type := mkHandled {
  errorType : jsstring;
  errorMessage : jsstring;
  isRecoverable : bool;
  handlerError : option jsstring
}.

Definition includes (l : list string) (s : jsstring) : bool :=
  existsb (fun x => bool_decide (lit x = s)) l.

Definition isCriticalError (errorType : jsstring) : bool :=
  includes ["ValidationError"; "AuthenticationError"; "AuthorizationError";
            "DependencyError"; "ConfigurationError"; "ResourceExhaustedError"]
    errorType.

Definition isRecoverableError (errorType : jsstring) : bool :=
  includes ["ThrottlingError"; "TemporaryFailure"; "NetworkError";
            "ServiceException"; "TooManyRequestsException";
            "ProvisionedThroughputExceededException"]
    errorType.

Definition storeErrorInDynamoDB (w : world) : result unit :=
  tryCatch (dynamoPut w) (fun _ => Ok tt).

Definition publishErrorNotification (w : world) : result unit :=
  tryCatch (snsPublish w) (fun _ => Ok tt).

Definition recordErrorMetric (w : world) : result unit :=
  tryCatch (putMetricData w) (fun _ => Ok tt).

(** [event.error || 'UnknownError'] *)
Definition orElse (v : option jsstring) (d : string) : jsstring :=
  match v with
  | Some s => if truthy s then s else lit d
  | None => lit d
  end.

Definition handler (w : world) (error message : option jsstring)
    : result handled :=
  tryCatch
    (let errorType := orElse error "UnknownError" in
     let errorMessage := orElse message "An unknown error occurred" in
     rbind (storeErrorInDynamoDB w) (fun _ =>
     rbind (if isCriticalError errorType
            then publishErrorNotification w else Ok tt) (fun _ =>
     rbind (recordErrorMetric w) (fun _ =>
     Ok (mkHandled errorType errorMessage
           (isRecoverableError errorType) None)))))
    (fun handlerError =>
       Ok (mkHandled (orElse error "UnknownError")
             (orElse message "An unknown error occurred")
             false (Some handlerError))).

End ErrorHandler.

(** ** The state machine of the RAG pipeline *)

Module Pipeline.
Import JS.

Inductive resource : Type :=
| ValidateInputFunctionArn | ErrorHandlerFunctionArn
| CrawlWebsiteFunctionArn | FetchFromApiFunctionArn
| ProcessDocumentFunctionArn | ExtractTextFunctionArn
| GenerateEmbeddingsFunctionArn | StoreEmbeddingsFunctionArn
| ConfigureMemoryFunctionArn | UpdateMetadataFunctionArn
| ScheduleCrawlFunctionArn | AnalyzeResultsFunctionArn
| NotifyCompletionFunctionArn.

Record retrier : Type := mkRetrier {
  ErrorEquals : list string;
  IntervalSeconds : nat;
  MaxAttempts : nat;
  BackoffRate : nat
}.

Record catcher (S : Type) : Type := mkCatcher {
  CatchErrorEquals : list string;
  CatchNext : S
}.
Arguments mkCatcher {S} _ _.
Arguments CatchErrorEquals {S} _.
Arguments CatchNext {S} _.

(** The two variables the Choice states test. *)
Inductive path : Type :=
| ValidationIsValid   (* $.validation.isValid *)
| DataSourceType.     (* $.dataSource.type *)

(** A state of the definition. [Next = None] is ["End": true]; the
    [Parameters] kept are the constant [error] and [message] the error
    handler is given; [Pass] states are the two terminal ones, with the
    [status] of their [Result]. *)
Inductive stateDef (S : Type) : Type :=
| Task (Resource : resource) (Params : list (string * string))
    (Retry : list retrier) (Catch : list (catcher S)) (Next : option S)
| Choice (VariablePath : path) (Choices : list (json * S)) (Default : S)
| Pass (status : string)
| Map (Next : S).
Arguments Task {S} _ _ _ _ _.
Arguments Choice {S} _ _ _.
Arguments Pass {S} _.
Arguments Map {S} _.

Inductive iterState : Type :=
| DetermineSourceType | CrawlWebsite | FetchFromApi | ProcessDocument
| CrawlError | ApiError | DocumentError | InvalidSourceType
| ExtractText | ExtractError | GenerateEmbeddings | EmbeddingError
| StoreEmbeddings | StorageError
| SourceProcessingSucceeded | SourceProcessingFailed.

Inductive topState : Type :=
| ValidateInput | CheckValidationResult | ValidationError
| ProcessDataSources
| ConfigureMemoryDuration | MemoryConfigError
| UpdateMetadata | MetadataError
| ScheduleNextCrawl | ScheduleError
| AnalyzeResults | NotifyCompletion.

#[global] Instance iterState_eq_dec : EqDecision iterState.
Proof. solve_decision. Defined.

#[global] Instance topState_eq_dec : EqDecision topState.
Proof. solve_decision. Defined.

Definition retryOn (errors : list string) : list retrier :=
  [mkRetrier errors 2 3 2].

Definition catchAll {S} (next : S) : list (catcher S) :=
  [mkCatcher ["States.ALL"] next].

Definition errorTask {S} (error message : string) (next : S) : stateDef S :=
  Task ErrorHandlerFunctionArn [("error", error); ("message", message)]
    [] [] (Some next).

(** The ["Iterator"] of [ProcessDataSources]. *)
Definition iterator (s : iterState) : stateDef iterState :=
  match s with
  | DetermineSourceType =>
      Choice DataSourceType
        [(JStr (lit "website"), CrawlWebsite);
         (JStr (lit "api"), FetchFromApi);
         (JStr (lit "document"), ProcessDocument)]
        InvalidSourceType
  | CrawlWebsite =>
      Task CrawlWebsiteFunctionArn []
        (retryOn ["ServiceException"; "TooManyRequestsException"])
        (catchAll CrawlError) (Some ExtractText)
  | FetchFromApi =>
      Task FetchFromApiFunctionArn []
        (retryOn ["ServiceException"; "TooManyRequestsException"])
        (catchAll ApiError) (Some ExtractText)
  | ProcessDocument =>
      Task ProcessDocumentFunctionArn [] (retryOn ["ServiceException"])
        (catchAll DocumentError) (Some ExtractText)
  | CrawlError =>
      errorTask "CrawlError" "Failed to crawl website" SourceProcessingFailed
  | ApiError =>
      errorTask "ApiError" "Failed to fetch from API" SourceProcessingFailed
  | DocumentError =>
      errorTask "DocumentError" "Failed to process document"
        SourceProcessingFailed
  | InvalidSourceType =>
      errorTask "InvalidSourceType" "Unknown data source type"
        SourceProcessingFailed
  | ExtractText =>
      Task ExtractTextFunctionArn [] (retryOn ["ServiceException"])
        (catchAll ExtractError) (Some GenerateEmbeddings)
  | ExtractError =>
      errorTask "ExtractError" "Failed to extract text" SourceProcessingFailed
  | GenerateEmbeddings =>
      Task GenerateEmbeddingsFunctionArn [] (retryOn ["ServiceException"])
        (catchAll EmbeddingError) (Some StoreEmbeddings)
  | EmbeddingError =>
      errorTask "EmbeddingError" "Failed to generate embeddings"
        SourceProcessingFailed
  | StoreEmbeddings =>
      Task StoreEmbeddingsFunctionArn [] (retryOn ["ServiceException"])
        (catchAll StorageError) (Some SourceProcessingSucceeded)
  | StorageError =>
      errorTask "StorageError" "Failed to store embeddings"
        SourceProcessingFailed
  | SourceProcessingSucceeded => Pass "succeeded"
  | SourceProcessingFailed => Pass "failed"
  end.

(** The top-level ["States"]. *)
Definition machine (s : topState) : stateDef topState :=
  match s with
  | ValidateInput =>
      Task ValidateInputFunctionArn [] [] [] (Some CheckValidationResult)
  | CheckValidationResult =>
      Choice ValidationIsValid [(JBool true, ProcessDataSources)]
        ValidationError
  | ValidationError =>
      Task ErrorHandlerFunctionArn
        [("error", "ValidationError");
         ("message", "Invalid input provided for RAG pipeline")]
        [] [] None
  | ProcessDataSources => Map ConfigureMemoryDuration
  | ConfigureMemoryDuration =>
      Task ConfigureMemoryFunctionArn [] (retryOn ["ServiceException"])
        (catchAll MemoryConfigError) (Some UpdateMetadata)
  | MemoryConfigError =>
      errorTask "MemoryConfigError" "Failed to configure memory duration"
        UpdateMetadata
  | UpdateMetadata =>
      Task UpdateMetadataFunctionArn [] (retryOn ["ServiceException"])
        (catchAll MetadataError) (Some ScheduleNextCrawl)
  | MetadataError =>
      errorTask "MetadataError" "Failed to update metadata" ScheduleNextCrawl
  | ScheduleNextCrawl =>
      Task ScheduleCrawlFunctionArn [] (retryOn ["ServiceException"])
        (catchAll ScheduleError) (Some AnalyzeResults)
  | ScheduleError =>
      errorTask "ScheduleError" "Failed to schedule next crawl" AnalyzeResults
  | AnalyzeResults =>
      Task AnalyzeResultsFunctionArn [] [] [] (Some NotifyCompletion)
  | NotifyCompletion => Task NotifyCompletionFunctionArn [] [] [] None
  end.

(** *** Execution *)

(** What one invocation of a Lambda function gives: a result, or the error
    it raised, by name. *)
Inductive taskOutcome : Type :=
| Returned
| Raised (error : string).

Inductive ending : Type :=
| Succeeded (status : option string)
| Failed (error : string)
| Unfinished.

(** An execution: the states entered, in order, and how it ended. *)
Record execution (S : Type) : Type := mkExecution {
  trace : list S;
  final : ending
}.
Arguments mkExecution {S} _ _.
Arguments trace {S} _.
Arguments final {S} _.

(** An error name is matched by the name itself and by [States.ALL]. *)
Definition errorMatches (names : list string) (error : string) : bool :=
  existsb (fun n => String.eqb n "States.ALL" || String.eqb n error) names.

(** The first retrier that matches, with its position. *)
Fixpoint findRetrier (retry : list retrier) (error : string) (i : nat)
    : option (nat * retrier) :=
  match retry with
  | [] => None
  | r :: rest =>
      if errorMatches (ErrorEquals r) error then Some (i, r)
      else findRetrier rest error (S i)
  end.

Fixpoint findCatcher {S} (catch : list (catcher S)) (error : string)
    : option S :=
  match catch with
  | [] => None
  | c :: rest =>
      if errorMatches (CatchErrorEquals c) error then Some (CatchNext c)
      else findCatcher rest error
  end.

(** The equality a Choice rule tests ([StringEquals], [BooleanEquals]). *)
Definition ruleMatches (expected actual : json) : bool :=
  match expected, actual with
  | JStr a, JStr b => bool_decide (a = b)
  | JBool a, JBool b => Bool.eqb a b
  | _, _ => false
  end.

Fixpoint choose {S} (choices : list (json * S)) (default : S) (v : json) : S :=
  match choices with
  | [] => default
  | (expected, next) :: rest =>
      if ruleMatches expected v then next else choose rest default v
  end.

Section Run.

Context {St : Type}.
Variable definition : St -> stateDef St.
(** The outcome of the [attempt]-th invocation made from a state. *)
Variable invokeAt : St -> resource -> list (string * string) -> nat
                    -> taskOutcome.
(** The value at a path of the state's input, if there is one. *)
Variable valueAt : path -> option json.
(** The error that fails the Map state, if an iteration failed. *)
Variable iterationError : option string.

(** A Task with its retries: [counts] holds the retries already made for
    each retrier. *)
Fixpoint attempts (fuel : nat) (s : St) (Resource : resource)
    (Params : list (string * string)) (Retry : list retrier)
    (counts : list nat) (attempt : nat) : option taskOutcome :=
  match fuel with
  | O => None
  | S fuel' =>
      match invokeAt s Resource Params attempt with
      | Returned => Some Returned
      | Raised error =>
          match findRetrier Retry error 0 with
          | Some (i, r) =>
              if counts !!! i <? MaxAttempts r then
                attempts fuel' s Resource Params Retry
                  (<[i := S (counts !!! i)]> counts) (S attempt)
              else Some (Raised error)
          | None => Some (Raised error)
          end
      end
  end.

Definition settle (s : St) (Resource : resource)
    (Params : list (string * string)) (Retry : list retrier)
    : option taskOutcome :=
  attempts (S (list_sum (MaxAttempts <$> Retry))) s Resource Params Retry
    (replicate (length Retry) 0) 0.

Fixpoint run (fuel : nat) (s : St) (entered : list St) : execution St :=
  match fuel with
  | O => mkExecution entered Unfinished
  | S fuel' =>
      let entered' := entered ++ [s] in
      match definition s with
      | Pass status => mkExecution entered' (Succeeded (Some status))
      | Choice VariablePath Choices Default =>
          match valueAt VariablePath with
          | None => mkExecution entered' (Failed "States.Runtime")
          | Some v => run fuel' (choose Choices Default v) entered'
          end
      | Task Resource Params Retry Catch Next =>
          match settle s Resource Params Retry with
          | None => mkExecution entered' Unfinished
          | Some Returned =>
              match Next with
              | Some s' => run fuel' s' entered'
              | None => mkExecution entered' (Succeeded None)
              end
          | Some (Raised error) =>
              match findCatcher Catch error with
              | Some s' => run fuel' s' entered'
              | None => mkExecution entered' (Failed error)
              end
          end
      | Map Next =>
          match iterationError with
          | None => run fuel' Next entered'
          | Some error => mkExecution entered' (Failed error)
          end
      end
  end.

End Run.

(** Where an invocation is made from: a top-level state, or a state of the
    iteration for the data source at [index]. *)
Inductive place : Type :=
| AtTop (s : topState)
| AtSource (index : nat) (s : iterState).

(** The world of one execution: what each invocation of the Lambda functions
    whose code is not modelled gives, the service calls of each invocation of
    the error handler, and the tenant table the validator reads. *)
Record env : Type := mkEnv {
  outcomes : place -> nat -> taskOutcome;
  handlerWorld : place -> nat -> ErrorHandler.world;
  dynamoGet : option json -> Validate.tenantResult
}.

Definition parameter (Params : list (string * string)) (key : string)
    : option jsstring :=
  lit <$> (snd <$> List.find (fun kv => String.eqb (fst kv) key) Params).

(** The validator and the error handler are the functions modelled above;
    a function that throws fails its invocation with the error [Error]. *)
Definition invoke (e : env) (p : place) (Resource : resource)
    (Params : list (string * string)) (attempt : nat) : taskOutcome :=
  match Resource with
  | ValidateInputFunctionArn => Returned
  | ErrorHandlerFunctionArn =>
      match ErrorHandler.handler (handlerWorld e p attempt)
              (parameter Params "error") (parameter Params "message")
      with
      | Ok _ => Returned
      | Throw _ => Raised "Error"
      end
  | _ => outcomes e p attempt
  end.

Definition sourceType (source : json) : option json :=
  match getProp source "type" with
  | Ok v => v
  | Throw _ => None
  end.

(** One iteration of the Map state. *)
Definition runBranch (e : env) (index : nat) (source : json)
    : execution iterState :=
  run iterator (fun s => invoke e (AtSource index s))
    (fun p => match p with
              | DataSourceType => sourceType source
              | ValidationIsValid => None
              end)
    None 16 DetermineSourceType [].

Definition items (ev : Validate.event) : option (list json) :=
  match Validate.dataSources ev with
  | Some (JArr sources) => Some sources
  | _ => None
  end.

Definition branchError (b : execution iterState) : option string :=
  match final b with
  | Failed error => Some error
  | _ => None
  end.

Fixpoint firstError (bs : list (execution iterState)) : option string :=
  match bs with
  | [] => None
  | b :: rest =>
      match branchError b with
      | Some error => Some error
      | None => firstError rest
      end
  end.

Record outcome : Type := mkOutcome {
  top : execution topState;
  processedDataSources : list (execution iterState)
}.

(** A whole execution on the input [ev]. *)
Definition execute (e : env) (ev : Validate.event) : outcome :=
  let validation := Validate.handler (dynamoGet e) ev in
  let branches :=
    match items ev with
    | Some sources => imap (runBranch e) sources
    | None => []
    end in
  let iterationError :=
    match items ev with
    | Some _ => firstError branches
    | None => Some "States.Runtime"
    end in
  let t :=
    run machine (fun s => invoke e (AtTop s))
      (fun p => match p with
                | ValidationIsValid => Some (JBool (Validate.isValid validation))
                | DataSourceType => None
                end)
      iterationError 12 ValidateInput [] in
  mkOutcome t
    (if bool_decide (ProcessDataSources ∈ trace t) then branches else []).

End Pipeline.

(** ** The query handler ([chatbot_query.js]) *)

Module Chatbot.
Import JS.

(** A hit of the similarity search. A relevance score is a number; its
    comparison with 0.5 is exact, so it is kept as a rational. The text of
    an indexed document is a string, the chunk that [store_embeddings.js]
    wrote, or is missing. A hit without [_source] makes the reading of its
    text throw, and so does the reading of the length of a text that is
    missing. *)
Record hitSource : Type := mkHitSource {
  text : option jsstring;
  source_url : option json;
  source_name : option json
}.

Record hit : Type := mkHit {
  _score : Q;
  _source : option hitSource
}.

Record source : Type := mkSource {
  sourceText : jsstring;
  url : option json;
  score : Q;
  name : option json
}.

Record searchResult : Type := mkSearchResult {
  relevantContent : jsstring;
  sources : list source
}.

(** An entry of the conversation history, a turn or an analytics item: a
    JavaScript object with the given attributes. *)
Definition object : Type := list (string * json).


(** What the services answer during one invocation of the handler. The three
    [Payload]s are given parsed: [Throw] stands for a rejected call and for a
    payload that is not JSON alike. *)
Record world : Type := mkWorld {
  uuidv4 : jsstring;
  now : jsstring;                               (* new Date().toISOString() *)
  dynamoGet : result (option json);             (* the chatbot's item *)
  getRedisClient : result unit;
  lrange : result (list json);                  (* the history, parsed *)
  embeddingPayload : result json;
  opensearchRequest : result (list hit);
  inferencePayload : jsstring -> json -> result json;
  lpushUser : result unit;
  lpushAssistant : result unit;
  expire : result unit;
  dynamoPut : object -> result unit
}.

(** [score > 0.5] *)
Definition aboveThreshold (score : Q) : bool := negb (Qle_bool score (1 # 2)).

Definition excerpt (text : jsstring) : jsstring :=
  if 200 <? length text then take 200 text ++ lit "..." else text.

(** The callback of [hits.forEach]. *)
Definition addHit (acc : searchResult) (h : hit) : result searchResult :=
  match _source h with
  | None => Throw (lit "Cannot read properties of undefined (reading 'text')")
  | Some src =>
      if aboveThreshold (_score h) then
        match text src with
        | None =>
            Throw (lit "Cannot read properties of undefined (reading 'length')")
        | Some text =>
            Ok (mkSearchResult (relevantContent acc ++ text ++ [LF; LF])
                  (sources acc
                     ++ [mkSource (excerpt text) (source_url src) (_score h)
                           (source_name src)]))
        end
      else Ok acc
  end.

Fixpoint addHits (acc : searchResult) (hits : list hit) : result searchResult :=
  match hits with
  | [] => Ok acc
  | h :: rest => rbind (addHit acc h) (fun acc' => addHits acc' rest)
  end.

Definition searchRelevantContent (w : world) : result searchResult :=
  tryCatch
    (rbind (embeddingPayload w) (fun embeddingData =>
     rbind (getProp embeddingData "embedding") (fun queryEmbedding =>
     if negb (truthyValue queryEmbedding) then
       Throw (lit "Failed to generate embedding for query")
     else
       rbind (opensearchRequest w) (fun hits =>
       addHits (mkSearchResult [] []) hits))))
    (fun _ => Ok (mkSearchResult [] [])).

Definition roleLabel (role : option json) : jsstring :=
  match role with
  | Some (JStr r) =>
      if bool_decide (r = lit "user") then lit "Human" else lit "Assistant"
  | _ => lit "Assistant"
  end.

(** [recentHistory.reverse().forEach(...)] *)
Fixpoint addHistory (prompt : jsstring) (messages : list json)
    : result jsstring :=
  match messages with
  | [] => Ok prompt
  | msg :: rest =>
      rbind (getProp msg "role") (fun role =>
      rbind (getProp msg "content") (fun content =>
      rbind (toStringValue content) (fun shown =>
      addHistory (prompt ++ roleLabel role ++ lit ": " ++ shown ++ [LF]) rest)))
  end.

Definition buildPromptWithContext (query : json) (history : list json)
    (relevantContent : jsstring) : result jsstring :=
  let prompt :=
    lit "You are a helpful AI assistant answering questions based on the provided context."
    ++ [LF; LF] in
  let prompt :=
    if truthy relevantContent then
      prompt ++ lit "Context information:" ++ [LF; 34; 34; 34; LF]%N
      ++ relevantContent ++ [LF; 34; 34; 34; LF; LF]%N
    else prompt in
  rbind
    (match history with
     | [] => Ok prompt
     | _ :: _ =>
         rbind (addHistory (prompt ++ lit "Previous conversation:" ++ [LF])
                  (rev (take 10 history)))
           (fun prompt => Ok (prompt ++ [LF]))
     end)
    (fun prompt =>
       rbind (toString query) (fun shown =>
       Ok (prompt ++ lit "Human: " ++ shown ++ [LF; LF] ++ lit "Assistant:"))).

Definition apology : jsstring :=
  lit "I apologize, but I encountered an issue generating a response. Please try again later.".

(** [config.model || 'gpt-3.5-turbo'] *)
Definition modelOf (config : json) : result json :=
  rbind (getProp config "model") (fun model =>
  match model with
  | Some m => Ok (if truthyJson m then m else JStr (lit "gpt-3.5-turbo"))
  | None => Ok (JStr (lit "gpt-3.5-turbo"))
  end).

Definition generateResponse (w : world) (prompt : jsstring) (config : json)
    : result jsstring :=
  tryCatch
    (rbind (modelOf config) (fun model =>
     rbind (inferencePayload w prompt model) (fun inferenceData =>
     rbind (getProp inferenceData "error") (fun error =>
     if truthyValue error then
       rbind (toStringValue error) (fun message => Throw message)
     else
       rbind (getProp inferenceData "response") (fun response =>
       match response with
       | Some (JStr s) => Ok (trim s)
       | None =>
           Throw (lit "Cannot read properties of undefined (reading 'trim')")
       | Some JNull =>
           Throw (lit "Cannot read properties of null (reading 'trim')")
       | Some _ => Throw (lit "inferenceData.response.trim is not a function")
       end)))))
    (fun _ => Ok apology).

(** [timestamp.split('T')[0]] *)
Fixpoint beforeT (s : jsstring) : jsstring :=
  match s with
  | [] => []
  | c :: s' => if (c =? 84)%N then [] else c :: beforeT s'
  end.

(** The [Item] that [recordQuery] writes. *)
Definition queryItem (w : world) (tenantId chatbotId : jsstring)
    (sessionId query : json) (response : jsstring) : object :=
  [("id", JStr (uuidv4 w));
   ("tenantId", JStr tenantId);
   ("chatbotId", JStr chatbotId);
   ("sessionId", sessionId);
   ("query", query);
   ("responseLength", JNum (Z.of_nat (length response)));
   ("timestamp", JStr (now w));
   ("date", JStr (beforeT (now w)))].

Definition recordQuery (w : world) (tenantId chatbotId : jsstring)
    (sessionId query : json) (response : jsstring) : result unit :=
  tryCatch
    (dynamoPut w (queryItem w tenantId chatbotId sessionId query response))
    (fun _ => Ok tt).

Definition getChatbotConfig (w : world) : result (option json) :=
  tryCatch (dynamoGet w) (fun _ => Ok None).

(** The fields of the API Gateway event the handler reads: the parsed body,
    the path parameter and the tenant of the caller's claims. *)
Record request : Type := mkRequest {
  requestBody : result json;
  chatbotId : option jsstring;
  tenantId : result (option jsstring)
}.

(** The [body] of a response, before [JSON.stringify]. *)
Inductive responseBody : Type :=
| ErrorBody (error : jsstring)
| AnswerBody (response : jsstring) (sessionId : json) (sources : list source).

Record response : Type := mkResponse {
  statusCode : nat;
  body : responseBody
}.

Definition missingParameters : response :=
  mkResponse 400
    (ErrorBody
       (lit "Missing required parameters: chatbotId, query, or tenant authentication")).

Definition notFound : response :=
  mkResponse 404 (ErrorBody (lit "Chatbot not found or access denied")).

Definition serverError : response :=
  mkResponse 500 (ErrorBody (lit "An error occurred processing your query")).

(** The steps of the handler once the chatbot's configuration is found. *)
Definition answer (w : world) (tenantId chatbotId : jsstring)
    (sessionId query chatbotConfig : json) : result response :=
  rbind (getRedisClient w) (fun _ =>
  rbind (toString sessionId) (fun _ =>
  rbind (lrange w) (fun conversationHistory =>
  rbind (searchRelevantContent w) (fun found =>
  rbind (buildPromptWithContext query conversationHistory
           (relevantContent found)) (fun prompt =>
  rbind (generateResponse w prompt chatbotConfig) (fun response =>
  rbind (lpushUser w) (fun _ =>
  rbind (lpushAssistant w) (fun _ =>
  rbind (expire w) (fun _ =>
  rbind (recordQuery w tenantId chatbotId sessionId query response) (fun _ =>
  Ok (mkResponse 200 (AnswerBody response sessionId (sources found))))))))))))).

(** The [try] block of the handler. *)
Definition handle (w : world) (req : request) : result response :=
  rbind (requestBody req) (fun body =>
  rbind (getProp body "query") (fun query =>
  rbind (tenantId req) (fun tenantId =>
  rbind (getProp body "sessionId") (fun given =>
  let sessionId :=
    match given with
    | Some s => if truthyJson s then s else JStr (uuidv4 w)
    | None => JStr (uuidv4 w)
    end in
  match chatbotId req, query, tenantId with
  | Some chatbotId, Some query, Some tenantId =>
      if negb (truthy chatbotId) || negb (truthyJson query)
         || negb (truthy tenantId)
      then Ok missingParameters
      else
        rbind (getChatbotConfig w) (fun chatbotConfig =>
        match chatbotConfig with
        | Some chatbotConfig =>
            if truthyJson chatbotConfig
            then answer w tenantId chatbotId sessionId query chatbotConfig
            else Ok notFound
        | None => Ok notFound
        end)
  | _, _, _ => Ok missingParameters
  end)))).

Definition handler (w : world) (req : request) : response :=
  match handle w req with
  | Ok r => r
  | Throw _ => serverError
  end.

End Chatbot.

(** ** Service calls

    The Lambda functions await one service call after the other. A
    computation of the monad [M] may throw and appends the calls it makes,
    in order, to those made before it. *)

Module Calls.
Import JS.

Section Monad.

Context {C : Type}.

Definition M (A : Type) : Type := list C -> result A * list C.

Definition ret {A} (a : A) : M A := fun calls => (Ok a, calls).

Definition bind {A B} (m : M A) (k : A -> M B) : M B :=
  fun calls =>
    match m calls with
    | (Ok a, calls') => k a calls'
    | (Throw e, calls') => (Throw e, calls')
    end.

Definition lift {A} (r : result A) : M A := fun calls => (r, calls).

(** [throw new Error(message)] *)
Definition throw {A} (message : jsstring) : M A := lift (Throw message).

(** [await service.call(...)]: the call is made, and resolves or rejects as
    [answer] says. *)
Definition request {A} (c : C) (answer : result A) : M A :=
  fun calls => (answer, calls ++ [c]).

(** [try { body } catch (error) { handler(error.message) }] *)
Definition try {A} (body : M A) (handler : jsstring -> M A) : M A :=
  fun calls =>
    match body calls with
    | (Ok a, calls') => (Ok a, calls')
    | (Throw e, calls') => handler e calls'
    end.

End Monad.

(** [v.key] of a value that may be [undefined]. *)
Definition prop (v : option json) (key : string) : result (option json) :=
  match v with
  | None =>
      Throw (lit "Cannot read properties of undefined (reading '"
             ++ lit key ++ lit "')")
  | Some j => getProp j key
  end.

Notation "x <- m ;; k" := (bind m (fun x => k))
  (at level 62, m at next level, right associativity).
Notation "m ;;; k" := (bind m (fun _ => k))
  (at level 62, right associativity).

End Calls.

(** ** The service calls of the error handler ([error_handler.js]) *)

Module ErrorHandlerCalls.
Import JS Calls ErrorHandler.

(** The three calls, with the error type each is made for. *)
Inductive call : Type :=
| DynamoPut (errorType errorMessage : jsstring)
| SnsPublish (errorType errorMessage : jsstring)
| PutMetricData (errorType : jsstring).

Definition storeErrorInDynamoDB (w : world) (errorType errorMessage : jsstring)
    : M unit :=
  try (request (DynamoPut errorType errorMessage) (dynamoPut w))
    (fun _ => ret tt).

Definition publishErrorNotification (w : world)
    (errorType errorMessage : jsstring) : M unit :=
  try (request (SnsPublish errorType errorMessage) (snsPublish w))
    (fun _ => ret tt).

Definition recordErrorMetric (w : world) (errorType : jsstring) : M unit :=
  try (request (PutMetricData errorType) (putMetricData w)) (fun _ => ret tt).

(** The handler, with the calls it makes. *)
Definition handler (w : world) (error message : option jsstring)
    : M handled :=
  try
    (let errorType := orElse error "UnknownError" in
     let errorMessage := orElse message "An unknown error occurred" in
     storeErrorInDynamoDB w errorType errorMessage ;;;
     (if isCriticalError errorType
      then publishErrorNotification w errorType errorMessage
      else ret tt) ;;;
     recordErrorMetric w errorType ;;;
     ret (mkHandled errorType errorMessage (isRecoverableError errorType)
            None))
    (fun handlerError =>
       ret (mkHandled (orElse error "UnknownError")
              (orElse message "An unknown error occurred")
              false (Some handlerError))).

End ErrorHandlerCalls.

(** ** The embedding of the chunks ([generate_embeddings.js]) *)

Module Embeddings.
Import JS Calls.

(** The fields of the Step Functions event the handler reads; each may be
    [undefined]. *)
Record event : Type := mkEvent {
  tenantId : option json;
  dataSource : option json;
  extractedText : option json;
  config : option json
}.

(** An embedding: the [data] of the service's response, or the random
    numbers of the fallback. *)
Inductive vector : Type :=
| Data (data : option json)
| Random (values : list Q).

(** An element of the [embeddings] array. *)
Record item : Type := mkItem {
  text : jsstring;
  embedding : vector;
  chunkIndex : nat;
  sourceUrl : option json;
  sourceName : option json
}.

Inductive call : Type :=
| GetSecretValue
| GetObject (Key : option json)
| Post (inputs : jsstring) (model : json) (apiKey : option json)
| PutObject (Key : jsstring) (Body : list item)
| SendMessage (error : jsstring).

(** What the services answer during one invocation. [getSecretValue] is
    the secret's string, parsed; [post i] answers the call made for the chunk
    at index [i], and [random i k] is the [k]-th value of [Math.random]
    drawn for that chunk. *)
Record world : Type := mkWorld {
  development : bool;        (* process.env.NODE_ENV === 'development' *)
  getSecretValue : result json;
  getObject : result jsstring;
  post : nat -> result (option json);
  random : nat -> nat -> Q;
  getTime : Z;
  putObject : result unit;
  sendMessage : result unit
}.

Record output : Type := mkOutput {
  outTenantId : option json;
  sourceId : option json;
  outSourceName : option json;
  sourceType : option json;
  embeddingsKey : jsstring;
  embeddingModel : json;
  chunkCount : nat
}.

Definition noText : jsstring := lit "No extracted text information provided".

(** [config.embeddingModel || 'sentence-transformers/all-MiniLM-L6-v2'] *)
Definition embeddingModelOf (cfg : option json) : result json :=
  rbind (prop cfg "embeddingModel") (fun model =>
  Ok (match model with
      | Some m =>
          if truthyJson m then m
          else JStr (lit "sentence-transformers/all-MiniLM-L6-v2")
      | None => JStr (lit "sentence-transformers/all-MiniLM-L6-v2")
      end)).

Definition getEmbeddingApiKey (w : world) : M (option json) :=
  try (secretJson <- request GetSecretValue (getSecretValue w) ;;
       lift (getProp secretJson "apiKey"))
    (fun error => throw error).

Definition generateEmbedding (w : world) (i : nat) (text : jsstring)
    (model : json) (apiKey : option json) : M vector :=
  try (_ <- lift (toStringValue apiKey) ;;        (* `Bearer ${apiKey}` *)
       data <- request (Post text model apiKey) (post w i) ;;
       ret (Data data))
    (fun error =>
       if development w then ret (Random (random w i <$> seq 0 384))
       else throw error).

(** The [for] loop over the chunks, from index [i] on. *)
Fixpoint embedChunks (w : world) (model : json) (apiKey : option json)
    (source : option json) (i : nat) (textChunks : list jsstring)
    (embeddings : list item) : M (list item) :=
  match textChunks with
  | [] => ret embeddings
  | chunk :: rest =>
      embedding <- generateEmbedding w i chunk model apiKey ;;
      url <- lift (prop source "url") ;;
      name <- lift (prop source "name") ;;
      embedChunks w model apiKey source (S i) rest
        (embeddings ++ [mkItem chunk embedding i url name])
  end.

(** The [try] block up to the reading of the text. *)
Definition readText (w : world) (ev : event)
    : M (json * option json * jsstring) :=
  key <- (if negb (truthyValue (extractedText ev)) then throw noText
          else
            key <- lift (prop (extractedText ev) "processedTextKey") ;;
            if negb (truthyValue key) then throw noText else ret key) ;;
  embeddingModel <- lift (embeddingModelOf (config ev)) ;;
  _ <- lift (toString embeddingModel) ;;  (* `Using embedding model: ${...}` *)
  apiKey <- getEmbeddingApiKey w ;;
  rawText <- request (GetObject key) (getObject w) ;;
  ret (embeddingModel, apiKey, rawText).

(** The [try] block from the chunks on. *)
Definition store (w : world) (ev : event) (embeddingModel : json)
    (apiKey : option json) (textChunks : list jsstring) : M output :=
  embeddings <- embedChunks w embeddingModel apiKey (dataSource ev) 0
                  textChunks [] ;;
  tenant <- lift (toStringValue (tenantId ev)) ;;
  name <- lift (prop (dataSource ev) "name") ;;
  shownName <- lift (toStringValue name) ;;
  let embeddingsKey :=
    tenant ++ lit "/embeddings/" ++ shownName ++ lit "-"
    ++ decimal (getTime w) ++ lit ".json" in
  type <- lift (prop (dataSource ev) "type") ;;
  request (PutObject embeddingsKey embeddings) (putObject w) ;;;
  sourceId <- lift (prop (extractedText ev) "sourceId") ;;
  ret (mkOutput (tenantId ev) sourceId name type embeddingsKey embeddingModel
         (length embeddings)).

(** The [catch] block: the error goes to the dead-letter queue and is
    thrown again. *)
Definition report (w : world) (error : jsstring) : M output :=
  request (SendMessage error) (sendMessage w) ;;; throw error.

(** The handler; [None] is a chunker that does not return. *)
Definition handler (w : world) (ev : event)
    : option (result output * list call) :=
  match readText w ev [] with
  | (Throw error, calls) => Some (report w error calls)
  | (Ok (embeddingModel, apiKey, rawText), calls) =>
      textChunks ← Chunker.splitTextIntoChunks rawText Chunker.MAX_CHUNK_SIZE;
      Some (try (store w ev embeddingModel apiKey textChunks) (report w) calls)
  end.

End Embeddings.

(** ** The extraction of the text ([extract_text.js]) *)

Module Extractor.
Import JS Calls.

(** [l.join(sep)] of an array of strings. *)
Fixpoint join (sep : jsstring) (l : list jsstring) : jsstring :=
  match l with
  | [] => []
  | x :: rest =>
      match rest with
      | [] => x
      | _ :: _ => x ++ sep ++ join sep rest
      end
  end.

(** *** [extractTextFromCrawledPages] *)

Definition separator : jsstring := [LF] ++ lit "---" ++ [LF].

(** The body of [for (const page of crawledPages)]: what it pushes. *)
Definition pageTexts (page : json) : result (list jsstring) :=
  rbind (getProp page "content") (fun content =>
  if negb (truthyValue content) then Ok []
  else
    match content with
    | Some (JStr s) =>
        if truthy (trim s) then
          rbind (getProp page "url") (fun url =>
          rbind (toStringValue url) (fun shown =>
          Ok [lit "# Page: " ++ shown; s; separator]))
        else Ok []
    | _ => Throw (lit "page.content.trim is not a function")
    end).

Fixpoint pagesTexts (pages : list json) (allTexts : list jsstring)
    : result (list jsstring) :=
  match pages with
  | [] => Ok allTexts
  | page :: rest =>
      rbind (pageTexts page) (fun pushed =>
      pagesTexts rest (allTexts ++ pushed))
  end.

(** A string is iterated character by character, and a character has no
    [content]; a value that is neither an array nor a string cannot be
    iterated. *)
Definition extractTextFromCrawledPages (crawledPages : json)
    : result jsstring :=
  match crawledPages with
  | JArr pages =>
      rbind (pagesTexts pages []) (fun allTexts => Ok (join [LF] allTexts))
  | JStr _ => Ok []
  | _ => Throw (lit "crawledPages is not iterable")
  end.

(** *** [normalizeJsonForRAG] *)

(** A key that is an array index: the decimal form, without leading zeros,
    of an integer below 2^32 - 1. *)
Definition arrayIndex (key : string) : option Z :=
  match parseDigits None (lit key) with
  | Some z =>
      if bool_decide (decimal z = lit key) && (z <=? 4294967294)%Z
      then Some z else None
  | None => None
  end.

(** The keys of a parsed object, each once, in the order of their first
    occurrence. *)
Fixpoint firstKeys (seen : list string) (fields : list (string * json))
    : list string :=
  match fields with
  | [] => []
  | (k, _) :: rest =>
      if bool_decide (k ∈ seen) then firstKeys seen rest
      else k :: firstKeys (k :: seen) rest
  end.

Fixpoint insertIndex (n : Z) (k : string) (sorted : list (Z * string))
    : list (Z * string) :=
  match sorted with
  | [] => [(n, k)]
  | (m, k') :: rest =>
      if (n <? m)%Z then (n, k) :: sorted
      else (m, k') :: insertIndex n k rest
  end.

(** The order in which [for ... in] goes through the keys of an object:
    the array indices, ascending, then the other keys in the order of their
    creation. *)
Definition ownKeys (fields : list (string * json)) : list string :=
  let keys := firstKeys [] fields in
  let indices :=
    foldr (fun k sorted =>
             match arrayIndex k with
             | Some n => insertIndex n k sorted
             | None => sorted
             end) [] keys in
  (snd <$> indices)
  ++ List.filter (fun k => match arrayIndex k with
                           | Some _ => false
                           | None => true
                           end) keys.

(** The keys [for (const key in obj)] goes through, each with [obj[key]]:
    the properties of an object, the elements of an array, the characters of
    a string; a number, a boolean and [null] have none. *)
Definition entries (obj : json) : list (jsstring * json) :=
  match obj with
  | JObj fields =>
      omap (fun k => (fun v => (lit k, v)) <$> getField fields k)
        (ownKeys fields)
  | JArr items => imap (fun i x => (decimal (Z.of_nat i), x)) items
  | JStr s => imap (fun i c => (decimal (Z.of_nat i), JStr [c])) s
  | _ => []
  end.

(** [typeof v === 'object' && v !== null] *)
Definition objectLike (v : json) : bool :=
  match v with
  | JObj _ | JArr _ => true
  | _ => false
  end.

(** [items.join(', ')] *)
Fixpoint joinItems (first : bool) (items : list json) : result jsstring :=
  match items with
  | [] => Ok []
  | x :: rest =>
      rbind (match x with JNull => Ok [] | _ => toString x end) (fun sx =>
      rbind (joinItems false rest) (fun sr =>
      Ok ((if first then [] else lit ", ") ++ sx ++ sr)))
  end.

(** A computation that may throw and may run out of fuel ([None]). *)
Definition andThen {A B} (m : option (result A))
    (k : A -> option (result B)) : option (result B) :=
  match m with
  | None => None
  | Some (Throw e) => Some (Throw e)
  | Some (Ok a) => k a
  end.

Section Flatten.

(** [flattenJson], for the values inside the one at hand. *)
Variable flattenJson : json -> jsstring -> option (result (list jsstring)).

(** [value.forEach((item, index) => ...)] of an array of objects. *)
Fixpoint forEach (newPrefix : jsstring) (items : list json) (index : nat)
    (lines : list jsstring) : option (result (list jsstring)) :=
  match items with
  | [] => Some (Ok lines)
  | item :: rest =>
      let itemPrefix :=
        newPrefix ++ lit "[" ++ decimal (Z.of_nat index) ++ lit "]" in
      andThen (flattenJson item itemPrefix) (fun flattened =>
      forEach newPrefix rest (S index)
        (lines ++ [itemPrefix ++ lit ":"] ++ flattened))
  end.

(** [for (const key in obj)], over the keys and values still to visit. *)
Fixpoint forIn (prefix : jsstring) (es : list (jsstring * json))
    (lines : list jsstring) : option (result (list jsstring)) :=
  match es with
  | [] => Some (Ok lines)
  | (key, value) :: rest =>
      let newPrefix :=
        if truthy prefix then prefix ++ lit "." ++ key else key in
      match value with
      | JObj _ =>
          andThen (flattenJson value newPrefix) (fun flattened =>
          forIn prefix rest (lines ++ flattened))
      | JArr [] => forIn prefix rest (lines ++ [newPrefix ++ lit ": []"])
      | JArr ((first :: _) as items) =>
          if objectLike first then
            andThen (forEach newPrefix items 0 lines) (fun lines' =>
            forIn prefix rest lines')
          else
            andThen (Some (joinItems true items)) (fun joined =>
            forIn prefix rest (lines ++ [newPrefix ++ lit ": " ++ joined]))
      | _ =>
          andThen (Some (toString value)) (fun shown =>
          forIn prefix rest (lines ++ [newPrefix ++ lit ": " ++ shown]))
      end
  end.

End Flatten.

(** [flattenJson(obj, prefix)]; the recursion goes down the value, [fuel]
    bounds its depth. *)
Fixpoint flattenJson (fuel : nat) (obj : json) (prefix : jsstring)
    : option (result (list jsstring)) :=
  match fuel with
  | O => None
  | S fuel' => forIn (flattenJson fuel') prefix (entries obj) []
  end.

(** The nesting of a value. *)
Fixpoint depth (v : json) : nat :=
  match v with
  | JArr items =>
      S ((fix deepest (l : list json) : nat :=
            match l with
            | [] => 0
            | x :: rest => Nat.max (depth x) (deepest rest)
            end) items)
  | JObj fields =>
      S ((fix deepest (l : list (string * json)) : nat :=
            match l with
            | [] => 0
            | (_, x) :: rest => Nat.max (depth x) (deepest rest)
            end) fields)
  | _ => 0
  end.

Section Normalize.

(** [JSON.parse] *)
Variable parse : jsstring -> result json.

(** [None] is a flattening that has not finished. *)
Definition normalizeJsonForRAG (jsonText : jsstring) : option jsstring :=
  match parse jsonText with
  | Throw _ => Some jsonText
  | Ok data =>
      match flattenJson (S (depth data)) data [] with
      | None => None
      | Some (Ok flattened) => Some (join [LF] flattened)
      | Some (Throw _) => Some jsonText
      end
  end.

End Normalize.

(** *** The handler *)

(** The fields of the Step Functions event the handler reads. *)
Record event : Type := mkEvent {
  dataSource : option json;
  tenantId : option json;
  crawlResult : option json;
  apiResult : option json;
  documentResult : option json
}.

Inductive call : Type :=
| GetObject (Key : option json)
| PutObject (Key Body : jsstring)
| Update (id : option json) (textKey : jsstring) (textLength : nat)
| SendMessage (error : jsstring).

(** What the services answer during one invocation, and the library
    functions the text goes through. [getObject] gives the object's [Body],
    as text, and its [ContentType]. *)
Record world : Type := mkWorld {
  getObject : result (jsstring * option jsstring);
  parse : jsstring -> result json;            (* JSON.parse *)
  cheerioText : jsstring -> jsstring;         (* cheerio.load(text).text() *)
  normalize : jsstring -> jsstring;           (* String.prototype.normalize *)
  getTime : Z;
  putObject : result unit;
  update : result unit;
  sendMessage : result unit
}.

Record output : Type := mkOutput {
  sourceId : option json;
  outTenantId : option json;
  sourceType : option json;
  sourceName : option json;
  processedTextKey : jsstring;
  textLength : nat
}.

(** [v === 'literal'] *)
Definition isType (v : option json) (s : string) : bool :=
  match v with
  | Some (JStr x) => bool_decide (x = lit s)
  | _ => false
  end.

(** [s.includes(sub)] *)
Definition includes (s sub : jsstring) : bool :=
  existsb (fun i => bool_decide (take (length sub) (drop i s) = sub))
    (seq 0 (S (length s))).

(** The key and the identifier of the result that goes with the type. *)
Definition resultOf (result : option json) (key : string)
    : JS.result (option json * option json) :=
  rbind (prop result key) (fun sourceKey =>
  rbind (prop result "sourceId") (fun sourceId =>
  Ok (sourceKey, sourceId))).

Definition selectSource (ev : event) (sourceType : option json)
    : result (option json * option json) :=
  if isType sourceType "website" && truthyValue (crawlResult ev) then
    resultOf (crawlResult ev) "s3Key"
  else if isType sourceType "api" && truthyValue (apiResult ev) then
    resultOf (apiResult ev) "s3Key"
  else if isType sourceType "document" && truthyValue (documentResult ev) then
    resultOf (documentResult ev) "processedTextKey"
  else
    rbind (toStringValue sourceType) (fun shown =>
    Throw (lit "Invalid source type or missing result for " ++ shown)).

(** The [try] block up to the reading of the content. *)
Definition readSource (w : world) (ev : event)
    : M (option json * option json * (jsstring * option jsstring)) :=
  sourceType <- lift (prop (dataSource ev) "type") ;;
  selected <- lift (selectSource ev sourceType) ;;
  _ <- lift (toStringValue selected.1) ;;  (* `Reading ... ${sourceKey}` *)
  contentObject <- request (GetObject selected.1) (getObject w) ;;
  ret (sourceType, selected.2, contentObject).

(** The [switch]: what the text becomes, by the type of the source. *)
Definition transform (w : world) (sourceType : option json)
    (text : jsstring) (ContentType : option jsstring)
    : option (result jsstring) :=
  if isType sourceType "website" then
    Some (rbind (parse w text) extractTextFromCrawledPages)
  else if isType sourceType "api" then
    match ContentType with
    | None =>
        Some (Throw (lit "Cannot read properties of undefined (reading 'includes')"))
    | Some contentType =>
        if includes contentType (lit "json")
        then Ok <$> normalizeJsonForRAG (parse w) text
        else Some (Ok text)
    end
  else Some (Ok text).

(** The [try] block from the cleaning of the text on. *)
Definition storeText (w : world) (ev : event)
    (sourceType sourceId : option json) (text : jsstring) : M output :=
  let text := Normalizer.cleanText (cheerioText w) (normalize w) text in
  tenant <- lift (toStringValue (tenantId ev)) ;;
  name <- lift (prop (dataSource ev) "name") ;;
  shownName <- lift (toStringValue name) ;;
  let extractedTextKey :=
    tenant ++ lit "/extracted-text/" ++ shownName ++ lit "-"
    ++ decimal (getTime w) ++ lit ".txt" in
  request (PutObject extractedTextKey text) (putObject w) ;;;
  request (Update sourceId extractedTextKey (length text)) (update w) ;;;
  ret (mkOutput sourceId (tenantId ev) sourceType name extractedTextKey
         (length text)).

Definition report (w : world) (error : jsstring) : M output :=
  request (SendMessage error) (sendMessage w) ;;; throw error.

(** The handler; [None] is a flattening that has not finished. *)
Definition handler (w : world) (ev : event)
    : option (result output * list call) :=
  match readSource w ev [] with
  | (Throw error, calls) => Some (report w error calls)
  | (Ok (sourceType, sourceId, (Body, ContentType)), calls) =>
      transformed ← transform w sourceType Body ContentType;
      Some (match transformed with
            | Throw error => report w error calls
            | Ok text =>
                try (storeText w ev sourceType sourceId text) (report w) calls
            end)
  end.

End Extractor.

(** ** The processing of a document ([process_document.js]) *)

Module Document.
Import JS Calls.

(** [s.startsWith(p)] *)
Definition startsWith (s p : jsstring) : bool :=
  bool_decide (take (length p) s = p).

(** [s.split(c)[0]] and [s.split(c).slice(1).join(c)], for a character
    that [s] includes. *)
Fixpoint beforeFirst (c : N) (s : jsstring) : jsstring :=
  match s with
  | [] => []
  | x :: s' => if (x =? c)%N then [] else x :: beforeFirst c s'
  end.

Fixpoint afterFirst (c : N) (s : jsstring) : jsstring :=
  match s with
  | [] => []
  | x :: s' => if (x =? c)%N then s' else afterFirst c s'
  end.

(** The fields of the Step Functions event the handler reads. *)
Record event : Type := mkEvent {
  dataSource : option json;
  tenantId : option json
}.

Inductive call : Type :=
| DynamoGet (id : jsstring)
| HeadObject (Bucket Key : jsstring)
| Textract (Bucket Key : jsstring)        (* extractWithTextract *)
| GetObject (Bucket Key : jsstring)
| PutObject (Key Body : jsstring)
| DynamoPut (id : jsstring)
| SendMessage (error : jsstring).

(** What the services answer during one invocation. [parseUrl] is
    [new URL], with the [hostname] and the [pathname] of its result;
    [dynamoGet] gives the [Item] of the document's metadata and [headObject]
    the [ContentType] of the object; [extractWithTextract] is what the
    polling of the Textract job comes to, [None] when it never ends. *)
Record world : Type := mkWorld {
  documentBucket : jsstring;                 (* process.env.DOCUMENT_BUCKET *)
  parseUrl : jsstring -> result (jsstring * jsstring);
  dynamoGet : result (option json);
  headObject : result (option jsstring);
  extractWithTextract : option (result jsstring);
  getObject : result jsstring;
  getTime : Z;
  putObject : result unit;
  dynamoPut : result unit;
  sendMessage : result unit
}.

Record output : Type := mkOutput {
  sourceId : jsstring;
  processedTextKey : jsstring;
  contentType : jsstring;
  extractionMethod : string;
  textLength : nat
}.

(** A method of a value that has to be a string. *)
Definition asString (v : option json) (method : string) (name : string)
    : result jsstring :=
  match v with
  | None =>
      Throw (lit "Cannot read properties of undefined (reading '"
             ++ lit method ++ lit "')")
  | Some JNull =>
      Throw (lit "Cannot read properties of null (reading '"
             ++ lit method ++ lit "')")
  | Some (JStr s) => Ok s
  | Some _ => Throw (lit name ++ lit "." ++ lit method ++ lit " is not a function")
  end.

(** [const { url, name } = dataSource], before the [try]. *)
Definition destructure (source : option json)
    : result (option json * option json) :=
  match source with
  | None =>
      Throw (lit "Cannot destructure property 'url' of 'dataSource' as it is undefined.")
  | Some JNull =>
      Throw (lit "Cannot destructure property 'url' of 'dataSource' as it is null.")
  | Some j =>
      rbind (getProp j "url") (fun url =>
      rbind (getProp j "name") (fun name => Ok (url, name)))
  end.

(** The bucket and the key of the document, by the form of its URL. *)
Definition locate (w : world) (ev : event) (url : option json)
    : M (jsstring * option json) :=
  s <- lift (asString url "startsWith" "url") ;;
  if startsWith s (lit "s3://") then
    (* the first [s3://] of the URL is its start *)
    s3Url <- lift (parseUrl w (lit "https://" ++ drop 5 s)) ;;
    ret (s3Url.1, Some (JStr (drop 1 s3Url.2)))
  else if includesChar 47 s then
    ret (beforeFirst 47 s, Some (JStr (afterFirst 47 s)))
  else
    Item <- request (DynamoGet s) (dynamoGet w) ;;
    if negb (truthyValue Item) then
      tenant <- lift (toStringValue (tenantId ev)) ;;
      throw (lit "Document ID " ++ s ++ lit " not found for tenant " ++ tenant)
    else
      s3Key <- lift (prop Item "s3Key") ;;
      ret (documentBucket w, s3Key).

Definition accessDenied : jsstring :=
  lit "Access denied: Document does not belong to the specified tenant".

(** The check of the tenant's ownership, by the prefix of the key:
    [documentKey.startsWith(`${tenantId}/`)]. *)
Definition authorise (ev : event) (documentKey : option json)
    : M (C := call) jsstring :=
  _ <- lift (match documentKey with
             | None | Some JNull =>
                 asString documentKey "startsWith" "documentKey"
             | Some _ => Ok []
             end) ;;
  tenant <- lift (toStringValue (tenantId ev)) ;;
  key <- lift (asString documentKey "startsWith" "documentKey") ;;
  if negb (startsWith key (tenant ++ lit "/")) then throw accessDenied
  else ret key.

Definition methodOf (contentType : jsstring) : option string :=
  if Extractor.includes contentType (lit "pdf") then Some "pdf"%string
  else if Extractor.includes contentType (lit "image") then Some "image"%string
  else if Extractor.includes contentType (lit "word")
          || Extractor.includes contentType (lit "office")
  then Some "office"%string
  else if Extractor.includes contentType (lit "text")
          || Extractor.includes contentType (lit "markdown")
          || Extractor.includes contentType (lit "json")
  then Some "text"%string
  else None.

(** The [try] block up to the choice of the extraction method. *)
Definition prepare (w : world) (ev : event) (url : option json)
    : M (jsstring * jsstring * jsstring * string) :=
  located <- locate w ev url ;;
  _ <- lift (toStringValue located.2) ;;   (* `Processing document ${...}` *)
  _ <- lift (toStringValue (tenantId ev)) ;;
  documentKey <- authorise ev located.2 ;;
  ContentType <- request (HeadObject located.1 documentKey) (headObject w) ;;
  contentType <-
    lift (match ContentType with
          | Some c => Ok c
          | None =>
              Throw (lit "Cannot read properties of undefined (reading 'includes')")
          end) ;;
  match methodOf contentType with
  | Some method => ret (located.1, documentKey, contentType, method)
  | None => throw (lit "Unsupported document type: " ++ contentType)
  end.

(** The [try] block from the extracted text on. *)
Definition storeDocument (w : world) (ev : event) (name : option json)
    (contentType : jsstring) (method : string) (documentText : jsstring)
    : M output :=
  tenant <- lift (toStringValue (tenantId ev)) ;;
  shownName <- lift (toStringValue name) ;;
  let processedTextKey :=
    tenant ++ lit "/processed-text/" ++ shownName ++ lit "-"
    ++ decimal (getTime w) ++ lit ".txt" in
  request (PutObject processedTextKey documentText) (putObject w) ;;;
  let documentId :=
    lit "document-" ++ shownName ++ lit "-" ++ decimal (getTime w) in
  request (DynamoPut documentId) (dynamoPut w) ;;;
  ret (mkOutput documentId processedTextKey contentType method
         (length documentText)).

Definition report (w : world) (error : jsstring) : M output :=
  request (SendMessage error) (sendMessage w) ;;; throw error.

(** The handler; [None] is a Textract job whose polling never ends. *)
Definition handler (w : world) (ev : event)
    : option (result output * list call) :=
  match destructure (dataSource ev) with
  | Throw error => Some (Throw error, [])
  | Ok (url, name) =>
      match prepare w ev url [] with
      | (Throw error, calls) => Some (report w error calls)
      | (Ok (bucket, documentKey, contentType, method), calls) =>
          if String.eqb method "text" then
            Some (try (documentText <-
                         request (GetObject bucket documentKey) (getObject w) ;;
                       storeDocument w ev name contentType method documentText)
                    (report w) calls)
          else
            extracted ← extractWithTextract w;
            Some (try (documentText <-
                         request (Textract bucket documentKey) extracted ;;
                       storeDocument w ev name contentType method documentText)
                    (report w) calls)
      end
  end.

End Document.

(** ** The links of a page ([rag_crawler.js]) *)

Module Links.
Import JS.

Section Links.

(** [parsedBaseUrl.protocol] and [parsedBaseUrl.origin] of the start URL. *)
Variable protocol origin : jsstring.
(** [new URL(href, new URL(currentUrl)).href]; it throws on what is not a
    URL. *)
Variable resolve : jsstring -> jsstring -> result jsstring.
(** Whether [new URL(url)] returns. *)
Variable parses : jsstring -> bool.

Definition makeAbsoluteUrl (href currentUrl : jsstring) : option jsstring :=
  if negb (truthy href) || Document.startsWith href (lit "#")
     || Document.startsWith href (lit "javascript:")
     || Document.startsWith href (lit "mailto:")
  then None
  else
    let href := Document.beforeFirst 35 href in      (* href.split('#')[0] *)
    if Document.startsWith href (lit "http://")
       || Document.startsWith href (lit "https://")
    then Some href
    else if Document.startsWith href (lit "//") then Some (protocol ++ href)
    else if Document.startsWith href (lit "/") then Some (origin ++ href)
    else
      match resolve href currentUrl with
      | Ok absolute => Some absolute
      | Throw _ => None
      end.

Definition isValidUrl (url : jsstring) : bool :=
  parses url
  && (Document.startsWith url (lit "http://")
      || Document.startsWith url (lit "https://")).

(** The callback of [$('a').each]: the link kept for an [href]. *)
Definition linkOf (currentUrl href : jsstring) : option jsstring :=
  if truthy href then
    match makeAbsoluteUrl href currentUrl with
    | Some absoluteUrl =>
        if truthy absoluteUrl && isValidUrl absoluteUrl
        then Some absoluteUrl else None
    | None => None
    end
  else None.

(** The [links] that [crawlUrl] returns for the [href]s of a page. *)
Definition linksOf (currentUrl : jsstring) (hrefs : list jsstring)
    : list jsstring :=
  Crawler.dedupe ∅ (omap (linkOf currentUrl) hrefs).

End Links.

End Links.

(** ** The storing of the embeddings ([store_embeddings.js]) *)

Module Store.
Import JS Calls.

(** The fields of the Step Functions event the handler reads. *)
Record event : Type := mkEvent {
  tenantId : option json;
  dataSource : option json;
  embeddings : option json
}.

(** A document of a bulk request: its identifier, from the action line,
    and its data line. *)
Record document : Type := mkDocument {
  _id : jsstring;
  embedding : option json;
  text : option json;
  source_url : option json;
  source_name : option json;
  tenant_id : option json;
  chunk_index : option json;
  created_at : jsstring
}.

Inductive call : Type :=
| GetObject (Key : option json)
| HeadIndex (indexName : jsstring)
| CreateIndex (indexName : jsstring) (dimensions : option json)
| Bulk (documents : list document)
| Update (id count : option json)
| SendMessage (error : jsstring).

(** What the [HEAD] request of the index comes to. *)
Inductive indexAnswer : Type :=
| Found
| Missing                           (* rejected with statusCode 404 *)
| Failed (message : jsstring).

(** What the services answer during one invocation. [getObject] is the
    object's body, parsed; [bulk k] is the body, parsed, of the response to
    the request of the batch at position [k]; [dateNow k] is the [k]-th
    reading of [Date.now()]. *)
Record world : Type := mkWorld {
  getObject : result json;
  headIndex : indexAnswer;
  createIndex : result unit;
  bulk : nat -> result json;
  dateNow : nat -> Z;
  toISOString : jsstring;
  update : result unit;
  sendMessage : result unit
}.

Record output : Type := mkOutput {
  outTenantId : option json;
  sourceId : option json;
  sourceName : option json;
  indexName : jsstring;
  vectorCount : option json
}.

(** [v.length] *)
Definition lengthOf (v : json) : result (option json) :=
  match v with
  | JNull => Throw (lit "Cannot read properties of null (reading 'length')")
  | JArr items => Ok (Some (JNum (Z.of_nat (length items))))
  | JStr s => Ok (Some (JNum (Z.of_nat (length s))))
  | JObj fields => Ok (getField fields "length")
  | _ => Ok None
  end.

(** [v[0]] *)
Definition first (v : json) : result (option json) :=
  match v with
  | JNull => Throw (lit "Cannot read properties of null (reading '0')")
  | JArr items => Ok (head items)
  | JStr s => Ok ((fun c => JStr [c]) <$> head s)
  | JObj fields => Ok (getField fields "0")
  | _ => Ok None
  end.

(** [embeddingsData[0].embedding.length] *)
Definition dimensionsOf (embeddingsData : json) : result (option json) :=
  rbind (first embeddingsData) (fun embeddingData =>
  rbind (prop embeddingData "embedding") (fun embedding =>
  match embedding with
  | None =>
      Throw (lit "Cannot read properties of undefined (reading 'length')")
  | Some v => lengthOf v
  end)).

Definition checkIndexExists (w : world) (indexName : jsstring) : M bool :=
  try (fun calls =>
         match headIndex w with
         | Found => (Ok true, calls ++ [HeadIndex indexName])
         | Missing => (Ok false, calls ++ [HeadIndex indexName])
         | Failed message => (Throw message, calls ++ [HeadIndex indexName])
         end)
    (fun error => throw error).

(** The action line and the data line of an embedding: the callback of the
    two [forEach] of [bulkInsertEmbeddings]. [reading] counts the readings
    of the clock made before. *)
Definition documentOf (w : world) (tenantId : option json) (reading index : nat)
    (embeddingData : json) : result document :=
  rbind (toStringValue tenantId) (fun tenant =>
  let docId :=
    tenant ++ lit "-" ++ decimal (dateNow w reading) ++ lit "-"
    ++ decimal (Z.of_nat index) in
  rbind (getProp embeddingData "embedding") (fun embedding =>
  rbind (getProp embeddingData "text") (fun text =>
  rbind (getProp embeddingData "sourceUrl") (fun sourceUrl =>
  rbind (getProp embeddingData "sourceName") (fun sourceName =>
  rbind (getProp embeddingData "chunkIndex") (fun chunkIndex =>
  Ok (mkDocument docId embedding text sourceUrl sourceName tenantId
        chunkIndex (toISOString w)))))))).

Fixpoint documentsFrom (w : world) (tenantId : option json)
    (reading index : nat) (embeddings : list json) : result (list document) :=
  match embeddings with
  | [] => Ok []
  | embeddingData :: rest =>
      rbind (documentOf w tenantId reading index embeddingData) (fun d =>
      rbind (documentsFrom w tenantId (S reading) (S index) rest) (fun ds =>
      Ok (d :: ds)))
  end.

Definition batchSize : nat := 100.

(** [for (let i = 0; i < embeddings.length; i += batchSize)], from [i] on:
    [rest] is [embeddings.slice(i)] and [total] the number of embeddings,
    which is the number of readings of the clock the first loop made. *)
Fixpoint batchesFrom (fuel : nat) (w : world) (tenantId : option json)
    (total i : nat) (rest : list json) : result (list (list document)) :=
  match rest, fuel with
  | [], _ | _, O => Ok []
  | _ :: _, S fuel' =>
      rbind (documentsFrom w tenantId (total + i) i (take batchSize rest))
        (fun batch =>
      rbind (batchesFrom fuel' w tenantId total (i + batchSize)
               (drop batchSize rest)) (fun batches =>
      Ok (batch :: batches)))
  end.

(** The requests of the batches, one after the other. *)
Fixpoint sendBatches (w : world) (k : nat) (batches : list (list document))
    (results : list json) : M (list json) :=
  match batches with
  | [] => ret results
  | batch :: rest =>
      response <- request (Bulk batch) (bulk w k) ;;
      sendBatches w (S k) rest (results ++ [response])
  end.

(** [sum + result.took] throws when [took] has no primitive value. *)
Fixpoint sumTook (results : list json) : result unit :=
  match results with
  | [] => Ok tt
  | r :: rest =>
      rbind (getProp r "took") (fun took =>
      rbind (match took with
             | Some v => rbind (toString v) (fun _ => Ok tt)
             | None => Ok tt
             end) (fun _ => sumTook rest))
  end.

(** [results.some(result => result.errors)] *)
Fixpoint someErrors (results : list json) : result bool :=
  match results with
  | [] => Ok false
  | r :: rest =>
      rbind (getProp r "errors") (fun errors =>
      if truthyValue errors then Ok true else someErrors rest)
  end.

(** [results.flatMap(result => result.items)] *)
Fixpoint allItems (results : list json) : result (list (option json)) :=
  match results with
  | [] => Ok []
  | r :: rest =>
      rbind (getProp r "items") (fun items =>
      rbind (allItems rest) (fun others =>
      Ok (match items with
          | Some (JArr l) => Some <$> l
          | _ => [items]
          end ++ others)))
  end.

Definition bulkInsertEmbeddings (w : world) (embeddings : json)
    (tenantId : option json) : M (bool * list (option json)) :=
  match embeddings with
  | JArr items =>
      _ <- lift (documentsFrom w tenantId 0 0 items) ;;
      batches <- lift (batchesFrom (length items) w tenantId (length items) 0
                         items) ;;
      results <- sendBatches w 0 batches [] ;;
      _ <- lift (sumTook results) ;;
      errors <- lift (someErrors results) ;;
      items <- lift (allItems results) ;;
      ret (errors, items)
  | _ => throw (lit "embeddings.forEach is not a function")
  end.

(** [items.filter(item => item.index && item.index.error)], for what it
    may throw. *)
Fixpoint failedItems (items : list (option json)) : result unit :=
  match items with
  | [] => Ok tt
  | item :: rest =>
      rbind (prop item "index") (fun index =>
      rbind (if truthyValue index then prop index "error" else Ok None)
        (fun _ => failedItems rest))
  end.

Definition noEmbeddings : jsstring := lit "No embeddings information provided".

Definition insertFailed : jsstring := lit "Failed to insert some embeddings".

(** The [try] block. *)
Definition store (w : world) (ev : event) : M output :=
  key <- (if negb (truthyValue (embeddings ev)) then throw noEmbeddings
          else
            key <- lift (prop (embeddings ev) "embeddingsKey") ;;
            if negb (truthyValue key) then throw noEmbeddings else ret key) ;;
  embeddingsData <- request (GetObject key) (getObject w) ;;
  count <- lift (lengthOf embeddingsData) ;;
  _ <- lift (toStringValue count) ;;       (* `Retrieved ${...} embeddings` *)
  tenant <- lift (toStringValue (tenantId ev)) ;;
  let indexName := tenant ++ lit "-vectors" in
  indexExists <- checkIndexExists w indexName ;;
  (if negb indexExists then
     dimensions <- lift (dimensionsOf embeddingsData) ;;
     request (CreateIndex indexName dimensions) (createIndex w)
   else ret tt) ;;;
  bulkResponse <- bulkInsertEmbeddings w embeddingsData (tenantId ev) ;;
  (if bulkResponse.1 then
     _ <- lift (failedItems bulkResponse.2) ;; throw insertFailed
   else ret tt) ;;;
  sourceId <- lift (prop (embeddings ev) "sourceId") ;;
  request (Update sourceId count) (update w) ;;;
  name <- lift (prop (dataSource ev) "name") ;;
  ret (mkOutput (tenantId ev) sourceId name indexName count).

Definition report (w : world) (error : jsstring) : M output :=
  request (SendMessage error) (sendMessage w) ;;; throw error.

Definition handler (w : world) (ev : event) : result output * list call :=
  try (store w ev) (report w) [].

End Store.

(** * Properties *)

(** ** Numbers and their decimal form *)

Module JSFacts.
Import JS.

(** The value of a sequence of decimal digits read after digits worth
    [acc]. *)
Fixpoint uintValue (acc : Z) (d : Decimal.uint) : Z :=
  match d with
  | Decimal.Nil => acc
  | Decimal.D0 l => uintValue (10 * acc + 0) l
  | Decimal.D1 l => uintValue (10 * acc + 1) l
  | Decimal.D2 l => uintValue (10 * acc + 2) l
  | Decimal.D3 l => uintValue (10 * acc + 3) l
  | Decimal.D4 l => uintValue (10 * acc + 4) l
  | Decimal.D5 l => uintValue (10 * acc + 5) l
  | Decimal.D6 l => uintValue (10 * acc + 6) l
  | Decimal.D7 l => uintValue (10 * acc + 7) l
  | Decimal.D8 l => uintValue (10 * acc + 8) l
  | Decimal.D9 l => uintValue (10 * acc + 9) l
  end.

Lemma parseDigits_digits (d : Decimal.uint) :
  forall acc,
    parseDigits (Some acc) (lit (NilEmpty.string_of_uint d))
    = Some (uintValue acc d).
Proof.
  induction d; intros acc; [reflexivity|..]; apply IHd.
Qed.

Lemma parseDigits_first (d : Decimal.uint) :
  d <> Decimal.Nil ->
  parseDigits None (lit (NilEmpty.string_of_uint d)) = Some (uintValue 0 d).
Proof.
  destruct d; intros Hd; [done|..]; apply (parseDigits_digits d).
Qed.

Lemma parseInt10_digits (d : Decimal.uint) :
  d <> Decimal.Nil ->
  parseInt10 (lit (NilEmpty.string_of_uint d)) = Some (uintValue 0 d).
Proof.
  destruct d; intros Hd; [done|..];
    apply (parseDigits_digits d).
Qed.

Lemma of_uint_acc_value (d : Decimal.uint) :
  forall p, Z.pos (Pos.of_uint_acc d p) = uintValue (Z.pos p) d.
Proof.
  induction d; intros p; cbn [Pos.of_uint_acc uintValue]; [reflexivity|..];
    rewrite IHd; f_equal; lia.
Qed.

Lemma of_uint_value (d : Decimal.uint) :
  Z.of_N (Pos.of_uint d) = uintValue 0 d.
Proof.
  induction d; cbn [Pos.of_uint uintValue]; [reflexivity|exact IHd|..];
    cbn [Z.of_N]; apply of_uint_acc_value.
Qed.

Lemma string_of_to_uint (p : positive) :
  NilZero.string_of_uint (Pos.to_uint p)
  = NilEmpty.string_of_uint (Pos.to_uint p).
Proof.
  pose proof (DecimalPos.Unsigned.to_uint_nonnil p).
  by destruct (Pos.to_uint p).
Qed.

Lemma uintValue_to_uint (p : positive) :
  uintValue 0 (Pos.to_uint p) = Z.pos p.
Proof. by rewrite <- of_uint_value, DecimalPos.Unsigned.of_to. Qed.

(** [parseInt] reads a number back from its decimal form. *)
Lemma parseInt10_decimal (z : Z) : parseInt10 (decimal z) = Some z.
Proof.
  pose proof DecimalPos.Unsigned.to_uint_nonnil as Hnil.
  destruct z as [|p|p]; [reflexivity|..];
    unfold decimal; cbn [Z.to_int NilZero.string_of_int];
    rewrite string_of_to_uint.
  - by rewrite parseInt10_digits, uintValue_to_uint.
  - change (lit (String "-" ?s)) with (45%N :: lit s).
    change (parseInt10 (45%N :: ?s)) with (Z.opp <$> parseDigits None s).
    by rewrite parseDigits_first, uintValue_to_uint.
Qed.

(** The string forms of some numbers, as [String] gives them. *)
Example number_forms :
  toString <$> [JNum (-7); JFrac 39 1; JFrac 5 1; JFrac 123456 3;
                JFrac 1 6; JFrac 1 7; JFrac (-15) 8;
                JNum (10 ^ 21); JNum (15 * 10 ^ 20)]
  = Ok <$> [lit "-7"; lit "3.9"; lit "0.5"; lit "123.456";
            lit "0.000001"; lit "1e-7"; lit "-1.5e-7";
            lit "1e+21"; lit "1.5e+21"].
Proof. reflexivity. Qed.

(** What [parseInt] reads in them. *)
Example parseInt10_of_numbers :
  (fun v => rbind (toString v) (fun s => Ok (parseInt10 s)))
    <$> [JFrac 39 1; JFrac 5 1; JFrac 1 7; JNum (10 ^ 21)]
  = Ok <$> [Some 3%Z; Some 0%Z; Some 1%Z; Some 1%Z].
Proof. reflexivity. Qed.

End JSFacts.

(** ** The chunker *)

Module ChunkerFacts.
Import JS Chunker.

Lemma hardSplit_total (maxChunkSize : nat) :
  0 < maxChunkSize ->
  forall fuel remainingSentence out,
    length remainingSentence <= fuel ->
    is_Some (hardSplit fuel maxChunkSize remainingSentence out).
Proof.
  intros Hmax fuel. induction fuel as [|fuel IH]; intros rem out Hlen.
  - destruct rem as [|c rem]; [simpl; eauto|].
    rewrite length_cons in Hlen. lia.
  - destruct rem as [|c rem]; [simpl; eauto|].
    cbn [hardSplit]. apply IH.
    rewrite length_drop, length_cons in *. lia.
Qed.

Lemma sentenceStep_total (maxChunkSize : nat) st sentence :
  0 < maxChunkSize -> is_Some (sentenceStep maxChunkSize st sentence).
Proof.
  intros Hmax. unfold sentenceStep.
  destruct (_ <=? maxChunkSize); [eauto|].
  destruct (maxChunkSize <? length sentence); [|eauto].
  match goal with
  | |- context [hardSplit ?f ?m ?r ?o] =>
      destruct (hardSplit_total m Hmax f r o) as [out ->]; [lia|]
  end.
  simpl. eauto.
Qed.

Lemma sentenceLoop_total (maxChunkSize : nat) sentences :
  0 < maxChunkSize ->
  forall st, is_Some (sentenceLoop maxChunkSize st sentences).
Proof.
  intros Hmax. induction sentences as [|s rest IH]; intros st; simpl; [eauto|].
  destruct (sentenceStep_total maxChunkSize st s Hmax) as [st' ->]. simpl.
  apply IH.
Qed.

Lemma paragraphLoop_total (maxChunkSize : nat) paragraphs :
  0 < maxChunkSize ->
  forall st, is_Some (paragraphLoop maxChunkSize st paragraphs).
Proof.
  intros Hmax. induction paragraphs as [|p rest IH]; intros st; simpl; [eauto|].
  assert (is_Some (paragraphStep maxChunkSize st p)) as [st' ->].
  { unfold paragraphStep. destruct (maxChunkSize <? length p).
    - by apply sentenceLoop_total.
    - destruct (_ <=? maxChunkSize); eauto. }
  simpl. apply IH.
Qed.

(** With a positive limit the chunker returns: its loops end. *)
Lemma splitTextIntoChunks_total (text : jsstring) (maxChunkSize : nat) :
  0 < maxChunkSize -> is_Some (splitTextIntoChunks text maxChunkSize).
Proof.
  intros Hmax. unfold splitTextIntoChunks.
  destruct (paragraphLoop_total maxChunkSize (paragraphsOf text) Hmax
              (mkState [] [])) as [st ->].
  simpl. eauto.
Qed.

(** *** How far a chunk can exceed the limit *)

Lemma dropWhile_length {A} (p : A -> bool) (l : list A) :
  length (dropWhile p l) <= length l.
Proof.
  induction l as [|x l IH]; [done|]. cbn [dropWhile].
  destruct (p x); rewrite ?length_cons; lia.
Qed.

Lemma trim_length (s : jsstring) : length (trim s) <= length s.
Proof.
  unfold trim. rewrite length_rev.
  etrans; [apply dropWhile_length|]. rewrite length_rev.
  apply dropWhile_length.
Qed.

(** Every chunk pushed so far, and the chunk being filled, has at most
    [bound] characters. *)
Definition bounded (bound : nat) (st : state) : Prop :=
  Forall (fun chunk => length chunk <= bound) (chunks st)
  /\ length (currentChunk st) <= bound.

Lemma hardSplit_bounded (maxChunkSize bound fuel : nat) :
  maxChunkSize <= bound ->
  forall remainingSentence out out',
    hardSplit fuel maxChunkSize remainingSentence out = Some out' ->
    Forall (fun chunk => length chunk <= bound) out ->
    Forall (fun chunk => length chunk <= bound) out'.
Proof.
  intros Hbound. induction fuel as [|fuel IH]; intros rem out out' Hsplit Hout.
  - destruct rem; [|discriminate]. by injection Hsplit as <-.
  - destruct rem as [|c rem]; [by injection Hsplit as <-|].
    cbn [hardSplit] in Hsplit. apply IH in Hsplit; [exact Hsplit|].
    apply Forall_app. split; [exact Hout|].
    constructor; [|constructor]. rewrite length_take. lia.
Qed.

Lemma sentenceStep_bounded (maxChunkSize : nat) (st st' : state)
    (sentence : jsstring) :
  sentenceStep maxChunkSize st sentence = Some st' ->
  bounded (maxChunkSize + 1) st -> bounded (maxChunkSize + 1) st'.
Proof.
  unfold sentenceStep. intros Hstep [Hchunks Hcurrent].
  pose proof (trim_length sentence) as Htrim.
  destruct (Nat.leb_spec (length (currentChunk st) + length sentence + 1)
              maxChunkSize) as [Hfits|Hfull].
  - injection Hstep as <-. split; [exact Hchunks|]. cbn [currentChunk].
    rewrite !length_app. change (length (lit ".")) with 1.
    destruct (truthy (currentChunk st)); cbn [length lit]; cbn; lia.
  - assert (bounded (maxChunkSize + 1)
              (if truthy (currentChunk st)
               then mkState (chunks st ++ [currentChunk st]) []
               else st)) as [Hchunks1 Hcurrent1].
    { destruct (truthy (currentChunk st)); [|by split].
      split; cbn; [|lia]. apply Forall_app. split; [exact Hchunks|].
      by constructor. }
    destruct (Nat.ltb_spec maxChunkSize (length sentence)) as [Hlong|Hshort].
    + destruct (hardSplit _ _ _ _) as [out|] eqn:Hsplit; [|discriminate].
      injection Hstep as <-. split; [|exact Hcurrent1].
      apply (hardSplit_bounded maxChunkSize (maxChunkSize + 1) _
               ltac:(lia) _ _ _ Hsplit Hchunks1).
    + injection Hstep as <-. split; [exact Hchunks1|]. cbn [currentChunk].
      rewrite length_app. change (length (lit ".")) with 1. lia.
Qed.

Lemma sentenceLoop_bounded (maxChunkSize : nat) (sentences : list jsstring) :
  forall st st',
    sentenceLoop maxChunkSize st sentences = Some st' ->
    bounded (maxChunkSize + 1) st -> bounded (maxChunkSize + 1) st'.
Proof.
  induction sentences as [|s rest IH]; intros st st' Hloop Hst.
  - by injection Hloop as <-.
  - cbn [sentenceLoop] in Hloop.
    destruct (sentenceStep maxChunkSize st s) as [st1|] eqn:Hstep;
      [|discriminate].
    apply (IH st1 st' Hloop). by apply (sentenceStep_bounded _ st _ s).
Qed.

Lemma paragraphStep_bounded (maxChunkSize : nat) (st st' : state)
    (paragraph : jsstring) :
  paragraphStep maxChunkSize st paragraph = Some st' ->
  bounded (maxChunkSize + 1) st -> bounded (maxChunkSize + 1) st'.
Proof.
  unfold paragraphStep. intros Hstep Hst.
  destruct (Nat.ltb_spec maxChunkSize (length paragraph)) as [Hlong|Hshort];
    [by apply (sentenceLoop_bounded _ _ st st' Hstep)|].
  destruct Hst as [Hchunks Hcurrent].
  destruct (Nat.leb_spec (length (currentChunk st) + length paragraph + 1)
              maxChunkSize) as [Hfits|Hfull]; injection Hstep as <-.
  - split; [exact Hchunks|]. cbn [currentChunk]. rewrite !length_app.
    destruct (truthy (currentChunk st)); cbn; lia.
  - split; cbn; [|lia]. apply Forall_app. split; [exact Hchunks|].
    by constructor.
Qed.

Lemma paragraphLoop_bounded (maxChunkSize : nat) (paragraphs : list jsstring) :
  forall st st',
    paragraphLoop maxChunkSize st paragraphs = Some st' ->
    bounded (maxChunkSize + 1) st -> bounded (maxChunkSize + 1) st'.
Proof.
  induction paragraphs as [|p rest IH]; intros st st' Hloop Hst.
  - by injection Hloop as <-.
  - cbn [paragraphLoop] in Hloop.
    destruct (paragraphStep maxChunkSize st p) as [st1|] eqn:Hstep;
      [|discriminate].
    apply (IH st1 st' Hloop). by apply (paragraphStep_bounded _ st _ p).
Qed.

(** What the code does keep: no chunk has more than [maxChunkSize + 1]
    characters. *)
Lemma chunks_within_one_of_limit (text : jsstring) (maxChunkSize : nat)
    (result : list jsstring) :
  splitTextIntoChunks text maxChunkSize = Some result ->
  Forall (fun chunk => length chunk <= maxChunkSize + 1) result.
Proof.
  unfold splitTextIntoChunks. intros Hsplit.
  destruct (paragraphLoop _ _ _) as [st|] eqn:Hloop; [|discriminate].
  apply paragraphLoop_bounded in Hloop as [Hchunks Hcurrent];
    [|split; cbn; [constructor|lia]].
  cbn in Hsplit. injection Hsplit as <-.
  destruct (truthy (currentChunk st)); [|exact Hchunks].
  apply Forall_app. split; [exact Hchunks|]. by constructor.
Qed.

(** A sentence of exactly 1000 characters at the head of a longer
    paragraph. *)
Definition longSentence : jsstring := replicate 1000 97%N ++ lit ".b".

(** C3, evaluated on the code: on a paragraph whose first sentence has
    exactly [MAX_CHUNK_SIZE] characters the chunker returns a chunk of
    [MAX_CHUNK_SIZE + 1] characters, the sentence with the full stop put back,
    which exceeds the limit. *)
Theorem chunk_longer_than_maxChunkSize :
  splitTextIntoChunks longSentence MAX_CHUNK_SIZE
    = Some [replicate 1000 97%N ++ lit "."; lit "b."]
  /\ length (replicate 1000 97%N ++ lit ".") = MAX_CHUNK_SIZE + 1.
Proof. split; vm_compute; reflexivity. Qed.

(** A paragraph of exactly 1000 characters. *)
Definition fullParagraph : jsstring := replicate 1000 97%N.

(** C4, evaluated on the code: when the first paragraph has exactly
    [MAX_CHUNK_SIZE] characters the paragraph branch pushes the still empty
    current chunk, so the result starts with an empty chunk. *)
Theorem empty_chunk_pushed :
  splitTextIntoChunks fullParagraph MAX_CHUNK_SIZE = Some [[]; fullParagraph].
Proof. vm_compute. reflexivity. Qed.

End ChunkerFacts.

(** ** The text normaliser *)

Module NormalizerFacts.
Import JS Normalizer.

Lemma replaceRuns_no_LF (inRun : bool) (s : jsstring) :
  LF ∉ replaceRuns isWhiteSpace (lit " ") inRun s.
Proof.
  revert inRun. induction s as [|c s IH]; intros inRun; simpl.
  - apply not_elem_of_nil.
  - destruct (isWhiteSpace c) eqn:Hc.
    + destruct inRun; [apply IH|].
      change (lit " " ++ ?l) with (32%N :: l).
      intros [Heq|Hin]%elem_of_cons; [discriminate|]. by apply (IH true).
    + intros [Heq|Hin]%elem_of_cons; [|by apply (IH false)].
      subst c. discriminate.
Qed.

Lemma collapseNewlines_no_LF (s : jsstring) :
  LF ∉ s -> collapseNewlines 0 s = s.
Proof.
  induction s as [|c s IH]; intros Hnot; [reflexivity|].
  apply not_elem_of_cons in Hnot as [Hne Hnot]. simpl.
  destruct (c =? LF)%N eqn:Hc.
  - apply N.eqb_eq in Hc. congruence.
  - simpl. by rewrite IH.
Qed.

(** C5, evaluated on the code: whatever the markup stripper and the unicode
    normaliser are, the whitespace step has already turned every newline into
    a space when the newline step runs, so that step changes nothing and the
    text handed on holds no newline; a run of four newlines between two
    words comes out as one space, not as a paragraph break. *)
Theorem cleanText_keeps_no_paragraph_break
    (cheerioText normalize : jsstring -> jsstring) :
  (forall text, LF ∉ cleanedBeforeNormalize cheerioText text)
  /\ cleanText cheerioText normalize (lit "a" ++ [LF; LF; LF; LF] ++ lit "b")
     = trim (normalize (lit "a b")).
Proof.
  split; [|reflexivity].
  intros text. unfold cleanedBeforeNormalize.
  rewrite collapseNewlines_no_LF; apply replaceRuns_no_LF.
Qed.

End NormalizerFacts.

(** ** The crawler *)

Module CrawlerFacts.
Import JS Crawler.

Lemma endsWith_suffix (s suffix : jsstring) :
  endsWith s suffix = true <-> suffix `suffix_of` s.
Proof.
  unfold endsWith. rewrite bool_decide_eq_true. split.
  - intros Hdrop. exists (take (length s - length suffix) s).
    by rewrite <- Hdrop at 2; rewrite take_drop.
  - intros [prefix ->]. rewrite length_app.
    replace (length prefix + length suffix - length suffix)
      with (length prefix) by lia.
    by rewrite drop_app_length.
Qed.

Lemma dedupe_Forall (P : jsstring -> Prop) (l : list jsstring) :
  Forall P l -> forall seen, Forall P (dedupe seen l).
Proof.
  induction 1 as [|x l Hx _ IH]; intros seen; simpl; [constructor|].
  case_bool_decide; [apply IH|]. constructor; [exact Hx|apply IH].
Qed.

Lemma batches_Forall (P : jsstring -> Prop) (fuel size : nat) :
  forall urls, Forall P urls -> Forall (Forall P) (batches fuel size urls).
Proof.
  induction fuel as [|fuel IH]; intros urls Hall.
  - destruct urls; constructor.
  - destruct urls as [|u urls]; [constructor|].
    cbn [batches]. constructor.
    + by apply Forall_take.
    + apply IH. by apply Forall_drop.
Qed.

Section Crawl.

Variable hostname : jsstring -> option jsstring.
Variable crawlUrl : jsstring -> jsstring * list jsstring.
Variable completionOrder : list jsstring -> list jsstring.
Variable baseUrl domain : jsstring.

(** A URL the crawl may fetch: the start URL, or one of the domain. *)
Definition allowed (u : jsstring) : Prop :=
  u = baseUrl \/ isSameDomain hostname u domain = true.

(** What the loops keep true: the fetched URLs are the visited ones, each
    fetched once and allowed, and the links kept for the next level are all
    of the domain. *)
Record invariant (st : state) : Prop := mkInvariant {
  fetched_once : NoDup (fetched st);
  fetched_visited : forall u, u ∈ fetched st <-> u ∈ visitedUrls st;
  fetched_allowed : Forall allowed (fetched st);
  links_allowed : Forall allowed (newUrlsToCrawl st)
}.

Lemma startBatch_invariant (urlBatch : list jsstring) :
  Forall allowed urlBatch ->
  forall st, invariant st -> invariant (startBatch st urlBatch).1.
Proof.
  induction 1 as [|u urlBatch Hu _ IH]; intros st Hinv; [exact Hinv|].
  cbn [startBatch]. case_bool_decide as Hvisited; [by apply IH|].
  match goal with
  | |- context [startBatch ?st' urlBatch] =>
      specialize (IH st'); destruct (startBatch st' urlBatch) as [st'' started]
  end.
  apply IH. destruct Hinv as [Hnodup Hiff Hfetched Hlinks].
  split; cbn.
  - apply NoDup_app. split; [exact Hnodup|]. split; [|apply NoDup_singleton].
    intros x Hx ->%list_elem_of_singleton. apply Hvisited. by apply Hiff.
  - intros x. rewrite elem_of_app, list_elem_of_singleton, elem_of_union,
      elem_of_singleton, Hiff. tauto.
  - apply Forall_app. split; [exact Hfetched|]. by constructor.
  - exact Hlinks.
Qed.

Lemma addLinks_invariant (links : list jsstring) :
  forall st, invariant st -> invariant (addLinks hostname domain st links).
Proof.
  induction links as [|link links IH]; intros st Hinv; [exact Hinv|].
  cbn [addLinks]. apply IH.
  destruct (negb _ && _) eqn:Hkeep; [|exact Hinv].
  apply andb_true_iff in Hkeep as [_ Hsame].
  destruct Hinv as [Hnodup Hiff Hfetched Hlinks].
  split; cbn; try assumption.
  apply Forall_app. split; [exact Hlinks|]. constructor; [|constructor].
  by right.
Qed.

Lemma finishUrl_invariant (depth crawlDepth : nat) (st : state)
    (urlToCrawl : jsstring) :
  invariant st ->
  invariant (finishUrl hostname crawlUrl domain depth crawlDepth st urlToCrawl).
Proof.
  intros Hinv. unfold finishUrl.
  destruct (crawlUrl urlToCrawl) as [content links].
  match goal with
  | |- context [if depth <? _ then addLinks _ _ ?st1 _ else _] =>
      assert (invariant st1) as Hinv1
  end.
  { destruct (truthy content && _); [|exact Hinv].
    destruct Hinv. by split. }
  destruct (depth <? crawlDepth - 1); [by apply addLinks_invariant|exact Hinv1].
Qed.

Lemma processBatch_invariant (depth crawlDepth : nat) (st : state)
    (urlBatch : list jsstring) :
  Forall allowed urlBatch ->
  invariant st ->
  invariant (processBatch hostname crawlUrl completionOrder domain depth
               crawlDepth st urlBatch).
Proof.
  intros Hbatch Hinv. unfold processBatch.
  pose proof (startBatch_invariant urlBatch Hbatch st Hinv) as Hstart.
  destruct (startBatch st urlBatch) as [st' started]. cbn in Hstart.
  revert st' Hstart.
  induction (completionOrder started) as [|u us IH]; intros st' Hstart;
    [exact Hstart|].
  cbn [foldl]. apply IH. by apply finishUrl_invariant.
Qed.

Lemma crawlLevel_invariant (depth crawlDepth : nat) (st : state)
    (urlsToCrawl : list jsstring) :
  Forall allowed urlsToCrawl ->
  invariant st ->
  invariant (crawlLevel hostname crawlUrl completionOrder domain depth
               crawlDepth st urlsToCrawl).
Proof.
  intros Hurls Hinv. unfold crawlLevel.
  pose proof (batches_Forall allowed (length urlsToCrawl) batchSize
                urlsToCrawl Hurls) as Hbatches.
  match goal with
  | |- invariant (foldl _ ?st0 _) => assert (invariant st0) as Hinv0
  end.
  { destruct Hinv. split; cbn; try assumption. constructor. }
  revert Hinv0. generalize (mkState (visitedUrls st) [] (crawledPages st)
                              (fetched st)).
  induction Hbatches as [|b bs Hb _ IH]; intros st0 Hinv0; [exact Hinv0|].
  cbn [foldl]. apply IH. by apply processBatch_invariant.
Qed.

Lemma crawlLoop_invariant (crawlDepth remaining : nat) :
  forall depth st urlsToCrawl,
    Forall allowed urlsToCrawl ->
    invariant st ->
    invariant (crawlLoop hostname crawlUrl completionOrder domain remaining
                 depth crawlDepth st urlsToCrawl).
Proof.
  induction remaining as [|remaining IH]; intros depth st urls Hurls Hinv;
    [exact Hinv|].
  cbn [crawlLoop].
  pose proof (crawlLevel_invariant depth crawlDepth st urls Hurls Hinv)
    as Hlevel.
  pose proof (dedupe_Forall allowed _ (links_allowed _ Hlevel) ∅) as Hnext.
  destruct (dedupe ∅ _) as [|next rest]; [exact Hlevel|].
  by apply IH.
Qed.

Lemma crawl_invariant (crawlDepth : nat) :
  invariant (crawl hostname crawlUrl completionOrder baseUrl domain crawlDepth).
Proof.
  apply crawlLoop_invariant.
  - constructor; [by left|constructor].
  - split; cbn; [constructor| |constructor|constructor].
    intros url. rewrite elem_of_nil. set_solver.
Qed.

Lemma addLinks_fetched (links : list jsstring) :
  forall st, fetched (addLinks hostname domain st links) = fetched st.
Proof.
  induction links as [|link links IH]; intros st; [reflexivity|].
  cbn [addLinks]. rewrite IH. by destruct (negb _ && _).
Qed.

Lemma finishUrl_fetched (depth crawlDepth : nat) (st : state)
    (urlToCrawl : jsstring) :
  fetched (finishUrl hostname crawlUrl domain depth crawlDepth st urlToCrawl)
  = fetched st.
Proof.
  unfold finishUrl. destruct (crawlUrl urlToCrawl) as [content links].
  destruct (depth <? crawlDepth - 1); rewrite ?addLinks_fetched;
    by destruct (truthy content && _).
Qed.

Lemma finishUrl_no_links (st : state) (urlToCrawl : jsstring) :
  newUrlsToCrawl (finishUrl hostname crawlUrl domain 0 1 st urlToCrawl)
  = newUrlsToCrawl st.
Proof.
  unfold finishUrl. destruct (crawlUrl urlToCrawl) as [content links].
  cbn. by destruct (truthy content && _).
Qed.

(** With [crawlDepth] 1 only the start URL is fetched. *)
Lemma crawl_depth_one :
  fetched (crawl hostname crawlUrl completionOrder baseUrl domain 1)
  = [baseUrl].
Proof.
  unfold crawl. cbn [crawlLoop]. unfold crawlLevel, batchSize.
  cbn [length batches take drop foldl visitedUrls crawledPages fetched].
  unfold processBatch. cbn [startBatch visitedUrls].
  rewrite bool_decide_eq_false_2 by set_solver.
  cbn [newUrlsToCrawl crawledPages fetched app startBatch].
  assert (forall us st,
            fetched st = [baseUrl] -> newUrlsToCrawl st = [] ->
            let st' := foldl (finishUrl hostname crawlUrl domain 0 1) st us in
            fetched st' = [baseUrl] /\ newUrlsToCrawl st' = []) as Hfold.
  { induction us as [|u us IH]; intros st Hf Hn; [by split|].
    cbn [foldl]. apply IH.
    - by rewrite finishUrl_fetched.
    - by rewrite finishUrl_no_links. }
  match goal with
  | |- context [foldl _ ?st ?us] =>
      destruct (Hfold us st eq_refl eq_refl) as [Hf Hn]
  end.
  rewrite Hn. cbn [dedupe]. exact Hf.
Qed.

End Crawl.

Lemma isSameDomain_hostname (hostname : jsstring -> option jsstring)
    (url domain : jsstring) :
  isSameDomain hostname url domain = true <->
  exists urlDomain,
    hostname url = Some urlDomain
    /\ (urlDomain = domain \/ (lit "." ++ domain) `suffix_of` urlDomain).
Proof.
  unfold isSameDomain. destruct (hostname url) as [h|].
  - rewrite orb_true_iff, bool_decide_eq_true, endsWith_suffix. split.
    + intros H. by exists h.
    + by intros (h' & [= <-] & H).
  - split; [discriminate|]. by intros (h & [=] & _).
Qed.

(** Whatever the pages link to and in whatever order the fetches of a
    batch complete, for every depth the crawl calls [crawlUrl] at most once
    for a string, and every URL it fetches other than the start URL has a
    hostname that is the start URL's domain or ends with a dot followed by
    that domain. *)
Theorem crawl_fetches_once_within_domain
    (hostname : jsstring -> option jsstring)
    (crawlUrl : jsstring -> jsstring * list jsstring)
    (completionOrder : list jsstring -> list jsstring)
    (baseUrl domain : jsstring) (crawlDepth : nat) :
  let st := crawl hostname crawlUrl completionOrder baseUrl domain crawlDepth in
  NoDup (fetched st)
  /\ forall url,
       url ∈ fetched st ->
       url = baseUrl
       \/ exists urlDomain,
            hostname url = Some urlDomain
            /\ (urlDomain = domain
                \/ (lit "." ++ domain) `suffix_of` urlDomain).
Proof.
  cbn zeta.
  destruct (crawl_invariant hostname crawlUrl completionOrder baseUrl domain
              crawlDepth) as [Hnodup _ Hallowed _].
  split; [exact Hnodup|].
  intros url Hin. rewrite Forall_forall in Hallowed.
  destruct (Hallowed url Hin) as [->|Hsame]; [by left|right].
  by apply isSameDomain_hostname.
Qed.

(** *** Two spellings of one URL

    A site with one page, [https://a.test/], whose text holds a link to the
    home page, [<a href="/">]. [new URL] reads the address with and without
    the slash alike. *)
Definition siteLocation (url : jsstring) : option location :=
  if bool_decide (url = lit "https://a.test")
     || bool_decide (url = lit "https://a.test/")
  then Some (mkLocation (lit "https://a.test") (lit "/") [])
  else None.

Definition siteHostname (url : jsstring) : option jsstring :=
  (fun _ => lit "a.test") <$> siteLocation url.

Definition sitePage (url : jsstring) : jsstring * list jsstring :=
  (lit "# Home",
   Links.linksOf (lit "https:") (lit "https://a.test")
     (fun _ _ => Throw (lit "Invalid URL"))
     (fun link => bool_decide (is_Some (siteLocation link)))
     url [lit "/"]).

(** C6 fails on the code: the handler normalises the URL of the data
    source, dropping its last slash, and compares the links it follows as
    they are written; on the site above, crawled to depth 2, the home page
    is fetched at [https://a.test] and again at [https://a.test/], which
    [normalizeUrl] makes the same URL, and is stored twice. *)
Theorem start_page_is_fetched_twice :
  let baseUrl := normalizeUrl siteLocation (lit "https://a.test/") in
  let st := crawl siteHostname sitePage id baseUrl (lit "a.test") 2 in
  fetched st = [lit "https://a.test"; lit "https://a.test/"]
  /\ normalizeUrl siteLocation <$> fetched st = [baseUrl; baseUrl]
  /\ crawledPages st
     = [mkPage (lit "https://a.test") (lit "# Home");
        mkPage (lit "https://a.test/") (lit "# Home")].
Proof. vm_compute. by repeat split. Qed.

End CrawlerFacts.

(** ** The input validator *)

Module ValidateFacts.
Import JS Validate.

(** [decides m b]: the step [m] leaves [errors] as it is and returns when
    [b] holds, and otherwise throws or adds at least one message; it never
    removes one. *)
Definition decides (m : M unit) (b : bool) : Prop :=
  forall errors,
    if b then m errors = (Ok tt, errors)
    else exists r extra,
        m errors = (r, errors ++ extra)
        /\ (forall u, r = Ok u -> extra <> []).

Lemma decides_ret : decides (ret tt) true.
Proof. intros errors. reflexivity. Qed.

Lemma decides_push (message : jsstring) : decides (push message) false.
Proof.
  intros errors. exists (Ok tt), [message]. split; [reflexivity|]. done.
Qed.

Lemma decides_shown_push (r : result jsstring) (f : jsstring -> jsstring) :
  decides (shown <- lift r ;; push (f shown)) false.
Proof.
  intros errors. destruct r as [shown|message].
  - exists (Ok tt), [f shown]. split; [reflexivity|]. done.
  - exists (Throw message), []. rewrite app_nil_r.
    split; [reflexivity|]. discriminate.
Qed.

Lemma decides_seq (m1 m2 : M unit) (b1 b2 : bool) :
  decides m1 b1 -> decides m2 b2 -> decides (m1 ;;; m2) (b1 && b2).
Proof.
  intros H1 H2 errors. specialize (H1 errors). unfold bind.
  destruct b1; cbn [andb].
  - rewrite H1. apply H2.
  - destruct H1 as (r & extra & -> & Hextra).
    destruct r as [[]|message].
    + specialize (H2 (errors ++ extra)). destruct b2.
      * rewrite H2. exists (Ok tt), extra. split; [reflexivity|]. eauto.
      * destruct H2 as (r2 & extra2 & -> & _).
        exists r2, (extra ++ extra2). rewrite app_assoc.
        split; [reflexivity|]. intros u _ Hnil.
        apply app_eq_nil in Hnil as [Hnil _]. by apply (Hextra tt).
    + exists (Throw message), extra. split; [reflexivity|]. discriminate.
Qed.

Lemma decides_eq (m : M unit) (b b' : bool) :
  b = b' -> decides m b -> decides m b'.
Proof. by intros ->. Qed.

(** A step that decides [b], run on no error yet. *)
Lemma decides_run (m : M unit) (b : bool) :
  decides m b ->
  match m [] with
  | (Ok _, errors) => (length errors =? 0) = b /\ (b = true -> errors = [])
  | (Throw _, _) => b = false
  end.
Proof.
  intros H. specialize (H []). destruct b.
  - rewrite H. done.
  - destruct H as (r & extra & -> & Hextra). destruct r as [u|]; [|done].
    specialize (Hextra u eq_refl). destruct extra; [done|]. done.
Qed.

Lemma decides_lift {A} (v : A) (k : A -> M unit) (b : bool) :
  decides (k v) b -> decides (x <- lift (Ok v) ;; k x) b.
Proof. intros H errors. apply H. Qed.

Lemma decides_required (v : option json) (message : jsstring) :
  decides (if negb (truthyValue v) then push message else ret tt)
    (truthyValue v).
Proof.
  destruct (truthyValue v); [apply decides_ret|apply decides_push].
Qed.

Lemma decides_type (v : option json) (missing : jsstring)
    (invalid : jsstring -> jsstring) :
  decides
    (if negb (truthyValue v) then push missing
     else if negb (isSourceType v) then
       shown <- lift (toStringValue v) ;; push (invalid shown)
     else ret tt)
    (truthyValue v && isSourceType v).
Proof.
  destruct (truthyValue v); [|apply decides_push].
  destruct (isSourceType v); [apply decides_ret|apply decides_shown_push].
Qed.

Lemma checkSource_decides (index : nat) (source : json) :
  decides (checkSource index source) (negb (Spec.badSource source)).
Proof.
  unfold checkSource, Spec.badSource.
  destruct source as [|b|z|m e|s|l|fields]; cbn [getProp Spec.field].
  { intros errors. eexists (Throw _), []. rewrite app_nil_r.
    split; [reflexivity|discriminate]. }
  all: apply decides_lift;
    (eapply decides_eq;
     [|apply decides_seq;
       [apply decides_type
       |apply decides_lift, decides_seq;
        [apply decides_required
        |apply decides_lift, decides_required]]]).
  all: repeat match goal with
         | |- context [truthyValue ?v] => destruct (truthyValue v)
         | |- context [isSourceType ?v] => destruct (isSourceType v)
         end; reflexivity.
Qed.

Lemma checkSources_decides (sources : list json) :
  forall index,
    decides (checkSources index sources)
      (negb (existsb Spec.badSource sources)).
Proof.
  induction sources as [|source rest IH]; intros index; [apply decides_ret|].
  cbn [checkSources existsb]. rewrite negb_orb.
  apply decides_seq; [apply checkSource_decides|apply IH].
Qed.

Lemma checkDataSources_decides (ev : event) :
  decides (checkDataSources ev)
    (negb (Spec.dataSourcesMissing ev) && negb (Spec.someBadSource ev)).
Proof.
  unfold checkDataSources, Spec.dataSourcesMissing, Spec.someBadSource.
  destruct (dataSources ev) as [[| | | | |[|source rest]|]|];
    try apply decides_push.
  apply (checkSources_decides (source :: rest)).
Qed.

(** What a bound check lets through: a value whose string form [parseInt]
    reads as an integer within the bounds. *)
Definition parsesWithin (v : json) (lo hi : Z) : bool :=
  match toString v with
  | Ok shown =>
      match parseInt10 shown with
      | Some n => (lo <=? n)%Z && (n <=? hi)%Z
      | None => false
      end
  | Throw _ => false
  end.

(** A setting that is supplied and not let through. *)
Definition refused (cfg : option json) (key : string) (lo hi : Z) : bool :=
  match cfg with
  | Some (JObj fields) =>
      match getField fields key with
      | Some v => negb (parsesWithin v lo hi)
      | None => false
      end
  | _ => false
  end.

Lemma checkBound_decides (fields : list (string * json)) (key : string)
    (lo hi : Z) (message : jsstring) :
  decides (checkBound (JObj fields) key lo hi message)
    (negb (refused (Some (JObj fields)) key lo hi)).
Proof.
  unfold checkBound, refused, parsesWithin. cbn [getProp].
  apply decides_lift.
  destruct (getField fields key) as [v|]; [|apply decides_ret].
  destruct (toString v) as [shown|e].
  - apply decides_lift. destruct (parseInt10 shown) as [n|];
      [|apply decides_push].
    rewrite negb_involutive.
    destruct (Z.ltb_spec n lo), (Z.ltb_spec hi n), (Z.leb_spec lo n),
      (Z.leb_spec n hi); try lia; cbn; try apply decides_ret;
      apply decides_push.
  - intros errors. eexists (Throw _), []. rewrite app_nil_r.
    split; [reflexivity|discriminate].
Qed.

(** An integer that is printed with all its digits is let through exactly
    when it is within the bounds. *)
Lemma refused_integer (fields : list (string * json)) (key : string)
    (lo hi : Z) :
  Spec.isInteger (getField fields key) = true ->
  refused (Some (JObj fields)) key lo hi
  = Spec.outOfRange (Some (JObj fields)) key lo hi.
Proof.
  unfold refused, Spec.outOfRange, parsesWithin.
  destruct (getField fields key) as [[| |z| | | |]|]; try discriminate;
    [|reflexivity].
  cbn [Spec.isInteger toString Spec.outside]. unfold integerToString.
  intros ->. rewrite JSFacts.parseInt10_decimal.
  destruct (Z.ltb_spec z lo), (Z.ltb_spec hi z), (Z.leb_spec lo z),
    (Z.leb_spec z hi); try lia; reflexivity.
Qed.

Lemma checkBound_array (items : list json) (key : string) (lo hi : Z)
    (message : jsstring) :
  decides (checkBound (JArr items) key lo hi message) true.
Proof. intros errors. reflexivity. Qed.

Lemma checkConfig_decides (ev : event) :
  decides (checkConfig ev)
    (negb (Spec.configMissing ev)
     && negb (refused (config ev) "crawlDepth" 1 3)
     && negb (refused (config ev) "memoryDuration" 5 1440)
     && negb (refused (config ev) "maxDocuments" 1 20)
     && negb (Spec.badEmbeddingModel ev)).
Proof.
  unfold checkConfig, Spec.configMissing, Spec.badEmbeddingModel.
  destruct (config ev) as [[|b|z|m e|s|items|fields]|]; cbn [truthyValue isObject
    truthyJson negb orb andb]; try apply decides_push.
  - destruct b; apply decides_push.
  - destruct (negb (z =? 0)%Z); apply decides_push.
  - destruct (negb (m =? 0)%Z); apply decides_push.
  - destruct (truthy s); apply decides_push.
  - intros errors. reflexivity.
  - eapply decides_eq;
      [|apply decides_seq; [apply checkBound_decides|];
        apply decides_seq; [apply checkBound_decides|];
        apply decides_seq; [apply checkBound_decides|]].
    2: { cbn [getProp]. apply decides_lift.
         instantiate (1 := negb (truthyValue (getField fields "embeddingModel")
                                 && negb (isString (getField fields "embeddingModel")))).
         destruct (truthyValue _ && negb _);
           [apply decides_push|apply decides_ret]. }
    by rewrite !andb_assoc.
Qed.

Lemma checkTenant_decides (dynamoGet : option json -> tenantResult)
    (ev : event) :
  decides (checkTenant dynamoGet ev)
    (negb (Spec.tenantMissing dynamoGet ev)
     && negb (Spec.lookupRejected dynamoGet ev)).
Proof.
  unfold checkTenant, Spec.tenantMissing, Spec.lookupRejected.
  destruct (truthyValue (tenantId ev)); cbn [negb orb andb];
    [|apply decides_push].
  destruct (dynamoGet (tenantId ev)); cbn [negb andb].
  - apply decides_ret.
  - destruct (toStringValue (tenantId ev)); apply decides_push.
  - apply decides_push.
Qed.

(** Case analysis on every rejection condition in the goal. *)
Ltac rejection_cases dynamoGet ev :=
  destruct (Spec.tenantMissing dynamoGet ev),
    (Spec.lookupRejected dynamoGet ev),
    (Spec.dataSourcesMissing ev), (Spec.someBadSource ev),
    (Spec.configMissing ev),
    (refused (config ev) "crawlDepth" 1 3),
    (refused (config ev) "memoryDuration" 5 1440),
    (refused (config ev) "maxDocuments" 1 20),
    (Spec.badEmbeddingModel ev);
  try reflexivity; try discriminate.

(** What the handler accepts, on every input. *)
Lemma handler_accepts (dynamoGet : option json -> tenantResult) (ev : event) :
  isValid (handler dynamoGet ev)
  = negb (Spec.tenantMissing dynamoGet ev || Spec.lookupRejected dynamoGet ev
          || Spec.dataSourcesMissing ev || Spec.someBadSource ev
          || Spec.configMissing ev
          || refused (config ev) "crawlDepth" 1 3
          || refused (config ev) "memoryDuration" 5 1440
          || refused (config ev) "maxDocuments" 1 20
          || Spec.badEmbeddingModel ev)
  /\ (isValid (handler dynamoGet ev) = true -> errors (handler dynamoGet ev) = []).
Proof.
  pose proof (decides_run _ _
    (decides_seq _ _ _ _ (checkTenant_decides dynamoGet ev)
       (decides_seq _ _ _ _ (checkDataSources_decides ev)
          (checkConfig_decides ev)))) as Hrun.
  unfold handler.
  destruct ((checkTenant dynamoGet ev;;; checkDataSources ev;;; checkConfig ev) [])
    as [[[]|message] errs]; cbn [isValid errors].
  - destruct Hrun as [Hlen Hnil]. rewrite Hlen. split; [|exact Hnil].
    clear. rejection_cases dynamoGet ev.
  - split; [|discriminate]. revert Hrun. clear. rejection_cases dynamoGet ev.
Qed.

(** What the handler accepts when the bounded settings are integers. *)
Lemma handler_isValid (dynamoGet : option json -> tenantResult) (ev : event) :
  Spec.integerSettings ev = true ->
  isValid (handler dynamoGet ev)
  = negb (Spec.rejects dynamoGet ev || Spec.lookupRejected dynamoGet ev
          || Spec.badEmbeddingModel ev)
  /\ (isValid (handler dynamoGet ev) = true -> errors (handler dynamoGet ev) = []).
Proof.
  intros Hintegers.
  destruct (handler_accepts dynamoGet ev) as [Hvalid Herrors].
  split; [|exact Herrors]. rewrite Hvalid. clear Hvalid Herrors.
  assert (refused (config ev) "crawlDepth" 1 3
          = Spec.outOfRange (config ev) "crawlDepth" 1 3
          /\ refused (config ev) "memoryDuration" 5 1440
            = Spec.outOfRange (config ev) "memoryDuration" 5 1440
          /\ refused (config ev) "maxDocuments" 1 20
            = Spec.outOfRange (config ev) "maxDocuments" 1 20)
    as (-> & -> & ->).
  { unfold Spec.integerSettings in Hintegers.
    destruct (config ev) as [[| | | | | |fields]|]; try by repeat split.
    apply andb_true_iff in Hintegers as [Hintegers HmaxDocuments].
    apply andb_true_iff in Hintegers as [HcrawlDepth HmemoryDuration].
    by rewrite !refused_integer. }
  unfold Spec.rejects.
  destruct (Spec.tenantMissing dynamoGet ev),
    (Spec.lookupRejected dynamoGet ev),
    (Spec.dataSourcesMissing ev), (Spec.someBadSource ev),
    (Spec.configMissing ev),
    (Spec.outOfRange (config ev) "crawlDepth" 1 3),
    (Spec.outOfRange (config ev) "memoryDuration" 5 1440),
    (Spec.outOfRange (config ev) "maxDocuments" 1 20),
    (Spec.badEmbeddingModel ev); reflexivity.
Qed.

(** The claim as the specification words it: the inputs rejected are
    exactly those of its list. *)
Definition rejectsExactlyTheListed : Prop :=
  forall dynamoGet ev,
    isValid (handler dynamoGet ev) = false <-> Spec.rejects dynamoGet ev = true.

(** A well-formed input whose embedding model is a number. *)
Definition docs : json :=
  JObj [("type", JStr (lit "website"));
        ("url", JStr (lit "https://example.com"));
        ("name", JStr (lit "Docs"))].

Definition numericModel : event :=
  mkEvent (Some (JStr (lit "tenant-1"))) (Some (JArr [docs]))
    (Some (JObj [("crawlDepth", JNum 1); ("embeddingModel", JNum 42)])).

Definition knownTenant (tenantId : option json) : tenantResult :=
  Item (JObj [("id", JStr (lit "tenant-config"))]).

(** C2 as stated fails: an input that meets none of the listed conditions
    is still rejected when its [embeddingModel] is not a string. *)
Lemma embeddingModel_rejected : ¬ rejectsExactlyTheListed.
Proof.
  intros Hclaim.
  destruct (Hclaim knownTenant numericModel) as [Hrejects _].
  specialize (Hrejects eq_refl). vm_compute in Hrejects. discriminate.
Qed.

(** C2, amended: on an input whose [crawlDepth], [memoryDuration] and
    [maxDocuments], where supplied, are integers, the validator returns
    [isValid = false] exactly when the tenant is missing or has no record,
    or the data sources are missing or empty, or one of them lacks [type],
    [url] or [name] or has a type other than the three, or the
    configuration is missing, or a supplied [crawlDepth], [memoryDuration]
    or [maxDocuments] is outside its bounds, or the lookup of the tenant
    fails, or an [embeddingModel] is supplied that is not a string; every
    other such input is accepted, with an empty list of errors. *)
Theorem validation_rejects_exactly (dynamoGet : option json -> tenantResult)
    (ev : event) :
  Spec.integerSettings ev = true ->
  (isValid (handler dynamoGet ev) = false <->
   Spec.rejects dynamoGet ev = true
   \/ Spec.lookupRejected dynamoGet ev = true
   \/ Spec.badEmbeddingModel ev = true)
  /\ (isValid (handler dynamoGet ev) = false
      \/ isValid (handler dynamoGet ev) = true
         /\ errors (handler dynamoGet ev) = []).
Proof.
  intros Hintegers.
  destruct (handler_isValid dynamoGet ev Hintegers) as [Hvalid Herrors].
  split.
  - rewrite Hvalid, negb_false_iff, !orb_true_iff. tauto.
  - destruct (isValid (handler dynamoGet ev)); auto.
Qed.

(** An input with the three settings at their upper bounds, and the same
    with [maxDocuments] one above. *)
Definition withSettings (crawlDepth memoryDuration maxDocuments : json)
    : event :=
  mkEvent (Some (JStr (lit "tenant-1"))) (Some (JArr [docs]))
    (Some (JObj [("crawlDepth", crawlDepth);
                 ("memoryDuration", memoryDuration);
                 ("maxDocuments", maxDocuments)])).

Lemma validation_rejects_exactly_witness :
  Spec.integerSettings (withSettings (JNum 3) (JNum 1440) (JNum 21)) = true
  /\ isValid (handler knownTenant
                (withSettings (JNum 3) (JNum 1440) (JNum 21))) = false
  /\ Spec.outOfRange
       (config (withSettings (JNum 3) (JNum 1440) (JNum 21)))
       "maxDocuments" 1 20 = true
  /\ isValid (handler knownTenant
                (withSettings (JNum 3) (JNum 1440) (JNum 20))) = true.
Proof.
  assert (Spec.integerSettings (withSettings (JNum 3) (JNum 1440) (JNum 21))
          = true) as Hintegers by reflexivity.
  split; [exact Hintegers|].
  destruct (validation_rejects_exactly knownTenant _ Hintegers)
    as [[_ Hrejected] _].
  split; [|split; reflexivity].
  apply Hrejected. left. reflexivity.
Defined.

(** Outside those inputs the bounds are not tested on the setting itself
    but on what [parseInt] reads in its string form, the digits before the
    first character that is none: a depth of 3.9, of 10^21 (printed
    [1e+21]) or of ["2 levels"] is accepted, against the error message of
    the check, [must be a number between 1 and 3]. *)
Lemma setting_is_judged_by_its_first_digits :
  Forall
    (fun crawlDepth =>
       Spec.outOfRange
         (config (withSettings crawlDepth (JNum 5) (JNum 1))) "crawlDepth" 1 3
       = true
       /\ isValid (handler knownTenant
                     (withSettings crawlDepth (JNum 5) (JNum 1))) = true)
    [JFrac 39 1; JNum (10 ^ 21); JStr (lit "2 levels")].
Proof. repeat constructor. Qed.

End ValidateFacts.

(** ** The state machine *)

Module PipelineFacts.
Import JS Pipeline.

Section Settle.

Context {St : Type}.
Variable invokeAt : St -> resource -> list (string * string) -> nat
                    -> taskOutcome.

Lemma attempts_single (s : St) (Resource : resource)
    (Params : list (string * string)) (r : retrier) (fuel : nat) :
  forall count attempt,
    MaxAttempts r - count < fuel ->
    is_Some (attempts invokeAt fuel s Resource Params [r] [count] attempt).
Proof.
  induction fuel as [|fuel IH]; intros count attempt Hfuel; [lia|].
  cbn [attempts]. destruct (invokeAt s Resource Params attempt); [eauto|].
  cbn [findRetrier]. destruct (errorMatches (ErrorEquals r) error); [|eauto].
  change ([count] !!! 0) with count.
  destruct (Nat.ltb_spec count (MaxAttempts r)); [|eauto].
  apply IH. lia.
Qed.

(** A Task with the retrier of the pipeline settles: it returns, or raises
    an error once its retries are used up. *)
Lemma settle_retryOn (s : St) (Resource : resource)
    (Params : list (string * string)) (errors : list string) :
  is_Some (settle invokeAt s Resource Params (retryOn errors)).
Proof. apply attempts_single. cbn. lia. Qed.

Lemma settle_no_retry (s : St) (Resource : resource)
    (Params : list (string * string)) :
  settle invokeAt s Resource Params [] = Some (invokeAt s Resource Params 0).
Proof.
  unfold settle. cbn. by destruct (invokeAt s Resource Params 0).
Qed.

End Settle.

(** An execution depends on the invocations through their outcomes only. *)
Section Extensionality.

Context {St : Type}.
Variable definition : St -> stateDef St.
Variable invokeAt invokeAt' : St -> resource -> list (string * string) -> nat
                              -> taskOutcome.
Variable valueAt : path -> option json.
Variable iterationError : option string.
Hypothesis same_outcomes :
  forall s Resource Params attempt,
    invokeAt' s Resource Params attempt = invokeAt s Resource Params attempt.

Lemma attempts_ext (s : St) (Resource : resource)
    (Params : list (string * string)) (Retry : list retrier) (fuel : nat) :
  forall counts attempt,
    attempts invokeAt' fuel s Resource Params Retry counts attempt
    = attempts invokeAt fuel s Resource Params Retry counts attempt.
Proof.
  induction fuel as [|fuel IH]; intros counts attempt; [reflexivity|].
  cbn [attempts]. rewrite same_outcomes.
  destruct (invokeAt s Resource Params attempt); [reflexivity|].
  destruct (findRetrier Retry error 0) as [[i r]|]; [|reflexivity].
  destruct (counts !!! i <? MaxAttempts r); [apply IH|reflexivity].
Qed.

Lemma run_ext (fuel : nat) :
  forall s entered,
    run definition invokeAt' valueAt iterationError fuel s entered
    = run definition invokeAt valueAt iterationError fuel s entered.
Proof.
  induction fuel as [|fuel IH]; intros s entered; [reflexivity|].
  cbn [run]. unfold settle.
  destruct (definition s) as [Resource Params Retry Catch Next| | |].
  - rewrite attempts_ext.
    destruct (attempts invokeAt _ s Resource Params Retry _ 0) as [[|error]|];
      [destruct Next| |]; try reflexivity; [apply IH|].
    destruct (findCatcher Catch error); [apply IH|reflexivity].
  - destruct (valueAt VariablePath); [apply IH|reflexivity].
  - reflexivity.
  - destruct iterationError; [reflexivity|apply IH].
Qed.

End Extensionality.

(** The error handler returns whatever its service calls do. *)
Lemma handler_returns (w : ErrorHandler.world) (error message : option jsstring) :
  exists handled, ErrorHandler.handler w error message = Ok handled.
Proof.
  unfold ErrorHandler.handler.
  match goal with |- context [tryCatch ?body] => destruct body end;
    cbn [tryCatch]; eauto.
Qed.

Lemma invoke_handler (e : env) (p : place) (Params : list (string * string))
    (attempt : nat) :
  invoke e p ErrorHandlerFunctionArn Params attempt = Returned.
Proof.
  unfold invoke.
  by destruct (handler_returns (handlerWorld e p attempt)
                 (parameter Params "error") (parameter Params "message"))
    as [handled ->].
Qed.

Lemma findCatcher_catchAll {St} (next : St) (error : string) :
  findCatcher (catchAll next) error = Some next.
Proof. reflexivity. Qed.

(** The first state of a source's sub-pipeline, by its type. *)
Definition fetchState (source : json) : option iterState :=
  match sourceType source with
  | Some (JStr s) =>
      if bool_decide (s = lit "website") then Some CrawlWebsite
      else if bool_decide (s = lit "api") then Some FetchFromApi
      else if bool_decide (s = lit "document") then Some ProcessDocument
      else None
  | _ => None
  end.

(** The stages of a source's sub-pipeline. *)
Definition stagesFrom (fetch : iterState) : list iterState :=
  [fetch; ExtractText; GenerateEmbeddings; StoreEmbeddings].

(** How the Task of a stage settles for the source at [index]: what it
    gives once its retries are used up. *)
Definition stageSettles (e : env) (index : nat) (s : iterState)
    : option taskOutcome :=
  match iterator s with
  | Task Resource Params Retry _ _ =>
      settle (fun s => invoke e (AtSource index s)) s Resource Params Retry
  | _ => None
  end.

Definition stageReturns (e : env) (index : nat) (s : iterState) : Prop :=
  stageSettles e index s = Some Returned.

Definition stageFails (e : env) (index : nat) (s : iterState) : Prop :=
  exists error, stageSettles e index s = Some (Raised error).

(** The two ways a source's branch ends: in [SourceProcessingSucceeded] with
    the status [succeeded], or in [SourceProcessingFailed] with the status
    [failed]. *)
Definition branchSucceeded (b : execution iterState) : Prop :=
  exists entered,
    b = mkExecution (entered ++ [SourceProcessingSucceeded])
          (Succeeded (Some "succeeded")).

Definition branchFailed (b : execution iterState) : Prop :=
  exists entered,
    b = mkExecution (entered ++ [SourceProcessingFailed])
          (Succeeded (Some "failed")).

(** The states in which a failure of a tenant-level step is recorded. *)
Definition recordsFailure (s : topState) : Prop :=
  s = MemoryConfigError \/ s = MetadataError \/ s = ScheduleError.

#[local] Instance recordsFailure_dec (s : topState) : Decision (recordsFailure s).
Proof. unfold recordsFailure. apply _. Defined.

(** The states a run goes through when its input is valid, the recording
    of failed tenant-level steps left out. *)
Definition completedRun : list topState :=
  [ValidateInput; CheckValidationResult; ProcessDataSources;
   ConfigureMemoryDuration; UpdateMetadata; ScheduleNextCrawl;
   AnalyzeResults; NotifyCompletion].

Lemma run_S {St} (definition : St -> stateDef St) invokeAt valueAt
    iterationError (fuel : nat) (s : St) (entered : list St) :
  run definition invokeAt valueAt iterationError (S fuel) s entered
  = match definition s with
    | Pass status => mkExecution (entered ++ [s]) (Succeeded (Some status))
    | Choice VariablePath Choices Default =>
        match valueAt VariablePath with
        | None => mkExecution (entered ++ [s]) (Failed "States.Runtime")
        | Some v =>
            run definition invokeAt valueAt iterationError fuel
              (choose Choices Default v) (entered ++ [s])
        end
    | Task Resource Params Retry Catch Next =>
        match settle invokeAt s Resource Params Retry with
        | None => mkExecution (entered ++ [s]) Unfinished
        | Some Returned =>
            match Next with
            | Some s' =>
                run definition invokeAt valueAt iterationError fuel s'
                  (entered ++ [s])
            | None => mkExecution (entered ++ [s]) (Succeeded None)
            end
        | Some (Raised error) =>
            match findCatcher Catch error with
            | Some s' =>
                run definition invokeAt valueAt iterationError fuel s'
                  (entered ++ [s])
            | None => mkExecution (entered ++ [s]) (Failed error)
            end
        end
    | Map Next =>
        match iterationError with
        | None =>
            run definition invokeAt valueAt iterationError fuel Next
              (entered ++ [s])
        | Some error => mkExecution (entered ++ [s]) (Failed error)
        end
    end.
Proof. reflexivity. Qed.

(** Enter the next state of an execution. *)
Ltac enter := rewrite run_S; cbn [iterator machine errorTask].

(** Settle the Task the execution is at, in both ways. *)
Ltac settle_task :=
  match goal with
  | |- context [settle ?inv ?s ?res ?params (retryOn ?errors)] =>
      let o := fresh "o" in
      let Ho := fresh "Ho" in
      destruct (settle_retryOn inv s res params errors) as [o Ho];
      rewrite Ho; destruct o as [|?error]
  end.

(** Follow a raised error through its catcher and the error handler. *)
Ltac handle_error :=
  rewrite findCatcher_catchAll; enter;
  rewrite settle_no_retry, invoke_handler; enter.

(** A branch from its first stage on. *)
Lemma run_stages (e : env) (index : nat) (valueAt : path -> option json)
    (fetch : iterState) (entered : list iterState) :
  fetch = CrawlWebsite \/ fetch = FetchFromApi \/ fetch = ProcessDocument ->
  let b := run iterator (fun s => invoke e (AtSource index s)) valueAt None
             15 fetch entered in
  branchSucceeded b /\ Forall (stageReturns e index) (stagesFrom fetch)
  \/ branchFailed b /\ Exists (stageFails e index) (stagesFrom fetch).
Proof.
  intros Hfetch. cbn zeta. unfold branchSucceeded, branchFailed, stagesFrom.
  destruct Hfetch as [-> | [-> | ->]]; enter.
  all: settle_task;
    [|handle_error; right; split; [by eexists|];
      apply Exists_cons_hd; by eexists].
  all: enter; settle_task;
    [|handle_error; right; split; [by eexists|];
      apply Exists_cons_tl, Exists_cons_hd; by eexists].
  all: enter; settle_task;
    [|handle_error; right; split; [by eexists|];
      apply Exists_cons_tl, Exists_cons_tl, Exists_cons_hd; by eexists].
  all: enter; settle_task;
    [|handle_error; right; split; [by eexists|];
      do 3 apply Exists_cons_tl; apply Exists_cons_hd; by eexists].
  all: enter; left; split; [by eexists|]; repeat constructor; assumption.
Qed.

Lemma fetchState_choose (source : json) (fetch : iterState) :
  fetchState source = Some fetch ->
  (fetch = CrawlWebsite \/ fetch = FetchFromApi \/ fetch = ProcessDocument)
  /\ exists v,
      sourceType source = Some v
      /\ choose [(JStr (lit "website"), CrawlWebsite);
                 (JStr (lit "api"), FetchFromApi);
                 (JStr (lit "document"), ProcessDocument)]
           InvalidSourceType v = fetch.
Proof.
  unfold fetchState.
  destruct (sourceType source) as [[| | | |s| |]|]; try discriminate.
  intros Hfetch. cbn [choose ruleMatches].
  repeat case_bool_decide; try discriminate; injection Hfetch as <-.
  all: split; [tauto|]; exists (JStr s); split; [reflexivity|].
  all: subst s; reflexivity.
Qed.

(** A branch ends in one of its two terminal states: as succeeded when each
    of its stages returns, as failed when one of them fails. *)
Lemma runBranch_outcome (e : env) (index : nat) (source : json)
    (fetch : iterState) :
  fetchState source = Some fetch ->
  branchSucceeded (runBranch e index source)
  /\ Forall (stageReturns e index) (stagesFrom fetch)
  \/ branchFailed (runBranch e index source)
     /\ Exists (stageFails e index) (stagesFrom fetch).
Proof.
  intros (Hfetch & v & Hv & Hchoose)%fetchState_choose.
  unfold runBranch. enter. rewrite Hv, Hchoose.
  by apply run_stages.
Qed.

(** Valid input has its data sources in an array, each of a known type. *)
Lemma valid_sources (dynamoGet : option json -> Validate.tenantResult)
    (ev : Validate.event) :
  Validate.isValid (Validate.handler dynamoGet ev) = true ->
  exists sources,
    Validate.dataSources ev = Some (JArr sources)
    /\ Forall (fun source => is_Some (fetchState source)) sources.
Proof.
  intros Hvalid.
  destruct (ValidateFacts.handler_accepts dynamoGet ev) as [Heq _].
  rewrite Hvalid in Heq. symmetry in Heq. apply negb_true_iff in Heq.
  repeat (apply orb_false_iff in Heq as [Heq ?]).
  unfold Validate.Spec.dataSourcesMissing, Validate.Spec.someBadSource in *.
  destruct (Validate.dataSources ev) as [[| | | | |sources|]|]; try discriminate.
  exists sources. split; [reflexivity|].
  apply Forall_forall. intros source Hin.
  assert (Validate.Spec.badSource source = false) as Hgood.
  { destruct (Validate.Spec.badSource source) eqn:Hbad; [|reflexivity].
    assert (existsb Validate.Spec.badSource sources = true) as Hex
      by (apply existsb_exists; exists source; split;
          [by apply list_elem_of_In|exact Hbad]).
    congruence. }
  unfold Validate.Spec.badSource in Hgood.
  repeat (apply orb_false_iff in Hgood as [Hgood ?]).
  match goal with
  | H : negb (Validate.isSourceType _) = false |- _ =>
      apply negb_false_iff in H; rename H into Htype
  end.
  unfold fetchState, sourceType.
  destruct source as [| | | | | |fields]; try discriminate.
  cbn [getProp Validate.Spec.field] in *.
  destruct (getField fields "type") as [[| | | |s| |]|]; try discriminate.
  cbn [Validate.isSourceType] in Htype.
  repeat case_bool_decide; first [discriminate Htype | by eexists].
Qed.

Lemma firstError_none (bs : list (execution iterState)) :
  Forall (fun b => branchSucceeded b \/ branchFailed b) bs ->
  firstError bs = None.
Proof.
  induction 1 as [|b bs Hb _ IH]; [reflexivity|].
  cbn [firstError]. by destruct Hb as [[tr ->]|[tr ->]].
Qed.

(** The top level, once the input is found valid and every branch has
    ended: the run goes through the tenant-level steps up to
    [AnalyzeResults], and on to [NotifyCompletion] unless [AnalyzeResults]
    itself raises. *)
Lemma run_machine (e : env) (valueAt : path -> option json) :
  valueAt ValidationIsValid = Some (JBool true) ->
  let t := run machine (fun s => invoke e (AtTop s)) valueAt None 12
             ValidateInput [] in
  match outcomes e (AtTop AnalyzeResults) 0 with
  | Returned =>
      filter (fun s => ¬ recordsFailure s) (trace t) = completedRun
      /\ last (trace t) = Some NotifyCompletion
  | Raised error =>
      filter (fun s => ¬ recordsFailure s) (trace t) = removelast completedRun
      /\ final t = Failed error
  end.
Proof.
  intros Hvalid. cbn zeta.
  enter. rewrite settle_no_retry. cbn [invoke].
  enter. rewrite Hvalid. cbn [choose ruleMatches Bool.eqb].
  enter. enter.
  settle_task; [enter|handle_error].
  all: settle_task; [enter|handle_error].
  all: settle_task; [enter|handle_error].
  all: rewrite settle_no_retry; cbn [invoke].
  all: destruct (outcomes e (AtTop AnalyzeResults) 0);
    [|cbn [findCatcher trace final]; split; reflexivity].
  all: enter; rewrite settle_no_retry; cbn [invoke].
  all: destruct (outcomes e (AtTop NotifyCompletion) 0);
    cbn [findCatcher trace]; split; reflexivity.
Qed.

(** Two worlds that differ only in what the stages of the sources do. *)
Definition sameOutsideSources (e e' : env) : Prop :=
  (forall s attempt,
      outcomes e' (AtTop s) attempt = outcomes e (AtTop s) attempt)
  /\ (forall s attempt,
        handlerWorld e' (AtTop s) attempt = handlerWorld e (AtTop s) attempt)
  /\ (forall tenantId, dynamoGet e' tenantId = dynamoGet e tenantId).

Lemma handler_ext (dynamoGet dynamoGet' : option json -> Validate.tenantResult)
    (ev : Validate.event) :
  (forall tenantId, dynamoGet' tenantId = dynamoGet tenantId) ->
  Validate.handler dynamoGet' ev = Validate.handler dynamoGet ev.
Proof.
  intros Hsame. unfold Validate.handler, Validate.checkTenant.
  by rewrite Hsame.
Qed.

Lemma invoke_ext (e e' : env) (s : topState) (Resource : resource)
    (Params : list (string * string)) (attempt : nat) :
  sameOutsideSources e e' ->
  invoke e' (AtTop s) Resource Params attempt
  = invoke e (AtTop s) Resource Params attempt.
Proof.
  intros (Houtcomes & Hworld & _). unfold invoke.
  by rewrite Houtcomes, Hworld.
Qed.

(** With valid input no branch fails, whatever its stages do. *)
Lemma valid_branches (e : env) (ev : Validate.event) :
  Validate.isValid (Validate.handler (dynamoGet e) ev) = true ->
  exists sources,
    Validate.dataSources ev = Some (JArr sources)
    /\ firstError (imap (runBranch e) sources) = None
    /\ forall index source,
         sources !! index = Some source ->
         exists fetch,
           fetchState source = Some fetch
           /\ (branchSucceeded (runBranch e index source)
               /\ Forall (stageReturns e index) (stagesFrom fetch)
               \/ branchFailed (runBranch e index source)
                  /\ Exists (stageFails e index) (stagesFrom fetch)).
Proof.
  intros Hvalid.
  destruct (valid_sources _ _ Hvalid) as (sources & Hsources & Htypes).
  exists sources. split; [exact Hsources|].
  assert (forall index source,
            sources !! index = Some source ->
            exists fetch,
              fetchState source = Some fetch
              /\ (branchSucceeded (runBranch e index source)
                  /\ Forall (stageReturns e index) (stagesFrom fetch)
                  \/ branchFailed (runBranch e index source)
                     /\ Exists (stageFails e index) (stagesFrom fetch)))
    as Hbranches.
  { intros index source Hlookup.
    destruct (proj1 (Forall_lookup _ _) Htypes index source Hlookup)
      as [fetch Hfetch].
    exists fetch. split; [exact Hfetch|]. by apply runBranch_outcome. }
  split; [|exact Hbranches].
  apply firstError_none, Forall_lookup. intros index b Hb.
  apply list_lookup_imap_Some in Hb as (source & Hlookup & Hb).
  rewrite Hb.
  destruct (Hbranches index source Hlookup) as (fetch & _ & [[H _]|[H _]]);
    [left|right]; exact H.
Qed.

(** The top level of a run on valid input. *)
Lemma top_valid (e : env) (ev : Validate.event) :
  Validate.isValid (Validate.handler (dynamoGet e) ev) = true ->
  top (execute e ev)
  = run machine (fun s => invoke e (AtTop s))
      (fun p => match p with
                | ValidationIsValid => Some (JBool true)
                | DataSourceType => None
                end)
      None 12 ValidateInput [].
Proof.
  intros Hvalid.
  destruct (valid_branches e ev Hvalid) as (sources & Hsources & Hnone & _).
  unfold execute, items. by rewrite Hsources, Hnone, Hvalid.
Qed.

(** C1, amended: when the input passes validation, the run reports one
    outcome per data source, in order; whatever the stages do, the branch
    of a source
    ends in [SourceProcessingSucceeded] when each stage of its own
    sub-pipeline returns and in [SourceProcessingFailed] when one of them
    fails, so the failure of a source changes no other outcome; the top
    level of the run is the same whatever the stages of the sources do; and
    the run goes through the tenant-level steps and reaches
    [NotifyCompletion], whatever the first three of these steps do, as long
    as [AnalyzeResults], the one step before [NotifyCompletion] that has no
    fallback, returns. *)
Theorem source_failure_is_isolated (e : env) (ev : Validate.event) :
  Validate.isValid (Validate.handler (dynamoGet e) ev) = true ->
  exists sources,
    Validate.dataSources ev = Some (JArr sources)
    /\ length (processedDataSources (execute e ev)) = length sources
    /\ (forall index source,
          sources !! index = Some source ->
          exists branch fetch,
            processedDataSources (execute e ev) !! index = Some branch
            /\ fetchState source = Some fetch
            /\ (branchSucceeded branch
                /\ Forall (stageReturns e index) (stagesFrom fetch)
                \/ branchFailed branch
                   /\ Exists (stageFails e index) (stagesFrom fetch)))
    /\ (forall e',
          sameOutsideSources e e' ->
          top (execute e' ev) = top (execute e ev))
    /\ (outcomes e (AtTop AnalyzeResults) 0 = Returned ->
        filter (fun s => ¬ recordsFailure s) (trace (top (execute e ev)))
        = completedRun
        /\ last (trace (top (execute e ev))) = Some NotifyCompletion).
Proof.
  intros Hvalid.
  destruct (valid_branches e ev Hvalid)
    as (sources & Hsources & Hnone & Hbranches).
  exists sources. split; [exact Hsources|].
  pose proof (run_machine e
                (fun p => match p with
                          | ValidationIsValid => Some (JBool true)
                          | DataSourceType => None
                          end) eq_refl) as Hrun.
  cbn zeta in Hrun.
  assert (processedDataSources (execute e ev) = imap (runBranch e) sources)
    as Hprocessed.
  { unfold execute, items. rewrite Hsources, Hnone, Hvalid.
    cbn [processedDataSources].
    rewrite bool_decide_eq_true_2; [reflexivity|].
    apply (list_elem_of_filter (fun s => ¬ recordsFailure s)
             (trace _) ProcessDataSources).
    destruct (outcomes e (AtTop AnalyzeResults) 0);
      destruct Hrun as [-> _]; unfold completedRun; cbn [removelast];
      set_solver. }
  rewrite Hprocessed, (top_valid e ev Hvalid).
  split; [apply length_imap|]. split; [|split].
  - intros index source Hlookup.
    destruct (Hbranches index source Hlookup) as (fetch & Hfetch & Hout).
    exists (runBranch e index source), fetch.
    split; [by rewrite list_lookup_imap, Hlookup|]. by split.
  - intros e' Hsame.
    assert (Validate.handler (dynamoGet e') ev
            = Validate.handler (dynamoGet e) ev) as Hhandler
      by (apply handler_ext, Hsame).
    rewrite (top_valid e' ev) by (by rewrite Hhandler).
    apply run_ext. intros s Resource Params attempt.
    by apply invoke_ext.
  - intros Hanalyze. by rewrite Hanalyze in Hrun.
Qed.

(** A run over a website and a document: the extraction of the website is
    throttled twice and then returns, the document is not found, and the
    update of the metadata fails. *)
Definition website : json :=
  JObj [("type", JStr (lit "website"));
        ("url", JStr (lit "https://example.com"));
        ("name", JStr (lit "Docs"))].

Definition document : json :=
  JObj [("type", JStr (lit "document"));
        ("url", JStr (lit "missing-doc-id"));
        ("name", JStr (lit "Guide"))].

Definition twoSources : Validate.event :=
  Validate.mkEvent (Some (JStr (lit "tenant-1")))
    (Some (JArr [website; document]))
    (Some (JObj [("crawlDepth", JNum 1)])).

Definition documentMissing : env :=
  mkEnv
    (fun p attempt =>
       match p with
       | AtSource 0 ExtractText =>
           if attempt <? 2 then Raised "ServiceException" else Returned
       | AtSource 1 ProcessDocument => Raised "Error"
       | AtTop UpdateMetadata => Raised "Error"
       | _ => Returned
       end)
    (fun _ _ => ErrorHandler.mkWorld (Ok tt) (Throw (lit "timeout")) (Ok tt))
    (fun _ => Validate.Item (JObj [("id", JStr (lit "tenant-config"))])).

Lemma source_failure_is_isolated_witness :
  Validate.isValid (Validate.handler (dynamoGet documentMissing) twoSources)
  = true
  /\ (exists sources,
        Validate.dataSources twoSources = Some (JArr sources)
        /\ length (processedDataSources (execute documentMissing twoSources))
           = length sources
        /\ (forall index source,
              sources !! index = Some source ->
              exists branch fetch,
                processedDataSources (execute documentMissing twoSources)
                  !! index = Some branch
                /\ fetchState source = Some fetch
                /\ (branchSucceeded branch
                    /\ Forall (stageReturns documentMissing index)
                         (stagesFrom fetch)
                    \/ branchFailed branch
                       /\ Exists (stageFails documentMissing index)
                            (stagesFrom fetch)))
        /\ (forall e',
              sameOutsideSources documentMissing e' ->
              top (execute e' twoSources)
              = top (execute documentMissing twoSources))
        /\ (outcomes documentMissing (AtTop AnalyzeResults) 0 = Returned ->
            filter (fun s => ¬ recordsFailure s)
              (trace (top (execute documentMissing twoSources)))
            = completedRun
            /\ last (trace (top (execute documentMissing twoSources)))
               = Some NotifyCompletion))
  /\ outcomes documentMissing (AtTop AnalyzeResults) 0 = Returned
  /\ execute documentMissing twoSources
     = mkOutcome
         (mkExecution
            [ValidateInput; CheckValidationResult; ProcessDataSources;
             ConfigureMemoryDuration; UpdateMetadata; MetadataError;
             ScheduleNextCrawl; AnalyzeResults; NotifyCompletion]
            (Succeeded None))
         [mkExecution
            [DetermineSourceType; CrawlWebsite; ExtractText;
             GenerateEmbeddings; StoreEmbeddings; SourceProcessingSucceeded]
            (Succeeded (Some "succeeded"));
          mkExecution
            [DetermineSourceType; ProcessDocument; DocumentError;
             SourceProcessingFailed]
            (Succeeded (Some "failed"))].
Proof.
  split; [vm_compute; reflexivity|].
  split; [|split; [reflexivity|vm_compute; reflexivity]].
  apply (source_failure_is_isolated documentMissing twoSources).
  vm_compute. reflexivity.
Defined.

(** The claim as the specification words it: a run on valid input goes on
    to [NotifyCompletion]. *)
Definition runReachesNotifyCompletion : Prop :=
  forall e ev,
    Validate.isValid (Validate.handler (dynamoGet e) ev) = true ->
    last (trace (top (execute e ev))) = Some NotifyCompletion.

(** The same two sources, the document not found, in a world where the
    analysis of the results fails. *)
Definition analysisRaises : env :=
  mkEnv
    (fun p attempt =>
       match p with
       | AtSource 1 ProcessDocument => Raised "Error"
       | AtTop AnalyzeResults => Raised "Error"
       | _ => Returned
       end)
    (fun _ _ => ErrorHandler.mkWorld (Ok tt) (Ok tt) (Ok tt))
    (fun _ => Validate.Item (JObj [("id", JStr (lit "tenant-config"))])).

(** C1 as stated fails: [AnalyzeResults] has no [Retry] and no [Catch], so
    when it fails the execution fails there, after the sources were
    processed and before [NotifyCompletion]. *)
Lemma failed_analysis_ends_the_run : ¬ runReachesNotifyCompletion.
Proof.
  intros Hclaim.
  assert (Validate.isValid
            (Validate.handler (dynamoGet analysisRaises) twoSources) = true)
    as Hvalid by (vm_compute; reflexivity).
  apply Hclaim in Hvalid. vm_compute in Hvalid. discriminate Hvalid.
Qed.

End PipelineFacts.

(** ** The query handler *)

Module ChatbotFacts.
Import JS Chatbot.

Lemma aboveThreshold_spec (q : Q) :
  aboveThreshold q = true <-> (1 # 2 < q)%Q.
Proof.
  unfold aboveThreshold. rewrite negb_true_iff.
  destruct (Qle_bool q (1 # 2)) eqn:Hle.
  - apply Qle_bool_iff in Hle. split; [discriminate|].
    intros Hlt. exfalso. by apply (Qlt_not_le _ _ Hlt).
  - split; [intros _|reflexivity].
    apply Qnot_le_lt. intros Hle'. apply Qle_bool_iff in Hle'. congruence.
Qed.

#[local] Instance above_dec (h : hit) : Decision (1 # 2 < _score h)%Q.
Proof.
  destruct (aboveThreshold (_score h)) eqn:Hs.
  - left. by apply aboveThreshold_spec.
  - right. intros Hlt%aboveThreshold_spec. congruence.
Defined.

#[local] Instance not_below_dec (h : hit) : Decision (¬ (_score h < 1 # 2)%Q).
Proof.
  destruct (Qlt_le_dec (_score h) (1 # 2)) as [Hlt|Hle].
  - right. tauto.
  - left. by apply Qle_not_lt.
Defined.

(** The text and the citation of a hit that has them. *)
Definition hitText (h : hit) : jsstring :=
  match _source h with
  | Some src => default [] (text src)
  | None => []
  end.

Definition citation (h : hit) : source :=
  match _source h with
  | Some src =>
      mkSource (excerpt (default [] (text src))) (source_url src) (_score h)
        (source_name src)
  | None => mkSource [] None (_score h) None
  end.

(** The result made of the hits [kept], in order. *)
Definition resultOf (kept : list hit) : searchResult :=
  mkSearchResult (concat ((fun h => hitText h ++ [LF; LF]) <$> kept))
    (citation <$> kept).

(** A hit that can be read: it has its [_source], and its text when its
    score is above the threshold. *)
Definition readable (h : hit) : bool :=
  match _source h with
  | Some src => negb (aboveThreshold (_score h)) || bool_decide (is_Some (text src))
  | None => false
  end.

(** The search went through and returned [hits]. *)
Definition searchReturns (w : world) (hits : list hit) : Prop :=
  (exists embeddingData queryEmbedding,
      embeddingPayload w = Ok embeddingData
      /\ getProp embeddingData "embedding" = Ok queryEmbedding
      /\ truthyValue queryEmbedding = true)
  /\ opensearchRequest w = Ok hits.

(** The claim as the specification words it: a hit is kept exactly when its
    score is not below 0.5. *)
Definition keepsHitsNotBelowThreshold : Prop :=
  forall w hits,
    searchReturns w hits ->
    forallb readable hits = true ->
    searchRelevantContent w
      = Ok (resultOf (filter (fun h => ¬ (_score h < 1 # 2)%Q) hits)).

Lemma addHits_filter (hits : list hit) :
  forallb readable hits = true ->
  forall acc,
    addHits acc hits
      = Ok (mkSearchResult
              (relevantContent acc
                 ++ relevantContent
                      (resultOf (filter (fun h => (1 # 2 < _score h)%Q) hits)))
              (sources acc
                 ++ sources
                      (resultOf (filter (fun h => (1 # 2 < _score h)%Q) hits)))).
Proof.
  induction hits as [|h hits IH]; intros Hall acc.
  - simpl. rewrite !app_nil_r. by destruct acc.
  - cbn [forallb] in Hall. apply andb_true_iff in Hall as [Hh Hall].
    unfold readable in Hh.
    cbn [addHits]. unfold addHit at 1.
    destruct (_source h) as [src|] eqn:Hsrc; [|discriminate].
    rewrite filter_cons.
    destruct (aboveThreshold (_score h)) eqn:Hs.
    + rewrite decide_True by (by apply aboveThreshold_spec).
      cbn [negb orb] in Hh. apply bool_decide_eq_true in Hh as [t Ht].
      rewrite Ht. cbn [rbind]. rewrite (IH Hall). cbn.
      unfold hitText, citation. rewrite Hsrc, Ht. cbn [default].
      f_equal. f_equal; by rewrite <- ?app_assoc.
    + rewrite decide_False
        by (intros Hlt%aboveThreshold_spec; congruence).
      cbn [rbind]. by apply IH.
Qed.

(** One hit that cannot be read makes the whole reading throw. *)
Lemma addHits_unreadable (hits : list hit) :
  forallb readable hits = false ->
  forall acc, exists e, addHits acc hits = Throw e.
Proof.
  induction hits as [|h hits IH]; intros Hall acc; [discriminate|].
  cbn [forallb] in Hall. unfold readable in Hall. cbn [addHits].
  unfold addHit at 1.
  destruct (_source h) as [src|]; [|by eexists].
  destruct (aboveThreshold (_score h)); cbn [negb orb andb] in Hall.
  - destruct (text src) as [t|]; [|by eexists].
    rewrite bool_decide_eq_true_2 in Hall by eauto.
    cbn [rbind]. by apply IH.
  - cbn [rbind]. by apply IH.
Qed.

Lemma searchRelevantContent_returns (w : world) (hits : list hit) :
  searchReturns w hits ->
  searchRelevantContent w
    = Ok (if forallb readable hits
          then resultOf (filter (fun h => (1 # 2 < _score h)%Q) hits)
          else mkSearchResult [] []).
Proof.
  intros [(d & emb & Hd & Hemb & Htruthy) Hreq].
  unfold searchRelevantContent. rewrite Hd. cbn [rbind]. rewrite Hemb.
  cbn [rbind]. rewrite Htruthy. cbn [negb]. rewrite Hreq. cbn [rbind].
  destruct (forallb readable hits) eqn:Hall.
  - rewrite (addHits_filter hits Hall). reflexivity.
  - destruct (addHits_unreadable hits Hall (mkSearchResult [] [])) as [e ->].
    reflexivity.
Qed.

(** The two hits of the scenario, and a hit right at the threshold. *)
Definition onTopic : hit :=
  mkHit (9 # 10) (Some (mkHitSource (Some (lit "Refunds are made within 30 days."))
                          None (Some (JStr (lit "Policy"))))).

Definition offTopic : hit :=
  mkHit (3 # 10) (Some (mkHitSource (Some (lit "Our office is closed on Sundays."))
                          None (Some (JStr (lit "Hours"))))).

Definition atThreshold : hit :=
  mkHit (1 # 2) (Some (mkHitSource (Some (lit "Refunds need a receipt."))
                         None (Some (JStr (lit "Policy"))))).

(** A world whose search returns [hits] and where every other call
    succeeds. *)
Definition worldWith (hits : list hit) : world :=
  mkWorld (lit "q-1") (lit "2024-01-01T00:00:00.000Z")
    (Ok (Some (JObj [])))
    (Ok tt) (Ok [])
    (Ok (JObj [("embedding", JArr [JNum 1])]))
    (Ok hits)
    (fun _ _ => Ok (JObj [("response", JStr (lit " Within 30 days. "))]))
    (Ok tt) (Ok tt) (Ok tt)
    (fun _ => Ok tt).

Lemma worldWith_returns (hits : list hit) : searchReturns (worldWith hits) hits.
Proof.
  split; [|reflexivity].
  exists (JObj [("embedding", JArr [JNum 1])]), (Some (JArr [JNum 1])).
  repeat split.
Qed.

(** C7 as stated fails: a hit whose score is exactly 0.5 is not below the
    threshold, and the code leaves it out. *)
Lemma hit_at_threshold_left_out : ¬ keepsHitsNotBelowThreshold.
Proof.
  intros Hclaim.
  specialize (Hclaim (worldWith [atThreshold]) [atThreshold]
                (worldWith_returns _) eq_refl).
  vm_compute in Hclaim. discriminate Hclaim.
Qed.

(** C7, amended: when the search returns hits that can all be read, each
    with its [_source] and, above the threshold, its text, the context is
    made of the texts, and the sources of the citations, of exactly the
    hits whose score is greater than 0.5, in the order of the hits; of two
    hits with scores 0.9 and 0.3 only the first is kept. *)
Theorem keeps_hits_above_threshold (w : world) (hits : list hit) :
  searchReturns w hits ->
  forallb readable hits = true ->
  searchRelevantContent w
    = Ok (resultOf (filter (fun h => (1 # 2 < _score h)%Q) hits))
  /\ filter (fun h => (1 # 2 < _score h)%Q) [onTopic; offTopic] = [onTopic].
Proof.
  intros Hret Hreadable. split; [|reflexivity].
  by rewrite (searchRelevantContent_returns w hits Hret), Hreadable.
Qed.

Lemma keeps_hits_above_threshold_witness :
  searchReturns (worldWith [onTopic; offTopic]) [onTopic; offTopic]
  /\ forallb readable [onTopic; offTopic] = true
  /\ searchRelevantContent (worldWith [onTopic; offTopic])
     = Ok (resultOf [onTopic]).
Proof.
  assert (searchReturns (worldWith [onTopic; offTopic]) [onTopic; offTopic])
    as Hret by apply worldWith_returns.
  split; [exact Hret|]. split; [reflexivity|].
  destruct (keeps_hits_above_threshold _ _ Hret eq_refl) as [Heq Hkept].
  by rewrite Heq, Hkept.
Defined.


(** *** Failures of the generation and of the search *)

Lemma tryCatch_returns {A} (body : result A) (fallback : A) :
  exists a, tryCatch body (fun _ => Ok fallback) = Ok a.
Proof. destruct body; simpl; eauto. Qed.

(** The generation call fails: the invocation is rejected (or its payload
    is not JSON), or the payload carries an [error]. *)
Definition generationFails (w : world) (prompt : jsstring) (config : json)
    : Prop :=
  exists model,
    modelOf config = Ok model
    /\ ((exists e, inferencePayload w prompt model = Throw e)
        \/ (exists inferenceData error,
              inferencePayload w prompt model = Ok inferenceData
              /\ getProp inferenceData "error" = Ok error
              /\ truthyValue error = true)).

(** The search fails: the embedding call or the search request is rejected,
    or no embedding comes back. *)
Definition searchFails (w : world) : Prop :=
  (exists e, embeddingPayload w = Throw e)
  \/ (exists embeddingData queryEmbedding,
        embeddingPayload w = Ok embeddingData
        /\ getProp embeddingData "embedding" = Ok queryEmbedding
        /\ truthyValue queryEmbedding = false)
  \/ (exists e, opensearchRequest w = Throw e).

(** C8: [generateResponse] never throws, and returns the fixed apology when
    the generation call fails; [searchRelevantContent] never throws, and
    returns the empty context with no sources when the search fails. *)
Theorem failures_do_not_propagate (w : world) (prompt : jsstring)
    (config : json) :
  (exists s, generateResponse w prompt config = Ok s)
  /\ (generationFails w prompt config ->
      generateResponse w prompt config = Ok apology)
  /\ (exists r, searchRelevantContent w = Ok r)
  /\ (searchFails w -> searchRelevantContent w = Ok (mkSearchResult [] [])).
Proof.
  split; [apply tryCatch_returns|].
  split.
  { unfold generateResponse.
    intros (model & Hmodel & Hfails). rewrite Hmodel. cbn [rbind].
    destruct Hfails as [[e ->] | (d & err & -> & Herr & Htruthy)];
      [reflexivity|].
    cbn [rbind]. rewrite Herr. cbn [rbind]. rewrite Htruthy.
    by destruct (toStringValue err). }
  split; [apply tryCatch_returns|].
  unfold searchRelevantContent.
  intros [[e ->] | [(d & emb & -> & Hemb & Hfalsy) | [e He]]]; [reflexivity| |].
  - cbn [rbind]. rewrite Hemb. cbn [rbind]. by rewrite Hfalsy.
  - destruct (embeddingPayload w) as [d|]; [|reflexivity]. cbn [rbind].
    destruct (getProp d "embedding") as [emb|]; [|reflexivity]. cbn [rbind].
    destruct (negb (truthyValue emb)); [reflexivity|].
    by rewrite He.
Qed.

(** A world where the inference payload carries an error and the search
    request is rejected. *)
Definition failingWorld : world :=
  mkWorld (lit "q-1") (lit "2024-01-01T00:00:00.000Z")
    (Ok (Some (JObj [])))
    (Ok tt) (Ok [])
    (Ok (JObj [("embedding", JArr [JNum 1])]))
    (Throw (lit "connect ECONNREFUSED"))
    (fun _ _ => Ok (JObj [("error", JStr (lit "model overloaded"))]))
    (Ok tt) (Ok tt) (Ok tt)
    (fun _ => Throw (lit "ProvisionedThroughputExceededException")).

Lemma failures_do_not_propagate_witness :
  generateResponse failingWorld (lit "Human: hi") (JObj []) = Ok apology
  /\ searchRelevantContent failingWorld = Ok (mkSearchResult [] []).
Proof.
  destruct (failures_do_not_propagate failingWorld (lit "Human: hi") (JObj []))
    as (_ & Hgen & _ & Hsearch).
  split.
  - apply Hgen. exists (JStr (lit "gpt-3.5-turbo")).
    split; [reflexivity|]. right.
    exists (JObj [("error", JStr (lit "model overloaded"))]),
      (Some (JStr (lit "model overloaded"))).
    repeat split; reflexivity.
  - apply Hsearch. right. right. eexists. reflexivity.
Defined.

(** *** The analytics record *)







End ChatbotFacts.

(** ** More of the chunker *)

Module ChunkerMore.
Import JS Chunker ChunkerFacts.

(** *** Pieces of a split *)

Lemma elem_of_rev {A} (x : A) (l : list A) : x ∈ rev l <-> x ∈ l.
Proof. rewrite !list_elem_of_In. symmetry. apply in_rev. Qed.

Lemma Forall_rev_list {A} (P : A -> Prop) (l : list A) :
  Forall P l -> Forall P (rev l).
Proof.
  rewrite !Forall_forall. intros H x Hx. apply H. by apply elem_of_rev.
Qed.

Lemma splitRuns_Forall (P : N -> Prop) (sep : N -> bool) (s : jsstring) :
  forall cur inSep,
    Forall P cur -> Forall P s -> Forall (Forall P) (splitRuns sep cur inSep s).
Proof.
  induction s as [|c s IH]; intros cur inSep Hcur Hs; cbn [splitRuns].
  - constructor; [by apply Forall_rev_list|constructor].
  - apply Forall_cons in Hs as [Hc Hs].
    destruct (sep c); [destruct inSep|].
    + by apply IH.
    + constructor; [by apply Forall_rev_list|by apply IH].
    + apply IH; [by constructor|exact Hs].
Qed.

Lemma splitRuns_no_sep (sep : N -> bool) (s : jsstring) :
  forall cur,
    Forall (fun c => sep c = false) s ->
    splitRuns sep cur false s = [rev cur ++ s].
Proof.
  induction s as [|c s IH]; intros cur Hs; cbn [splitRuns].
  - by rewrite app_nil_r.
  - apply Forall_cons in Hs as [-> Hs]. rewrite IH by exact Hs.
    cbn [rev]. by rewrite <- app_assoc.
Qed.

(** A character that is not a separator is in one of the pieces. *)
Lemma splitRuns_elem (sep : N -> bool) (c : N) (s : jsstring) :
  sep c = false ->
  forall cur inSep,
    (c ∈ cur /\ inSep = false) \/ c ∈ s ->
    exists piece, piece ∈ splitRuns sep cur inSep s /\ c ∈ piece.
Proof.
  intros Hc. induction s as [|a s IH]; intros cur inSep Hin; cbn [splitRuns].
  - destruct Hin as [[Hin _]|Hin]; [|by apply elem_of_nil in Hin].
    exists (rev cur). split; [apply list_elem_of_singleton; reflexivity|].
    by apply elem_of_rev.
  - destruct (sep a) eqn:Ha.
    + assert (c ∈ a :: s -> c ∈ s) as Htail.
      { intros [->|H]%elem_of_cons; [congruence|exact H]. }
      destruct inSep.
      * apply IH. right. destruct Hin as [[_ [=]]|Hin]. by apply Htail.
      * destruct Hin as [[Hin _]|Hin].
        -- exists (rev cur). split; [apply elem_of_cons; by left|].
           by apply elem_of_rev.
        -- destruct (IH [] true) as (piece & Hpiece & Hcp);
             [right; by apply Htail|].
           exists piece. split; [apply elem_of_cons; by right|exact Hcp].
    + apply IH. destruct Hin as [[Hin _]|[->|Hin]%elem_of_cons].
      * left. split; [apply elem_of_cons; by right|reflexivity].
      * left. split; [apply elem_of_cons; by left|reflexivity].
      * by right.
Qed.

Lemma dropWhile_all {A} (p : A -> bool) (l : list A) :
  Forall (fun x => p x = true) l -> dropWhile p l = [].
Proof. induction 1 as [|x l Hx _ IH]; [done|]. cbn. by rewrite Hx. Qed.

Lemma dropWhile_elem {A} (p : A -> bool) (x : A) (l : list A) :
  x ∈ l -> p x = false -> x ∈ dropWhile p l.
Proof.
  intros Hin Hx. induction l as [|y l IH]; [done|]. cbn.
  destruct (p y) eqn:Hy; [|exact Hin].
  apply elem_of_cons in Hin as [->|Hin]; [congruence|by apply IH].
Qed.

Lemma trim_blank (s : jsstring) :
  Forall (fun c => isWhiteSpace c = true) s -> trim s = [].
Proof. intros Hs. unfold trim. by rewrite (dropWhile_all _ s). Qed.

Lemma trim_solid (c : N) (s : jsstring) :
  c ∈ s -> isWhiteSpace c = false -> 0 < length (trim s).
Proof.
  intros Hin Hc. unfold trim.
  assert (c ∈ rev (dropWhile isWhiteSpace (rev (dropWhile isWhiteSpace s))))
    as Hc'.
  { apply elem_of_rev, dropWhile_elem; [|exact Hc].
    apply elem_of_rev, dropWhile_elem; [exact Hin|exact Hc]. }
  destruct (rev _); [by apply elem_of_nil in Hc'|rewrite length_cons; lia].
Qed.

Lemma filter_none {A} (f : A -> bool) (l : list A) :
  Forall (fun x => f x = false) l -> List.filter f l = [].
Proof. induction 1 as [|x l Hx _ IH]; [done|]. cbn. by rewrite Hx. Qed.

(** X1: a text of white space only, the empty text included, gives no
    chunk, whatever the limit. *)
Theorem blank_text_gives_no_chunk (text : jsstring) (maxChunkSize : nat) :
  Forall (fun c => isWhiteSpace c = true) text ->
  splitTextIntoChunks text maxChunkSize = Some [].
Proof.
  intros Hblank. unfold splitTextIntoChunks, paragraphsOf.
  rewrite filter_none; [reflexivity|].
  eapply Forall_impl;
    [apply (splitRuns_Forall _ _ text [] false (Forall_nil_2 _) Hblank)|].
  intros piece Hpiece. cbn beta. by rewrite trim_blank.
Qed.

Lemma blank_text_gives_no_chunk_witness :
  Forall (fun c => isWhiteSpace c = true) (lit "  " ++ [LF; LF] ++ lit " ")
  /\ splitTextIntoChunks (lit "  " ++ [LF; LF] ++ lit " ") 1000 = Some [].
Proof.
  assert (Forall (fun c => isWhiteSpace c = true)
            (lit "  " ++ [LF; LF] ++ lit " ")) as Hblank.
  { repeat constructor. }
  split; [exact Hblank|]. apply (blank_text_gives_no_chunk _ 1000 Hblank).
Defined.

(** X2: a text of one line that is not blank and has fewer characters than
    the limit is returned as a single chunk, unchanged. *)
Theorem short_line_is_one_chunk (text : jsstring) (maxChunkSize : nat) :
  LF ∉ text ->
  0 < length (trim text) ->
  length text + 1 <= maxChunkSize ->
  splitTextIntoChunks text maxChunkSize = Some [text].
Proof.
  intros Hline Hsolid Hfits. unfold splitTextIntoChunks, paragraphsOf, split.
  rewrite splitRuns_no_sep.
  2:{ apply Forall_forall. intros c Hc. apply N.eqb_neq. by intros <-. }
  cbn [rev app List.filter].
  apply Nat.ltb_lt in Hsolid as Hsolid'. rewrite Hsolid'.
  cbn [paragraphLoop]. unfold paragraphStep.
  destruct (Nat.ltb_spec maxChunkSize (length text)) as [Hlong|_]; [lia|].
  cbn [currentChunk chunks length Nat.add].
  destruct (Nat.leb_spec (length text + 1) maxChunkSize) as [_|Hfull]; [|lia].
  cbn. destruct text; [cbn in Hsolid; lia|reflexivity].
Qed.

Lemma short_line_is_one_chunk_witness :
  (LF ∉ lit " Hello world. ")
  /\ 0 < length (trim (lit " Hello world. "))
  /\ length (lit " Hello world. ") + 1 <= 1000
  /\ splitTextIntoChunks (lit " Hello world. ") 1000
     = Some [lit " Hello world. "].
Proof.
  assert (LF ∉ lit " Hello world. ") as Hline.
  { intros Hin. apply list_elem_of_In in Hin. cbn in Hin.
    repeat (destruct Hin as [Hin|Hin]; [discriminate Hin|]). exact Hin. }
  assert (0 < length (trim (lit " Hello world. "))) as Hsolid
    by (vm_compute; lia).
  assert (length (lit " Hello world. ") + 1 <= 1000) as Hfits
    by (vm_compute; lia).
  split; [exact Hline|]. split; [exact Hsolid|]. split; [exact Hfits|].
  apply (short_line_is_one_chunk _ 1000 Hline Hsolid Hfits).
Defined.

(** *** Nothing is lost on the paragraph path *)

(** [pieces.join('\n')] *)
Fixpoint joinLF (pieces : list jsstring) : jsstring :=
  match pieces with
  | [] => []
  | p :: rest =>
      match rest with
      | [] => p
      | _ :: _ => p ++ LF :: joinLF rest
      end
  end.

(** The chunks that are not empty, the one being filled included. *)
Definition pieces (st : state) : list jsstring :=
  List.filter truthy (chunks st ++ [currentChunk st]).

Definition glue (joined paragraph : jsstring) : jsstring :=
  if truthy joined then joined ++ LF :: paragraph else paragraph.

Lemma joinLF_truthy (l : list jsstring) :
  Forall (fun p => truthy p = true) l -> truthy (joinLF l) = match l with [] => false | _ :: _ => true end.
Proof.
  intros Hl. destruct Hl as [|p l Hp Hl]; [reflexivity|]. cbn [joinLF].
  destruct l; [exact Hp|]. by destruct p.
Qed.

Lemma joinLF_snoc (l : list jsstring) (p : jsstring) :
  Forall (fun p => truthy p = true) l ->
  joinLF (l ++ [p]) = glue (joinLF l) p.
Proof.
  induction 1 as [|x l Hx Hl IH]; [reflexivity|].
  unfold glue. rewrite joinLF_truthy by (by constructor).
  destruct l as [|y l]; [reflexivity|].
  change (joinLF ((x :: y :: l) ++ [p]))
    with (x ++ LF :: joinLF ((y :: l) ++ [p])).
  change (joinLF (x :: y :: l)) with (x ++ LF :: joinLF (y :: l)).
  rewrite IH. unfold glue. rewrite joinLF_truthy by exact Hl.
  by rewrite <- app_assoc.
Qed.

Lemma joinLF_extend (l : list jsstring) (cur p : jsstring) :
  joinLF (l ++ [cur ++ LF :: p]) = joinLF (l ++ [cur]) ++ LF :: p.
Proof.
  induction l as [|x l IH]; [reflexivity|].
  destruct l as [|y l]; [cbn; by rewrite <- app_assoc|].
  change (joinLF ((x :: y :: l) ++ [cur ++ LF :: p]))
    with (x ++ LF :: joinLF ((y :: l) ++ [cur ++ LF :: p])).
  change (joinLF ((x :: y :: l) ++ [cur]))
    with (x ++ LF :: joinLF ((y :: l) ++ [cur])).
  rewrite IH. by rewrite <- app_assoc.
Qed.

Lemma pieces_truthy (st : state) :
  Forall (fun p => truthy p = true) (pieces st).
Proof.
  apply Forall_forall. intros p Hp. apply list_elem_of_In in Hp.
  by apply filter_In in Hp as [_ Hp].
Qed.

(** A paragraph that fits the limit joins the text held so far, after a
    newline or as a new chunk. *)
Lemma paragraphStep_joins (maxChunkSize : nat) (st : state)
    (paragraph : jsstring) :
  truthy paragraph = true ->
  length paragraph <= maxChunkSize ->
  exists st',
    paragraphStep maxChunkSize st paragraph = Some st'
    /\ joinLF (pieces st') = glue (joinLF (pieces st)) paragraph.
Proof.
  intros Hp Hshort. unfold paragraphStep.
  destruct (Nat.ltb_spec maxChunkSize (length paragraph)) as [Hlong|_]; [lia|].
  destruct (_ <=? maxChunkSize); eexists; (split; [reflexivity|]);
    unfold pieces; cbn [chunks currentChunk].
  - rewrite !List.filter_app. cbn [List.filter].
    destruct (currentChunk st) as [|c cur] eqn:Hcur.
    + cbn [truthy app]. rewrite Hp, app_nil_r.
      apply joinLF_snoc. apply Forall_forall. intros x Hx.
      apply list_elem_of_In in Hx. by apply filter_In in Hx as [_ Hx].
    + cbn [truthy]. change (truthy ((c :: cur) ++ [LF] ++ paragraph)) with true.
      cbn [app]. change (c :: cur ++ LF :: paragraph)
        with ((c :: cur) ++ LF :: paragraph).
      rewrite joinLF_extend. unfold glue.
      rewrite joinLF_truthy; [by destruct (List.filter truthy (chunks st))|].
      apply Forall_app. split; [|by repeat constructor].
      apply Forall_forall. intros x Hx.
      apply list_elem_of_In in Hx. by apply filter_In in Hx as [_ Hx].
  - rewrite List.filter_app. cbn [List.filter]. rewrite Hp.
    apply joinLF_snoc, (pieces_truthy st).
Qed.

Lemma paragraphLoop_joins (maxChunkSize : nat) (paragraphs : list jsstring) :
  Forall (fun p => truthy p = true) paragraphs ->
  Forall (fun p => length p <= maxChunkSize) paragraphs ->
  forall st done,
    Forall (fun p => truthy p = true) done ->
    joinLF (pieces st) = joinLF done ->
    exists st',
      paragraphLoop maxChunkSize st paragraphs = Some st'
      /\ joinLF (pieces st') = joinLF (done ++ paragraphs).
Proof.
  induction 1 as [|p rest Hp _ IH]; intros Hshort st done Hdone Hjoin.
  - exists st. by rewrite app_nil_r.
  - apply Forall_cons in Hshort as [Hshort Hrest]. cbn [paragraphLoop].
    destruct (paragraphStep_joins maxChunkSize st p Hp Hshort)
      as (st1 & -> & Hjoin1).
    cbn. destruct (IH Hrest st1 (done ++ [p])) as (st' & Hloop & Hjoin').
    + apply Forall_app. split; [exact Hdone|by repeat constructor].
    + by rewrite Hjoin1, Hjoin, joinLF_snoc.
    + exists st'. split; [exact Hloop|]. by rewrite Hjoin', <- app_assoc.
Qed.

(** X3: when no paragraph of the text is longer than the limit, the chunker
    returns, and its chunks that are not empty, joined by newlines, are the
    paragraphs of the text joined by newlines: no character of a paragraph
    is lost, added or moved. *)
Theorem short_paragraphs_are_kept (text : jsstring) (maxChunkSize : nat) :
  Forall (fun p => length p <= maxChunkSize) (paragraphsOf text) ->
  exists result,
    splitTextIntoChunks text maxChunkSize = Some result
    /\ joinLF (List.filter truthy result) = joinLF (paragraphsOf text).
Proof.
  intros Hshort. unfold splitTextIntoChunks.
  destruct (paragraphLoop_joins maxChunkSize (paragraphsOf text))
    with (st := mkState [] []) (done := @nil jsstring)
    as (st & -> & Hjoin); [|exact Hshort|constructor|reflexivity|].
  { apply Forall_forall. intros p Hp. apply list_elem_of_In in Hp.
    apply filter_In in Hp as [_ Hp]. apply Nat.ltb_lt in Hp.
    destruct p; [cbn in Hp; lia|reflexivity]. }
  eexists. split; [reflexivity|].
  transitivity (joinLF (pieces st)); [|exact Hjoin]. unfold pieces.
  rewrite List.filter_app. cbn [List.filter].
  destruct (truthy (currentChunk st)) eqn:Hcur.
  - rewrite List.filter_app. cbn [List.filter]. by rewrite Hcur.
  - by rewrite app_nil_r.
Qed.

Lemma short_paragraphs_are_kept_witness :
  Forall (fun p => length p <= 12)
    (paragraphsOf (lit "First one." ++ [LF; LF] ++ lit "Second." ++ [LF]
                   ++ lit "Third"))
  /\ exists result,
       splitTextIntoChunks
         (lit "First one." ++ [LF; LF] ++ lit "Second." ++ [LF] ++ lit "Third")
         12 = Some result
       /\ joinLF (List.filter truthy result)
          = joinLF (paragraphsOf
                      (lit "First one." ++ [LF; LF] ++ lit "Second." ++ [LF]
                       ++ lit "Third")).
Proof.
  assert (Forall (fun p => length p <= 12)
            (paragraphsOf (lit "First one." ++ [LF; LF] ++ lit "Second."
                           ++ [LF] ++ lit "Third"))) as Hshort.
  { vm_compute. repeat constructor. }
  split; [exact Hshort|]. apply (short_paragraphs_are_kept _ 12 Hshort).
Defined.

(** *** A limit of zero *)

Lemma hardSplit_zero (fuel : nat) :
  forall remainingSentence out,
    remainingSentence <> [] -> hardSplit fuel 0 remainingSentence out = None.
Proof.
  induction fuel as [|fuel IH]; intros rem out Hrem;
    (destruct rem as [|c rem]; [done|]); [reflexivity|].
  cbn [hardSplit]. rewrite Nat.min_0_r. by apply IH.
Qed.

Lemma sentenceLoop_zero (st : state) (sentences : list jsstring) :
  Forall (fun s => 0 < length (trim s)) sentences ->
  sentences <> [] ->
  sentenceLoop 0 st sentences = None.
Proof.
  intros Hsolid Hsome. destruct Hsolid as [|s rest Hs _]; [done|].
  cbn [sentenceLoop]. unfold sentenceStep.
  pose proof (trim_length s) as Htrim.
  destruct (Nat.leb_spec (length (currentChunk st) + length s + 1) 0)
    as [Hfits|_]; [lia|].
  destruct (Nat.ltb_spec 0 (length s)) as [_|Hempty]; [|lia].
  rewrite hardSplit_zero; [reflexivity|]. intros ->. cbn in Hs. lia.
Qed.

Lemma filter_solid (sep : N -> bool) (c : N) (s : jsstring) :
  c ∈ s -> sep c = false -> isWhiteSpace c = false ->
  exists piece,
    piece ∈ List.filter (fun p => 0 <? length (trim p)) (split sep s)
    /\ c ∈ piece.
Proof.
  intros Hin Hsep Hsolid.
  destruct (splitRuns_elem sep c s Hsep [] false) as (piece & Hpiece & Hc);
    [by right|].
  exists piece. split; [|exact Hc].
  apply list_elem_of_In, filter_In. split; [by apply list_elem_of_In|].
  apply Nat.ltb_lt. by apply (trim_solid c).
Qed.

Lemma paragraphStep_zero (st : state) (paragraph : jsstring) (c : N) :
  c ∈ paragraph -> isWhiteSpace c = false -> isSentenceEnd c = false ->
  paragraphStep 0 st paragraph = None.
Proof.
  intros Hin Hsolid Hend. unfold paragraphStep.
  destruct (Nat.ltb_spec 0 (length paragraph)) as [_|Hempty].
  2:{ destruct paragraph; [by apply elem_of_nil in Hin|cbn in Hempty; lia]. }
  apply sentenceLoop_zero.
  - apply Forall_forall. intros s Hs. apply list_elem_of_In in Hs.
    apply filter_In in Hs as [_ Hs]. by apply Nat.ltb_lt.
  - destruct (filter_solid isSentenceEnd c paragraph Hin Hend Hsolid)
      as (piece & Hpiece & _).
    intros Hnil. rewrite Hnil in Hpiece. by apply elem_of_nil in Hpiece.
Qed.

Lemma paragraphLoop_zero (paragraphs : list jsstring) (c : N) :
  isWhiteSpace c = false -> isSentenceEnd c = false ->
  (exists paragraph, paragraph ∈ paragraphs /\ c ∈ paragraph) ->
  forall st, paragraphLoop 0 st paragraphs = None.
Proof.
  intros Hsolid Hend. induction paragraphs as [|p rest IH];
    intros (paragraph & Hin & Hc) st; [by apply elem_of_nil in Hin|].
  cbn [paragraphLoop].
  destruct (paragraphStep 0 st p) as [st'|] eqn:Hstep; [|reflexivity].
  cbn. apply IH. exists paragraph. split; [|exact Hc].
  apply elem_of_cons in Hin as [->|Hin]; [|exact Hin].
  by rewrite (paragraphStep_zero st p c) in Hstep.
Qed.

(** X4: with a limit of zero the loop that cuts a sentence never ends,
    whatever the number of iterations allowed, and the chunker does not
    return on a text that holds a character other than white space and
    sentence ends. *)
Theorem zero_limit_never_returns (text : jsstring) (c : N) :
  c ∈ text -> isWhiteSpace c = false -> isSentenceEnd c = false ->
  (forall fuel remainingSentence out,
     remainingSentence <> [] -> hardSplit fuel 0 remainingSentence out = None)
  /\ splitTextIntoChunks text 0 = None.
Proof.
  intros Hin Hsolid Hend. split; [intros fuel; apply hardSplit_zero|].
  unfold splitTextIntoChunks. rewrite (paragraphLoop_zero _ c); try done.
  apply filter_solid; [exact Hin| |exact Hsolid].
  apply N.eqb_neq. intros <-. discriminate Hsolid.
Qed.

Lemma zero_limit_never_returns_witness :
  (97%N ∈ lit "a")
  /\ isWhiteSpace 97 = false /\ isSentenceEnd 97 = false
  /\ (forall fuel remainingSentence out,
        remainingSentence <> [] ->
        hardSplit fuel 0 remainingSentence out = None)
  /\ splitTextIntoChunks (lit "a") 0 = None.
Proof.
  assert (97%N ∈ lit "a") as Hin by (apply list_elem_of_singleton; reflexivity).
  split; [exact Hin|]. split; [reflexivity|]. split; [reflexivity|].
  apply (zero_limit_never_returns (lit "a") 97 Hin); reflexivity.
Defined.

End ChunkerMore.

(** ** More of the crawler *)

Module CrawlerMore.
Import JS Crawler CrawlerFacts.

(** The URLs of the pages stored. *)
Definition stored (st : state) : list jsstring :=
  pageUrl <$> crawledPages st.

Section Pages.

Variable hostname : jsstring -> option jsstring.
Variable crawlUrl : jsstring -> jsstring * list jsstring.
Variable completionOrder : list jsstring -> list jsstring.
(** Every fetch that is started completes, once. *)
Hypothesis completes : forall started, completionOrder started ≡ₚ started.
Variable baseUrl domain : jsstring.

(** A stored page holds what [crawlUrl] gave for its URL, and is not
    blank. *)
Definition pageOk (p : page) : Prop :=
  pageContent p = (crawlUrl (pageUrl p)).1
  /\ truthy (trim (pageContent p)) = true.

(** What the loops keep true of the pages, [pending] being the URLs whose
    fetch is started and not yet completed. *)
Record pagesOk (st : state) (pending : list jsstring) : Prop := mkPagesOk {
  pages_once : NoDup (stored st ++ pending);
  pages_fetched : Forall (fun u => u ∈ fetched st) (stored st ++ pending);
  pages_content : Forall pageOk (crawledPages st)
}.

Lemma addLinks_crawledPages (links : list jsstring) :
  forall st,
    crawledPages (addLinks hostname domain st links) = crawledPages st.
Proof.
  induction links as [|link links IH]; intros st; [reflexivity|].
  cbn [addLinks]. rewrite IH. by destruct (negb _ && _).
Qed.

Lemma finishUrl_pagesOk (depth crawlDepth : nat) (st : state)
    (u : jsstring) (pending : list jsstring) :
  pagesOk st (u :: pending) ->
  pagesOk (finishUrl hostname crawlUrl domain depth crawlDepth st u) pending.
Proof.
  intros [Honce Hfetched Hcontent].
  assert (NoDup (stored st ++ pending)
          /\ Forall (fun u => u ∈ fetched st) (stored st ++ pending))
    as [Honce' Hfetched'].
  { split.
    - apply NoDup_app in Honce as (Hs & Hdisj & Hp).
      apply NoDup_cons in Hp as [_ Hp]. apply NoDup_app.
      split; [exact Hs|]. split; [|exact Hp].
      intros x Hx Hin. apply (Hdisj x Hx). by apply elem_of_cons; right.
    - apply Forall_app in Hfetched as [Hs Hp].
      apply Forall_cons in Hp as [_ Hp]. by apply Forall_app. }
  assert (stored st ++ u :: pending = (stored st ++ [u]) ++ pending) as Hassoc
    by (by rewrite <- app_assoc).
  assert (forall st',
            fetched st' = fetched st ->
            (crawledPages st' = crawledPages st
             \/ (crawledPages st'
                 = crawledPages st ++ [mkPage u (crawlUrl u).1]
                 /\ truthy (trim (crawlUrl u).1) = true)) ->
            pagesOk st' pending) as Hcases.
  { intros st' Hf [Hsame|[Hpush Hsolid]]; unfold stored in *.
    - split; unfold stored; rewrite ?Hsame, ?Hf; assumption.
    - split; unfold stored; rewrite ?Hpush, ?Hf, ?fmap_app;
        cbn [fmap list_fmap pageUrl].
      + by rewrite <- Hassoc.
      + by rewrite <- Hassoc.
      + apply Forall_app. split; [exact Hcontent|].
        constructor; [by split|constructor]. }
  apply Hcases; [apply finishUrl_fetched|].
  unfold finishUrl. destruct (crawlUrl u) as [content links] eqn:Hcrawl.
  cbn [fst].
  destruct (depth <? crawlDepth - 1); rewrite ?addLinks_crawledPages;
    (destruct (truthy content && truthy (trim content)) eqn:Hkeep;
     [right; apply andb_true_iff in Hkeep as [_ Hsolid]; by split|by left]).
Qed.

Lemma finishAll_pagesOk (depth crawlDepth : nat) (started : list jsstring) :
  forall st,
    pagesOk st started ->
    pagesOk (foldl (finishUrl hostname crawlUrl domain depth crawlDepth) st
               started) [].
Proof.
  induction started as [|u us IH]; intros st Hok; [exact Hok|].
  cbn [foldl]. by apply IH, finishUrl_pagesOk.
Qed.

Lemma startBatch_started (urlBatch : list jsstring) :
  forall st,
    crawledPages (startBatch st urlBatch).1 = crawledPages st
    /\ fetched (startBatch st urlBatch).1
       = fetched st ++ (startBatch st urlBatch).2.
Proof.
  induction urlBatch as [|u urlBatch IH]; intros st; cbn [startBatch].
  - by rewrite app_nil_r.
  - case_bool_decide; [apply IH|].
    match goal with
    | |- context [startBatch ?st' urlBatch] =>
        destruct (IH st') as [Hp Hf];
        destruct (startBatch st' urlBatch) as [st'' started]
    end.
    cbn in *. by rewrite Hp, Hf, <- app_assoc.
Qed.

Lemma processBatch_pagesOk (depth crawlDepth : nat) (st : state)
    (urlBatch : list jsstring) :
  Forall (allowed hostname baseUrl domain) urlBatch ->
  invariant hostname baseUrl domain st ->
  pagesOk st [] ->
  pagesOk (processBatch hostname crawlUrl completionOrder domain depth
             crawlDepth st urlBatch) [].
Proof.
  intros Hbatch Hinv [Honce Hfetched Hcontent]. unfold processBatch.
  pose proof (startBatch_invariant hostname crawlUrl completionOrder baseUrl
                domain urlBatch Hbatch st Hinv) as Hstart.
  destruct (startBatch_started urlBatch st) as [Hpages Hf].
  destruct (startBatch st urlBatch) as [st' started]. cbn in *.
  apply finishAll_pagesOk. rewrite app_nil_r in Honce, Hfetched.
  pose proof (fetched_once _ _ _ _ Hstart) as Hnodup. rewrite Hf in Hnodup.
  apply NoDup_app in Hnodup as (_ & Hdisj & Hstarted).
  rewrite Forall_forall in Hfetched.
  split; unfold stored; rewrite Hpages, ?Hf, ?completes.
  - apply NoDup_app. split; [exact Honce|]. split; [|exact Hstarted].
    intros x Hx. apply Hdisj. by apply Hfetched.
  - apply Forall_app. split; apply Forall_forall; intros x Hx;
      apply elem_of_app; [left; by apply Hfetched|by right].
  - exact Hcontent.
Qed.

Lemma crawlLevel_pagesOk (depth crawlDepth : nat) (st : state)
    (urlsToCrawl : list jsstring) :
  Forall (allowed hostname baseUrl domain) urlsToCrawl ->
  invariant hostname baseUrl domain st ->
  pagesOk st [] ->
  pagesOk (crawlLevel hostname crawlUrl completionOrder domain depth
             crawlDepth st urlsToCrawl) [].
Proof.
  intros Hurls Hinv Hok. unfold crawlLevel.
  pose proof (batches_Forall _ (length urlsToCrawl) batchSize urlsToCrawl
                Hurls) as Hbatches.
  match goal with
  | |- pagesOk (foldl _ ?st0 _) _ =>
      assert (invariant hostname baseUrl domain st0 /\ pagesOk st0 [])
        as [Hinv0 Hok0]
  end.
  { split; [destruct Hinv; split; cbn; try assumption; constructor|].
    by destruct Hok. }
  revert Hinv0 Hok0.
  generalize (mkState (visitedUrls st) [] (crawledPages st) (fetched st)).
  induction Hbatches as [|b bs Hb _ IH]; intros st0 Hinv0 Hok0; [exact Hok0|].
  cbn [foldl]. apply IH.
  - by apply processBatch_invariant.
  - by apply processBatch_pagesOk.
Qed.

Lemma crawlLoop_pagesOk (crawlDepth remaining : nat) :
  forall depth st urlsToCrawl,
    Forall (allowed hostname baseUrl domain) urlsToCrawl ->
    invariant hostname baseUrl domain st ->
    pagesOk st [] ->
    pagesOk (crawlLoop hostname crawlUrl completionOrder domain remaining
               depth crawlDepth st urlsToCrawl) [].
Proof.
  induction remaining as [|remaining IH];
    intros depth st urls Hurls Hinv Hok; [exact Hok|].
  cbn [crawlLoop].
  pose proof (crawlLevel_invariant hostname crawlUrl completionOrder baseUrl
                domain depth crawlDepth st urls Hurls Hinv) as Hlevel.
  pose proof (crawlLevel_pagesOk depth crawlDepth st urls Hurls Hinv Hok)
    as Hpages.
  pose proof (dedupe_Forall _ _ (links_allowed _ _ _ _ Hlevel) ∅) as Hnext.
  destruct (dedupe ∅ _) as [|next rest]; [exact Hpages|].
  by apply IH.
Qed.

Lemma crawl_pagesOk (crawlDepth : nat) :
  pagesOk (crawl hostname crawlUrl completionOrder baseUrl domain crawlDepth)
    [].
Proof.
  apply crawlLoop_pagesOk.
  - constructor; [by left|constructor].
  - split; cbn; [constructor| |constructor|constructor].
    intros url. rewrite elem_of_nil. set_solver.
  - split; cbn; constructor.
Qed.

End Pages.

(** X5: when every fetch that is started completes once, in any order, the
    pages the crawl stores have URL strings that differ from one another,
    each of them a string that was fetched; a stored page holds the text
    [crawlUrl] extracted under that string, which is not blank; so there are
    no more pages than fetches. Two spellings of one address are two
    strings here, as they are for the crawl. *)
Theorem stored_pages_are_distinct_and_not_blank
    (hostname : jsstring -> option jsstring)
    (crawlUrl : jsstring -> jsstring * list jsstring)
    (completionOrder : list jsstring -> list jsstring)
    (baseUrl domain : jsstring) (crawlDepth : nat) :
  (forall started, completionOrder started ≡ₚ started) ->
  let st := crawl hostname crawlUrl completionOrder baseUrl domain crawlDepth in
  NoDup (pageUrl <$> crawledPages st)
  /\ (forall p,
        p ∈ crawledPages st ->
        pageUrl p ∈ fetched st
        /\ pageContent p = (crawlUrl (pageUrl p)).1
        /\ truthy (trim (pageContent p)) = true)
  /\ length (crawledPages st) <= length (fetched st).
Proof.
  intros Hcompletes. cbn zeta.
  destruct (crawl_pagesOk hostname crawlUrl completionOrder Hcompletes
              baseUrl domain crawlDepth) as [Honce Hfetched Hcontent].
  rewrite app_nil_r in Honce, Hfetched. unfold stored in *.
  rewrite Forall_forall in Hfetched. rewrite Forall_forall in Hcontent.
  split; [exact Honce|]. split.
  - intros p Hp. split; [|by apply Hcontent].
    apply Hfetched. by apply list_elem_of_fmap_2.
  - rewrite <- (length_fmap pageUrl). apply submseteq_length.
    apply NoDup_submseteq; [exact Honce|exact Hfetched].
Qed.

(** A site of two pages that link to each other, the second one blank. *)
Definition twoPages (url : jsstring) : jsstring * list jsstring :=
  if bool_decide (url = lit "https://a.test")
  then (lit "Home", [lit "https://a.test/b"])
  else (lit " ", [lit "https://a.test"]).

Lemma stored_pages_are_distinct_and_not_blank_witness :
  (forall started : list jsstring, reverse started ≡ₚ started)
  /\ let st := crawl (fun _ => Some (lit "a.test")) twoPages reverse
                 (lit "https://a.test") (lit "a.test") 2 in
     NoDup (pageUrl <$> crawledPages st)
     /\ (forall p,
           p ∈ crawledPages st ->
           pageUrl p ∈ fetched st
           /\ pageContent p = (twoPages (pageUrl p)).1
           /\ truthy (trim (pageContent p)) = true)
     /\ length (crawledPages st) <= length (fetched st).
Proof.
  split; [intros started; apply reverse_Permutation|].
  apply (stored_pages_are_distinct_and_not_blank
           (fun _ => Some (lit "a.test")) twoPages reverse).
  intros started. apply reverse_Permutation.
Defined.

End CrawlerMore.

(** ** More of the validator *)

Module ValidateMore.
Import JS Validate JSFacts.

(** The text after a number does not go on with a digit. *)
Definition noDigitAhead (rest : jsstring) : Prop :=
  match rest with
  | [] => True
  | c :: _ => digitValue c = None
  end.

Lemma parseDigits_rest (v : Z) (rest : jsstring) :
  noDigitAhead rest -> parseDigits (Some v) rest = Some v.
Proof. destruct rest as [|c rest]; [done|]. cbn. by intros ->. Qed.

Lemma parseDigits_digits_rest (d : Decimal.uint) (rest : jsstring) :
  noDigitAhead rest ->
  forall acc,
    parseDigits (Some acc) (lit (NilEmpty.string_of_uint d) ++ rest)
    = Some (uintValue acc d).
Proof.
  intros Hrest. induction d; intros acc;
    [by apply parseDigits_rest|..]; apply IHd.
Qed.

Lemma parseInt10_digits_rest (d : Decimal.uint) (rest : jsstring) :
  d <> Decimal.Nil -> noDigitAhead rest ->
  parseInt10 (lit (NilEmpty.string_of_uint d) ++ rest) = Some (uintValue 0 d)
  /\ parseDigits None (lit (NilEmpty.string_of_uint d) ++ rest)
     = Some (uintValue 0 d).
Proof.
  intros Hd Hrest.
  destruct d; [done|..]; split; apply (parseDigits_digits_rest d rest Hrest).
Qed.

Lemma parseInt10_blank (blank s : jsstring) :
  Forall (fun c => isWhiteSpace c = true) blank ->
  parseInt10 (blank ++ s) = parseInt10 s.
Proof.
  intros Hblank. unfold parseInt10.
  induction Hblank as [|c blank Hc _ IH]; [reflexivity|].
  cbn [app dropWhile]. by rewrite Hc.
Qed.

(** [parseInt] reads a number back from its decimal form, whatever white
    space comes before it and whatever text that does not start with a
    digit comes after it. *)
Lemma parseInt10_decimal_rest (blank rest : jsstring) (z : Z) :
  Forall (fun c => isWhiteSpace c = true) blank ->
  noDigitAhead rest ->
  parseInt10 (blank ++ decimal z ++ rest) = Some z.
Proof.
  intros Hblank Hrest. rewrite parseInt10_blank by exact Hblank.
  pose proof DecimalPos.Unsigned.to_uint_nonnil as Hnil.
  destruct z as [|p|p].
  - change (decimal 0) with (lit (NilEmpty.string_of_uint (Decimal.D0 Decimal.Nil))).
    by apply parseInt10_digits_rest.
  - unfold decimal; cbn [Z.to_int NilZero.string_of_int].
    rewrite string_of_to_uint.
    destruct (parseInt10_digits_rest (Pos.to_uint p) rest) as [-> _];
      [apply Hnil|exact Hrest|].
    by rewrite uintValue_to_uint.
  - unfold decimal; cbn [Z.to_int NilZero.string_of_int].
    rewrite string_of_to_uint.
    change (lit (String "-" ?s)) with (45%N :: lit s).
    change (parseInt10 ((45%N :: ?s) ++ ?r))
      with (Z.opp <$> parseDigits None (s ++ r)).
    destruct (parseInt10_digits_rest (Pos.to_uint p) rest) as [_ ->];
      [apply Hnil|exact Hrest|].
    by rewrite uintValue_to_uint.
Qed.

(** X6: a bounded setting that is given as a string is judged by the
    integer it starts with, as [parseInt] reads it: white space before the
    number and any text after its digits are ignored, and the check adds its
    message exactly when that integer is outside the bounds. *)
Theorem setting_is_judged_by_leading_integer
    (fields : list (string * json)) (key : string) (lo hi : Z)
    (message blank rest : jsstring) (n : Z) :
  getField fields key = Some (JStr (blank ++ decimal n ++ rest)) ->
  Forall (fun c => isWhiteSpace c = true) blank ->
  noDigitAhead rest ->
  forall errors,
    checkBound (JObj fields) key lo hi message errors
    = (Ok tt,
       if (n <? lo)%Z || (hi <? n)%Z then errors ++ [message] else errors).
Proof.
  intros Hfield Hblank Hrest errors.
  unfold checkBound, bind, lift. cbn [getProp]. rewrite Hfield.
  cbn [toString]. rewrite parseInt10_decimal_rest by assumption.
  by destruct ((n <? lo)%Z || (hi <? n)%Z).
Qed.

Lemma setting_is_judged_by_leading_integer_witness :
  getField [("crawlDepth", JStr (lit " 2 levels"))] "crawlDepth"
  = Some (JStr (lit " " ++ decimal 2 ++ lit " levels"))
  /\ Forall (fun c => isWhiteSpace c = true) (lit " ")
  /\ noDigitAhead (lit " levels")
  /\ forall errors,
       checkBound (JObj [("crawlDepth", JStr (lit " 2 levels"))]) "crawlDepth"
         1 3 (lit "Invalid crawlDepth: must be a number between 1 and 3")
         errors
       = (Ok tt, errors).
Proof.
  assert (Forall (fun c => isWhiteSpace c = true) (lit " ")) as Hblank
    by (repeat constructor).
  split; [reflexivity|]. split; [exact Hblank|]. split; [reflexivity|].
  apply (setting_is_judged_by_leading_integer
           [("crawlDepth", JStr (lit " 2 levels"))] "crawlDepth" 1 3 _
           (lit " ") (lit " levels") 2 eq_refl Hblank eq_refl).
Defined.

(** X7: what the validator hands on. The tenant is always the input's; an
    accepted input is handed on with its data sources and configuration as
    they came, and a rejected one with at least one error, an empty list of
    data sources and an empty configuration. *)
Theorem rejected_input_is_not_handed_on
    (dynamoGet : option json -> tenantResult) (ev : event) :
  let v := handler dynamoGet ev in
  validatedTenantId v = tenantId ev
  /\ (if isValid v
      then validatedDataSources v = dataSources ev
           /\ validatedConfig v = config ev
      else errors v <> []
           /\ validatedDataSources v = Some (JArr [])
           /\ validatedConfig v = Some (JObj [])).
Proof.
  cbn zeta. unfold handler.
  destruct ((checkTenant dynamoGet ev;;; checkDataSources ev;;; checkConfig ev) [])
    as [[[]|message] errs]; cbn [isValid errors validatedTenantId
                                 validatedDataSources validatedConfig].
  - split; [reflexivity|]. destruct errs; cbn; [by split|]. by repeat split.
  - split; [reflexivity|]. by repeat split.
Qed.

(** X8: the validator reads the tenant table at the input's [tenantId]
    only, and not at all when that is missing: two tables that agree there
    give the same result. *)
Theorem tenant_is_looked_up_by_its_id
    (dynamoGet dynamoGet' : option json -> tenantResult) (ev : event) :
  (truthyValue (tenantId ev) = true ->
   dynamoGet' (tenantId ev) = dynamoGet (tenantId ev)) ->
  handler dynamoGet' ev = handler dynamoGet ev.
Proof.
  intros Hsame. unfold handler, checkTenant.
  destruct (truthyValue (tenantId ev)); [|reflexivity].
  by rewrite Hsame.
Qed.

(** A table that knows the tenant [acme] and answers [other] anywhere
    else. *)
Definition knows (other : tenantResult) (id : option json) : tenantResult :=
  match id with
  | Some (JStr s) =>
      if bool_decide (s = lit "acme") then Item (JObj []) else other
  | _ => other
  end.

Definition acme : event := mkEvent (Some (JStr (lit "acme"))) None None.

Lemma tenant_is_looked_up_by_its_id_witness :
  (truthyValue (tenantId acme) = true ->
   knows (GetRejected (lit "timeout")) (tenantId acme)
   = knows NoItem (tenantId acme))
  /\ handler (knows (GetRejected (lit "timeout"))) acme
     = handler (knows NoItem) acme.
Proof.
  assert (truthyValue (tenantId acme) = true ->
          knows (GetRejected (lit "timeout")) (tenantId acme)
          = knows NoItem (tenantId acme)) as Hsame by reflexivity.
  split; [exact Hsame|].
  apply (tenant_is_looked_up_by_its_id (knows NoItem)
           (knows (GetRejected (lit "timeout"))) acme Hsame).
Defined.

End ValidateMore.

(** ** The notifications of the error handler *)

Module ErrorHandlerCallsFacts.
Import JS Calls ErrorHandler Pipeline.

(** The handler returns the same record whatever its calls do. *)
Lemma handler_result (w : world) (error message : option jsstring) :
  ErrorHandler.handler w error message
  = Ok (mkHandled (orElse error "UnknownError")
          (orElse message "An unknown error occurred")
          (isRecoverableError (orElse error "UnknownError")) None).
Proof.
  unfold handler, storeErrorInDynamoDB, publishErrorNotification,
    recordErrorMetric.
  destruct (dynamoPut w), (snsPublish w), (putMetricData w),
    (isCriticalError (orElse error "UnknownError")); reflexivity.
Qed.

(** The handler with its calls is the handler, and its calls are the record
    of the error, the notification when the error is critical, and the
    metric. *)
Lemma handler_calls (w : world) (error message : option jsstring) :
  let errorType := orElse error "UnknownError" in
  let errorMessage := orElse message "An unknown error occurred" in
  ErrorHandlerCalls.handler w error message []
  = (ErrorHandler.handler w error message,
     [ErrorHandlerCalls.DynamoPut errorType errorMessage]
     ++ (if isCriticalError errorType
         then [ErrorHandlerCalls.SnsPublish errorType errorMessage] else [])
     ++ [ErrorHandlerCalls.PutMetricData errorType]).
Proof.
  cbn zeta.
  unfold ErrorHandlerCalls.handler, ErrorHandler.handler,
    ErrorHandlerCalls.storeErrorInDynamoDB, storeErrorInDynamoDB,
    ErrorHandlerCalls.publishErrorNotification, publishErrorNotification,
    ErrorHandlerCalls.recordErrorMetric, recordErrorMetric,
    try, bind, request, ret.
  destruct (dynamoPut w), (snsPublish w), (putMetricData w),
    (isCriticalError (orElse error "UnknownError")); reflexivity.
Qed.

(** X9: whatever the three service calls do, the error handler makes each
    of them, the record of the error, the notification when the error is
    critical, and the metric, a failed call not keeping the later ones from
    being made; and it returns the same record: the type and the message of
    the error, or their defaults, whether the type is recoverable, and no
    error of its own. *)
Theorem handler_reports_whatever_services_do (w : world)
    (error message : option jsstring) :
  let errorType := orElse error "UnknownError" in
  let errorMessage := orElse message "An unknown error occurred" in
  ErrorHandlerCalls.handler w error message []
  = (Ok (mkHandled errorType errorMessage (isRecoverableError errorType) None),
     [ErrorHandlerCalls.DynamoPut errorType errorMessage]
     ++ (if isCriticalError errorType
         then [ErrorHandlerCalls.SnsPublish errorType errorMessage] else [])
     ++ [ErrorHandlerCalls.PutMetricData errorType])
  /\ (ErrorHandlerCalls.handler w error message []).1
     = ErrorHandler.handler w error message.
Proof.
  cbn zeta. rewrite handler_calls, handler_result. by split.
Qed.

(** The error handler as a state of the machine calls it. *)
Definition handlerAt (w : world) (Params : list (string * string))
    : result handled * list ErrorHandlerCalls.call :=
  ErrorHandlerCalls.handler w (parameter Params "error")
    (parameter Params "message") [].

Definition notifies (c : ErrorHandlerCalls.call) : bool :=
  match c with
  | ErrorHandlerCalls.SnsPublish _ _ => true
  | _ => false
  end.

Definition recoverable (r : result handled) : bool :=
  match r with
  | Ok h => isRecoverable h
  | Throw _ => false
  end.

(** X10: no error type is both critical and recoverable; of the error
    states of the state machine, the one of a rejected input is the only one
    whose error is notified: a failure of a data source or of a tenant-level
    step is recorded and counted but never published, whatever the services
    do; and none of the machine's errors is reported as recoverable. *)
Theorem only_validation_errors_are_notified (w : world) :
  (forall errorType,
      isCriticalError errorType && isRecoverableError errorType = false)
  /\ (forall s Params Retry Catch Next,
        iterator s = Task ErrorHandlerFunctionArn Params Retry Catch Next ->
        existsb notifies (handlerAt w Params).2 = false
        /\ recoverable (handlerAt w Params).1 = false)
  /\ (forall s Params Retry Catch Next,
        machine s = Task ErrorHandlerFunctionArn Params Retry Catch Next ->
        existsb notifies (handlerAt w Params).2
        = bool_decide (s = ValidationError)
        /\ recoverable (handlerAt w Params).1 = false).
Proof.
  split; [|split].
  - intros errorType.
    destruct (isCriticalError errorType) eqn:Hcritical; [|reflexivity].
    unfold isCriticalError, includes in Hcritical.
    apply existsb_exists in Hcritical as (x & Hin & Hx).
    apply bool_decide_eq_true in Hx as <-.
    cbn [In] in Hin.
    repeat (destruct Hin as [<-|Hin]; [vm_compute; reflexivity|]).
    destruct Hin.
  - intros s Params Retry Catch Next Hs. unfold handlerAt.
    rewrite handler_calls, handler_result.
    destruct s; cbn [iterator errorTask] in Hs; try discriminate Hs;
      injection Hs as <- <- <- <-; split; vm_compute; reflexivity.
  - intros s Params Retry Catch Next Hs. unfold handlerAt.
    rewrite handler_calls, handler_result.
    destruct s; cbn [machine errorTask] in Hs; try discriminate Hs;
      injection Hs as <- <- <- <-; split; vm_compute; reflexivity.
Qed.

End ErrorHandlerCallsFacts.

(** ** More of the state machine *)

Module PipelineMore.
Import JS Pipeline PipelineFacts.

(** An input with nothing in it, and a world in which every call fails. *)
Definition emptyEvent : Validate.event := Validate.mkEvent None None None.

Definition allFailing : env :=
  mkEnv (fun _ _ => Raised "ServiceException")
    (fun _ _ =>
       ErrorHandler.mkWorld (Throw (lit "down")) (Throw (lit "down"))
         (Throw (lit "down")))
    (fun _ => Validate.GetRejected (lit "down")).

(** X11: an input that the validator rejects goes from the check to the
    [ValidationError] state and ends there, whatever the error handler's
    service calls do: no data source is processed and no later step runs;
    the execution itself ends normally. *)
Theorem rejected_input_runs_no_source (e : env) (ev : Validate.event) :
  Validate.isValid (Validate.handler (dynamoGet e) ev) = false ->
  execute e ev
  = mkOutcome
      (mkExecution [ValidateInput; CheckValidationResult; ValidationError]
         (Succeeded None))
      [].
Proof.
  intros Hinvalid. unfold execute. rewrite Hinvalid.
  enter. rewrite settle_no_retry. cbn [invoke].
  enter. cbn [choose ruleMatches Bool.eqb].
  enter. rewrite settle_no_retry, invoke_handler. cbn [trace app].
  rewrite bool_decide_eq_false_2; [reflexivity|].
  intros Hin.
  repeat (apply elem_of_cons in Hin as [Hin|Hin]; [discriminate Hin|]).
  by apply elem_of_nil in Hin.
Qed.

Lemma rejected_input_runs_no_source_witness :
  Validate.isValid (Validate.handler (dynamoGet allFailing) emptyEvent) = false
  /\ execute allFailing emptyEvent
     = mkOutcome
         (mkExecution [ValidateInput; CheckValidationResult; ValidationError]
            (Succeeded None))
         [].
Proof.
  split; [reflexivity|].
  apply (rejected_input_runs_no_source allFailing emptyEvent). reflexivity.
Defined.

(** *** Retries *)

Section Window.

Context {St : Type}.
Variable invokeAt invokeAt' : St -> resource -> list (string * string) -> nat
                              -> taskOutcome.

(** A Task with one retrier looks at no invocation beyond the retries it
    has left. *)
Lemma attempts_window (s : St) (Resource : resource)
    (Params : list (string * string)) (r : retrier) (fuel : nat) :
  forall count attempt,
    (forall n,
        attempt <= n <= attempt + (MaxAttempts r - count) ->
        invokeAt' s Resource Params n = invokeAt s Resource Params n) ->
    attempts invokeAt' fuel s Resource Params [r] [count] attempt
    = attempts invokeAt fuel s Resource Params [r] [count] attempt.
Proof.
  induction fuel as [|fuel IH]; intros count attempt Hsame; [reflexivity|].
  cbn [attempts]. rewrite Hsame by lia.
  destruct (invokeAt s Resource Params attempt); [reflexivity|].
  cbn [findRetrier]. destruct (errorMatches (ErrorEquals r) error);
    [|reflexivity].
  change ([count] !!! 0) with count.
  destruct (Nat.ltb_spec count (MaxAttempts r)); [|reflexivity].
  apply IH. intros n Hn. apply Hsame. lia.
Qed.

Lemma settle_window (s : St) (Resource : resource)
    (Params : list (string * string)) (errors : list string) :
  (forall n, n <= 3 ->
             invokeAt' s Resource Params n = invokeAt s Resource Params n) ->
  settle invokeAt' s Resource Params (retryOn errors)
  = settle invokeAt s Resource Params (retryOn errors).
Proof.
  intros Hsame. apply attempts_window. intros n Hn. apply Hsame.
  cbn in Hn. lia.
Qed.

(** An error that the retrier does not list is not retried. *)
Lemma settle_unlisted (s : St) (Resource : resource)
    (Params : list (string * string)) (errors : list string) (error : string) :
  invokeAt s Resource Params 0 = Raised error ->
  errorMatches errors error = false ->
  settle invokeAt s Resource Params (retryOn errors) = Some (Raised error).
Proof.
  intros Hfirst Hunlisted. unfold settle, retryOn.
  cbn [fmap list_fmap MaxAttempts list_sum foldr Nat.add attempts].
  rewrite Hfirst. cbn [findRetrier ErrorEquals]. by rewrite Hunlisted.
Qed.

End Window.

(** The states of a source's sub-pipeline that call a stage. *)
Definition stages : list iterState :=
  [CrawlWebsite; FetchFromApi; ProcessDocument; ExtractText;
   GenerateEmbeddings; StoreEmbeddings].

(** The errors on which a stage is called again. *)
Definition retried (s : iterState) : list string :=
  match iterator s with
  | Task _ _ [r] _ _ => ErrorEquals r
  | _ => []
  end.

(** A world in which every stage is throttled for ever. *)
Definition throttled : env :=
  mkEnv (fun _ _ => Raised "ServiceException")
    (fun _ _ => ErrorHandler.mkWorld (Ok tt) (Ok tt) (Ok tt))
    (fun _ => Validate.NoItem).

(** X12: a state of a source's sub-pipeline calls its function at most four
    times, once and three retries: how it settles depends on the first four
    outcomes only; and a stage whose four calls all fail with
    [ServiceException] gives up with that error. *)
Theorem stage_is_called_at_most_four_times (e e' : env) (index : nat)
    (s : iterState) :
  (forall attempt,
      attempt <= 3 ->
      outcomes e' (AtSource index s) attempt
      = outcomes e (AtSource index s) attempt) ->
  stageSettles e' index s = stageSettles e index s
  /\ (s ∈ stages ->
      (forall attempt,
          attempt <= 3 ->
          outcomes e (AtSource index s) attempt = Raised "ServiceException") ->
      stageSettles e index s = Some (Raised "ServiceException")).
Proof.
  assert (forall e1 e2,
            (forall attempt,
                attempt <= 3 ->
                outcomes e2 (AtSource index s) attempt
                = outcomes e1 (AtSource index s) attempt) ->
            stageSettles e2 index s = stageSettles e1 index s) as Hwindow.
  { intros e1 e2 Hsame. unfold stageSettles.
    destruct s; cbn [iterator errorTask]; try reflexivity;
      try (rewrite !settle_no_retry, !invoke_handler; reflexivity);
      apply settle_window; intros n Hn; cbn [invoke]; by apply Hsame. }
  intros Hsame. split; [by apply Hwindow|].
  intros Hstage Hfails. rewrite <- (Hwindow e throttled).
  - unfold stages in Hstage.
    repeat (apply elem_of_cons in Hstage as [->|Hstage];
            [vm_compute; reflexivity|]).
    by apply elem_of_nil in Hstage.
  - intros attempt Hn. by rewrite Hfails.
Qed.

Lemma stage_is_called_at_most_four_times_witness :
  (forall attempt,
      attempt <= 3 ->
      outcomes allFailing (AtSource 0 ExtractText) attempt
      = outcomes throttled (AtSource 0 ExtractText) attempt)
  /\ stageSettles allFailing 0 ExtractText = stageSettles throttled 0 ExtractText
  /\ (ExtractText ∈ stages ->
      (forall attempt,
          attempt <= 3 ->
          outcomes throttled (AtSource 0 ExtractText) attempt
          = Raised "ServiceException") ->
      stageSettles throttled 0 ExtractText = Some (Raised "ServiceException")).
Proof.
  assert (forall attempt,
             attempt <= 3 ->
             outcomes allFailing (AtSource 0 ExtractText) attempt
             = outcomes throttled (AtSource 0 ExtractText) attempt) as Hsame
    by (intros attempt _; reflexivity).
  split; [exact Hsame|].
  apply (stage_is_called_at_most_four_times throttled allFailing 0 ExtractText
           Hsame).
Defined.

(** X13: a stage is called again only after an error its retrier lists,
    [ServiceException] and, for the crawl and the fetch from an API,
    [TooManyRequestsException]: any other error of its first call, an
    ordinary exception of the function included, is the stage's outcome. *)
Theorem unlisted_error_is_not_retried (e : env) (index : nat) (s : iterState)
    (error : string) :
  s ∈ stages ->
  outcomes e (AtSource index s) 0 = Raised error ->
  error ∉ retried s ->
  stageSettles e index s = Some (Raised error).
Proof.
  intros Hstage Hfirst Hunlisted. unfold stages in Hstage.
  assert (forall names,
            error ∉ names ->
            Forall (fun n => n <> "States.ALL"%string) names ->
            errorMatches names error = false) as Hmatch.
  { intros names Hnot Hall. unfold errorMatches.
    induction Hall as [|n names Hn _ IH]; [reflexivity|].
    apply not_elem_of_cons in Hnot as [Hne Hnot]. cbn [existsb].
    rewrite IH by exact Hnot.
    apply String.eqb_neq in Hn as ->.
    assert (n <> error) as ->%String.eqb_neq by congruence. reflexivity. }
  unfold stageSettles.
  repeat (apply elem_of_cons in Hstage as [->|Hstage];
          [cbn [iterator];
           apply settle_unlisted; [exact Hfirst|];
           apply Hmatch; [exact Hunlisted|by repeat constructor]|]).
  by apply elem_of_nil in Hstage.
Qed.

Definition crashing : env :=
  mkEnv (fun _ _ => Raised "Error")
    (fun _ _ => ErrorHandler.mkWorld (Ok tt) (Ok tt) (Ok tt))
    (fun _ => Validate.NoItem).

Lemma unlisted_error_is_not_retried_witness :
  (CrawlWebsite ∈ stages)
  /\ outcomes crashing (AtSource 0 CrawlWebsite) 0 = Raised "Error"
  /\ ("Error"%string ∉ retried CrawlWebsite)
  /\ stageSettles crashing 0 CrawlWebsite = Some (Raised "Error").
Proof.
  assert (CrawlWebsite ∈ stages) as Hstage by (apply list_elem_of_here).
  assert ("Error"%string ∉ retried CrawlWebsite) as Hunlisted.
  { apply (bool_decide_unpack _). vm_compute. exact I. }
  split; [exact Hstage|]. split; [reflexivity|]. split; [exact Hunlisted|].
  apply (unlisted_error_is_not_retried crashing 0 CrawlWebsite "Error" Hstage
           eq_refl Hunlisted).
Defined.

(** X14: a data source whose [type] is none of the three goes from the
    choice to [InvalidSourceType] and ends as failed; no stage is called for
    it, whatever the world is. *)
Theorem unknown_type_fails_without_a_stage (e : env) (index : nat)
    (source v : json) :
  sourceType source = Some v ->
  Validate.isSourceType (Some v) = false ->
  runBranch e index source
  = mkExecution [DetermineSourceType; InvalidSourceType; SourceProcessingFailed]
      (Succeeded (Some "failed")).
Proof.
  intros Hv Hunknown. unfold runBranch. enter. rewrite Hv.
  assert (choose [(JStr (lit "website"), CrawlWebsite);
                  (JStr (lit "api"), FetchFromApi);
                  (JStr (lit "document"), ProcessDocument)]
            InvalidSourceType v = InvalidSourceType) as ->.
  { destruct v; try reflexivity. cbn [choose ruleMatches].
    cbn [Validate.isSourceType] in Hunknown.
    apply orb_false_iff in Hunknown as [Hunknown Hdoc].
    apply orb_false_iff in Hunknown as [Hweb Hapi].
    apply bool_decide_eq_false in Hweb, Hapi, Hdoc.
    rewrite !bool_decide_eq_false_2 by congruence. reflexivity. }
  enter. rewrite settle_no_retry, invoke_handler. enter. reflexivity.
Qed.

Lemma unknown_type_fails_without_a_stage_witness :
  sourceType (JObj [("type", JStr (lit "ftp"))]) = Some (JStr (lit "ftp"))
  /\ Validate.isSourceType (Some (JStr (lit "ftp"))) = false
  /\ runBranch allFailing 0 (JObj [("type", JStr (lit "ftp"))])
     = mkExecution
         [DetermineSourceType; InvalidSourceType; SourceProcessingFailed]
         (Succeeded (Some "failed")).
Proof.
  split; [reflexivity|]. split; [reflexivity|].
  apply (unknown_type_fails_without_a_stage allFailing 0 _ (JStr (lit "ftp")));
    reflexivity.
Defined.

(** *** The tenant-level steps *)

(** How the Task of a tenant-level step settles. *)
Definition stepSettles (e : env) (s : topState) : option taskOutcome :=
  match machine s with
  | Task Resource Params Retry _ _ =>
      settle (fun s => invoke e (AtTop s)) s Resource Params Retry
  | _ => None
  end.

Definition stepFails (e : env) (s : topState) : Prop :=
  exists error, stepSettles e s = Some (Raised error).

(** X15: on a valid input the failure of a tenant-level step is recorded in
    its error state exactly when the step fails, its retries used up; a
    failure of [AnalyzeResults], which no state catches, fails the execution
    before [NotifyCompletion]. *)
Theorem tenant_step_failure_is_recorded (e : env) (ev : Validate.event) :
  Validate.isValid (Validate.handler (dynamoGet e) ev) = true ->
  let t := top (execute e ev) in
  (MemoryConfigError ∈ trace t <-> stepFails e ConfigureMemoryDuration)
  /\ (MetadataError ∈ trace t <-> stepFails e UpdateMetadata)
  /\ (ScheduleError ∈ trace t <-> stepFails e ScheduleNextCrawl)
  /\ (forall error,
        outcomes e (AtTop AnalyzeResults) 0 = Raised error ->
        final t = Failed error /\ NotifyCompletion ∉ trace t).
Proof.
  intros Hvalid. cbn zeta. rewrite (top_valid e ev Hvalid).
  unfold stepFails, stepSettles. cbn [machine].
  enter. rewrite settle_no_retry. cbn [invoke].
  enter. cbn [choose ruleMatches Bool.eqb].
  enter. enter.
  settle_task; [enter|handle_error].
  all: settle_task; [enter|handle_error].
  all: settle_task; [enter|handle_error].
  all: rewrite settle_no_retry; cbn [invoke].
  all: destruct (outcomes e (AtTop AnalyzeResults) 0) as [|failure];
    [enter; rewrite settle_no_retry; cbn [invoke];
     destruct (outcomes e (AtTop NotifyCompletion) 0)|];
    cbn [findCatcher trace final app].
  all: repeat match goal with
         | H : settle _ _ _ _ _ = _ |- _ => rewrite H; clear H
         end.
  all: split; [|split; [|split]];
    try (split;
         [intros Hin;
          first [by eexists
                |exfalso; revert Hin; apply (bool_decide_eq_false_1 _);
                 vm_compute; reflexivity]
         |intros [failed Hfailed];
          first [apply (bool_decide_unpack _); vm_compute; exact I
                |discriminate Hfailed]]).
  all: intros failed Hfailed; try discriminate Hfailed.
  all: injection Hfailed as <-; split; [reflexivity|].
  all: apply (bool_decide_eq_false_1 _); vm_compute; reflexivity.
Qed.

Definition oneWebsite : Validate.event :=
  Validate.mkEvent (Some (JStr (lit "tenant-1")))
    (Some (JArr [JObj [("type", JStr (lit "website"));
                       ("url", JStr (lit "https://example.com"));
                       ("name", JStr (lit "Docs"))]]))
    (Some (JObj [])).

(** A world in which the update of the metadata and the analysis fail. *)
Definition analysisFails : env :=
  mkEnv
    (fun p attempt =>
       match p with
       | AtTop UpdateMetadata => Raised "ServiceException"
       | AtTop AnalyzeResults => Raised "Error"
       | _ => Returned
       end)
    (fun _ _ => ErrorHandler.mkWorld (Ok tt) (Ok tt) (Ok tt))
    (fun _ => Validate.Item (JObj [])).

Lemma tenant_step_failure_is_recorded_witness :
  Validate.isValid (Validate.handler (dynamoGet analysisFails) oneWebsite)
  = true
  /\ (let t := top (execute analysisFails oneWebsite) in
      (MemoryConfigError ∈ trace t
       <-> stepFails analysisFails ConfigureMemoryDuration)
      /\ (MetadataError ∈ trace t <-> stepFails analysisFails UpdateMetadata)
      /\ (ScheduleError ∈ trace t
          <-> stepFails analysisFails ScheduleNextCrawl)
      /\ (forall error,
            outcomes analysisFails (AtTop AnalyzeResults) 0 = Raised error ->
            final t = Failed error /\ NotifyCompletion ∉ trace t))
  /\ top (execute analysisFails oneWebsite)
     = mkExecution
         [ValidateInput; CheckValidationResult; ProcessDataSources;
          ConfigureMemoryDuration; UpdateMetadata; MetadataError;
          ScheduleNextCrawl; AnalyzeResults]
         (Failed "Error").
Proof.
  split; [vm_compute; reflexivity|].
  split; [|vm_compute; reflexivity].
  apply (tenant_step_failure_is_recorded analysisFails oneWebsite).
  vm_compute. reflexivity.
Defined.

End PipelineMore.

(** ** More of the query handler *)

Module ChatbotMore.
Import JS Chatbot ChatbotFacts.

(** X16: the prompt is built from the first ten entries of the history
    only, and a prompt that is built ends with the question, as the human's
    turn, and the opening of the assistant's turn. *)
Theorem prompt_uses_ten_entries_and_ends_with_query (query : json)
    (history : list json) (relevantContent : jsstring) :
  buildPromptWithContext query history relevantContent
  = buildPromptWithContext query (take 10 history) relevantContent
  /\ forall prompt,
       buildPromptWithContext query history relevantContent = Ok prompt ->
       exists before shown,
         toString query = Ok shown
         /\ prompt
            = before ++ lit "Human: " ++ shown ++ [LF; LF] ++ lit "Assistant:".
Proof.
  split.
  - unfold buildPromptWithContext. rewrite take_take, Nat.min_id.
    by destruct history.
  - intros prompt. unfold buildPromptWithContext.
    match goal with |- context [rbind ?m _] => destruct m as [before|] end;
      [|discriminate].
    cbn [rbind]. destruct (toString query) as [shown|]; [|discriminate].
    cbn [rbind]. intros [= <-]. by exists before, shown.
Qed.

(** A request whose body is an object and whose caller has claims. *)
Definition wellFormed (req : request) (fields : list (string * json))
    (tenant : option jsstring) : Prop :=
  requestBody req = Ok (JObj fields) /\ tenantId req = Ok tenant.

(** A string that is given and not empty. *)
Definition given (v : option jsstring) : bool :=
  match v with
  | Some s => truthy s
  | None => false
  end.

(** One of the three required parameters is missing or empty. *)
Definition parameterMissing (req : request) (fields : list (string * json))
    (tenant : option jsstring) : bool :=
  negb (given (chatbotId req))
  || negb (truthyValue (getField fields "query"))
  || negb (given tenant).



(** X18: when the three parameters are given and the lookup of the chatbot
    fails, or finds no item, the request is answered with status 404: the
    failure of the lookup is not reported as a server error, and nothing
    else is consulted. *)
Theorem failed_lookup_is_answered_404 (w : world) (req : request)
    (fields : list (string * json)) (tenant : option jsstring) :
  wellFormed req fields tenant ->
  parameterMissing req fields tenant = false ->
  (exists e, dynamoGet w = Throw e) \/ dynamoGet w = Ok None ->
  handler w req = notFound.
Proof.
  intros [Hbody Htenant] Hgiven Hlookup.
  unfold parameterMissing in Hgiven. unfold handler, handle.
  rewrite Hbody, Htenant. cbn [rbind getProp].
  apply orb_false_iff in Hgiven as [Hgiven Ht].
  apply orb_false_iff in Hgiven as [Hc Hq].
  apply negb_false_iff in Hc, Hq, Ht.
  destruct (chatbotId req) as [c|], (getField fields "query") as [q|],
    tenant as [t|]; try discriminate.
  cbn [given truthyValue] in Hc, Hq, Ht. rewrite Hc, Hq, Ht.
  cbn [negb orb]. unfold getChatbotConfig.
  by destruct Hlookup as [[e ->]| ->].
Qed.

Definition question : request :=
  mkRequest (Ok (JObj [("query", JStr (lit "When are refunds made?"))]))
    (Some (lit "bot-1")) (Ok (Some (lit "tenant-1"))).

(** A world in which every call is rejected. *)
Definition allRejected : world :=
  mkWorld (lit "q-1") (lit "2024-01-01T00:00:00.000Z")
    (Throw (lit "down")) (Throw (lit "down")) (Throw (lit "down"))
    (Throw (lit "down")) (Throw (lit "down"))
    (fun _ _ => Throw (lit "down"))
    (Throw (lit "down")) (Throw (lit "down")) (Throw (lit "down"))
    (fun _ => Throw (lit "down")).

Lemma failed_lookup_is_answered_404_witness :
  wellFormed question [("query", JStr (lit "When are refunds made?"))]
    (Some (lit "tenant-1"))
  /\ parameterMissing question [("query", JStr (lit "When are refunds made?"))]
       (Some (lit "tenant-1")) = false
  /\ ((exists e, dynamoGet allRejected = Throw e)
      \/ dynamoGet allRejected = Ok None)
  /\ handler allRejected question = notFound.
Proof.
  assert (wellFormed question [("query", JStr (lit "When are refunds made?"))]
            (Some (lit "tenant-1"))) as Hreq by (split; reflexivity).
  assert ((exists e, dynamoGet allRejected = Throw e)
          \/ dynamoGet allRejected = Ok None) as Hlookup
    by (left; eexists; reflexivity).
  split; [exact Hreq|]. split; [reflexivity|]. split; [exact Hlookup|].
  apply (failed_lookup_is_answered_404 allRejected question _ _ Hreq eq_refl
           Hlookup).
Defined.

(** The conversation store fails: the connection, the reading of the
    history, one of the two writes or the setting of the expiry. *)
Definition historyFails (w : world) : Prop :=
  (exists e, getRedisClient w = Throw e)
  \/ (exists e, lrange w = Throw e)
  \/ (exists e, lpushUser w = Throw e)
  \/ (exists e, lpushAssistant w = Throw e)
  \/ (exists e, expire w = Throw e).

(** X19: unlike a failure of the analytics record, a failure of the
    conversation store fails the request: whatever else happens, the answer
    is the server error, with status 500, even when the response was
    generated. *)
Theorem history_failure_is_answered_500 (w : world) (req : request)
    (fields : list (string * json)) (tenant : option jsstring)
    (chatbotConfig : json) :
  wellFormed req fields tenant ->
  parameterMissing req fields tenant = false ->
  dynamoGet w = Ok (Some chatbotConfig) ->
  truthyJson chatbotConfig = true ->
  historyFails w ->
  handler w req = serverError.
Proof.
  intros [Hbody Htenant] Hgiven Hconfig Htruthy Hfails.
  unfold parameterMissing in Hgiven. unfold handler, handle.
  rewrite Hbody, Htenant. cbn [rbind getProp].
  apply orb_false_iff in Hgiven as [Hgiven Ht].
  apply orb_false_iff in Hgiven as [Hc Hq].
  apply negb_false_iff in Hc, Hq, Ht.
  destruct (chatbotId req) as [c|], (getField fields "query") as [q|],
    tenant as [t|]; try discriminate.
  cbn [given truthyValue] in Hc, Hq, Ht. rewrite Hc, Hq, Ht.
  cbn [negb orb]. unfold getChatbotConfig. rewrite Hconfig.
  cbn [tryCatch rbind]. rewrite Htruthy. unfold answer.
  repeat match goal with
         | |- context [rbind ?m _] =>
             let r := fresh "r" in
             destruct m as [r|] eqn:?; cbn [rbind]; [|reflexivity]
         end.
  exfalso. unfold historyFails in Hfails.
  destruct Hfails as [[e He]|[[e He]|[[e He]|[[e He]|[e He]]]]]; congruence.
Qed.

(** A world in which only the second write of the conversation fails. *)
Definition writeFails : world :=
  mkWorld (lit "q-1") (lit "2024-01-01T00:00:00.000Z")
    (Ok (Some (JObj [])))
    (Ok tt) (Ok [])
    (Ok (JObj [("embedding", JArr [JNum 1])]))
    (Ok [])
    (fun _ _ => Ok (JObj [("response", JStr (lit "Within 30 days."))]))
    (Ok tt) (Throw (lit "READONLY")) (Ok tt)
    (fun _ => Ok tt).

Lemma history_failure_is_answered_500_witness :
  wellFormed question [("query", JStr (lit "When are refunds made?"))]
    (Some (lit "tenant-1"))
  /\ parameterMissing question [("query", JStr (lit "When are refunds made?"))]
       (Some (lit "tenant-1")) = false
  /\ dynamoGet writeFails = Ok (Some (JObj []))
  /\ truthyJson (JObj []) = true
  /\ historyFails writeFails
  /\ handler writeFails question = serverError.
Proof.
  assert (wellFormed question [("query", JStr (lit "When are refunds made?"))]
            (Some (lit "tenant-1"))) as Hreq by (split; reflexivity).
  assert (historyFails writeFails) as Hfails.
  { right. right. right. left. eexists. reflexivity. }
  split; [exact Hreq|]. split; [reflexivity|]. split; [reflexivity|].
  split; [reflexivity|]. split; [exact Hfails|].
  apply (history_failure_is_answered_500 writeFails question _ _ (JObj []) Hreq
           eq_refl eq_refl eq_refl Hfails).
Defined.

(** *** What the search cites *)

Lemma excerpt_length (text : jsstring) : length (excerpt text) <= 203.
Proof.
  unfold excerpt. destruct (Nat.ltb_spec 200 (length text)); [|lia].
  rewrite length_app, length_take. change (length (lit "...")) with 3. lia.
Qed.

(** A citation is short and of a hit above the threshold. *)
Definition cited (s : source) : Prop :=
  length (sourceText s) <= 203 /\ (1 # 2 < score s)%Q.

Lemma addHits_cited (hits : list hit) :
  forall acc r,
    addHits acc hits = Ok r ->
    Forall cited (sources acc) ->
    Forall cited (sources r)
    /\ length (sources r) <= length (sources acc) + length hits.
Proof.
  induction hits as [|h hits IH]; intros acc r Hadd Hacc.
  - injection Hadd as <-. split; [exact Hacc|lia].
  - cbn [addHits] in Hadd. unfold addHit in Hadd.
    destruct (_source h) as [src|]; [|discriminate].
    destruct (aboveThreshold (_score h)) eqn:Hscore; cbn [rbind] in Hadd.
    + destruct (text src) as [t|]; [|discriminate]. cbn [rbind] in Hadd.
      apply IH in Hadd as [Hcited Hlen]; cbn [sources] in *.
      * split; [exact Hcited|]. rewrite length_app, length_cons in *.
        cbn [length] in *. lia.
      * apply Forall_app. split; [exact Hacc|]. constructor; [|constructor].
        split; [apply excerpt_length|by apply aboveThreshold_spec].
    + apply IH in Hadd as [Hcited Hlen]; [|exact Hacc].
      split; [exact Hcited|]. rewrite length_cons. lia.
Qed.

Lemma addHits_throws (hits : list hit) :
  Exists (fun h => _source h = None) hits ->
  forall acc, exists e, addHits acc hits = Throw e.
Proof.
  induction 1 as [h hits Hh|h hits _ IH]; intros acc; cbn [addHits].
  - unfold addHit. rewrite Hh. by eexists.
  - destruct (addHit acc h) as [acc'|e]; cbn [rbind]; [apply IH|by eexists].
Qed.

(** X20: whatever the search engine answers, the search returns, and what
    it cites is bounded: every source has a score above 0.5 and at most
    203 characters of text (200 and the ellipsis), there are never more
    sources than hits, and one hit without [_source] leaves the whole
    result empty, the hits before it included. *)
Theorem citations_are_short_and_above_threshold (w : world) :
  exists found,
    searchRelevantContent w = Ok found
    /\ Forall cited (sources found)
    /\ (forall hits,
          opensearchRequest w = Ok hits ->
          length (sources found) <= length hits
          /\ (Exists (fun h => _source h = None) hits ->
              found = mkSearchResult [] [])).
Proof.
  unfold searchRelevantContent.
  destruct (embeddingPayload w) as [embeddingData|];
    cbn [rbind tryCatch].
  2:{ eexists. split; [reflexivity|]. split; [constructor|].
      intros hits _. cbn. split; [lia|done]. }
  destruct (getProp embeddingData "embedding") as [queryEmbedding|];
    cbn [rbind tryCatch].
  2:{ eexists. split; [reflexivity|]. split; [constructor|].
      intros hits _. cbn. split; [lia|done]. }
  destruct (truthyValue queryEmbedding); cbn [negb tryCatch].
  2:{ eexists. split; [reflexivity|]. split; [constructor|].
      intros hits _. cbn. split; [lia|done]. }
  destruct (opensearchRequest w) as [hits|]; cbn [rbind tryCatch].
  2:{ eexists. split; [reflexivity|]. split; [constructor|]. discriminate. }
  destruct (addHits (mkSearchResult [] []) hits) as [found|] eqn:Hadd;
    cbn [tryCatch].
  - destruct (addHits_cited hits _ _ Hadd) as [Hcited Hlen]; [constructor|].
    exists found. split; [reflexivity|]. split; [exact Hcited|].
    intros hits' [= <-]. split; [exact Hlen|].
    intros Hnone. destruct (addHits_throws hits Hnone (mkSearchResult [] []))
      as [e He].
    congruence.
  - eexists. split; [reflexivity|]. split; [constructor|].
    intros hits' _. cbn. split; [lia|done].
Qed.

(** *** The session *)

Lemma answer_body (w : world) (tenantId chatbotId : jsstring)
    (sessionId query chatbotConfig : json) (r : response) :
  answer w tenantId chatbotId sessionId query chatbotConfig = Ok r ->
  exists response found,
    searchRelevantContent w = Ok found
    /\ r = mkResponse 200 (AnswerBody response sessionId (sources found)).
Proof.
  unfold answer.
  repeat match goal with
         | |- context [rbind ?m _] =>
             let r := fresh "r" in
             destruct m as [r|] eqn:?; cbn [rbind]; [|discriminate]
         end.
  intros [= <-]. by eexists _, _.
Qed.

(** X21: a request that is answered with status 200 gets back the session
    it gave, or the fresh identifier when it gave none (or an empty one),
    and the sources are those of the search. *)
Theorem answer_carries_the_session (w : world) (req : request)
    (response : jsstring) (sessionId : json) (cited : list source) :
  handler w req = mkResponse 200 (AnswerBody response sessionId cited) ->
  exists body sent found,
    requestBody req = Ok body
    /\ getProp body "sessionId" = Ok sent
    /\ sessionId = match sent with
                   | Some s => if truthyJson s then s else JStr (uuidv4 w)
                   | None => JStr (uuidv4 w)
                   end
    /\ searchRelevantContent w = Ok found
    /\ cited = sources found.
Proof.
  unfold handler. destruct (handle w req) as [r|] eqn:Hhandle;
    [|discriminate].
  intros ->. revert Hhandle. unfold handle.
  destruct (requestBody req) as [body|]; [|discriminate]. cbn [rbind].
  destruct (getProp body "query") as [query|]; [|discriminate]. cbn [rbind].
  destruct (tenantId req) as [tenant|]; [|discriminate]. cbn [rbind].
  destruct (getProp body "sessionId") as [sent|] eqn:Hsent; [|discriminate].
  cbn [rbind].
  destruct (chatbotId req) as [c|], query as [q|], tenant as [t|];
    try discriminate.
  destruct (negb (truthy c) || negb (truthyJson q) || negb (truthy t));
    [discriminate|].
  destruct (getChatbotConfig w) as [[config|]|]; try discriminate.
  cbn [rbind]. destruct (truthyJson config); [|discriminate].
  intros (response' & found & Hfound & [= _ Hsession Hcited])%answer_body.
  exists body, sent, found. by repeat split.
Qed.

Lemma answer_carries_the_session_witness :
  handler (worldWith []) question
  = mkResponse 200 (AnswerBody (lit "Within 30 days.") (JStr (lit "q-1")) [])
  /\ exists body sent found,
       requestBody question = Ok body
       /\ getProp body "sessionId" = Ok sent
       /\ JStr (lit "q-1")
          = match sent with
            | Some s => if truthyJson s then s else JStr (uuidv4 (worldWith []))
            | None => JStr (uuidv4 (worldWith []))
            end
       /\ searchRelevantContent (worldWith []) = Ok found
       /\ [] = sources found.
Proof.
  assert (handler (worldWith []) question
          = mkResponse 200
              (AnswerBody (lit "Within 30 days.") (JStr (lit "q-1")) []))
    as Hanswer by (vm_compute; reflexivity).
  split; [exact Hanswer|].
  apply (answer_carries_the_session (worldWith []) question _ _ _ Hanswer).
Defined.

End ChatbotMore.

(** ** The embedding of the chunks *)

Module EmbeddingsFacts.
Import JS Calls Embeddings.

Definition isPost (c : call) : Prop :=
  match c with
  | Post _ _ _ => True
  | _ => False
  end.

(** An embedding that is the service's answer for the chunk at its index,
    or, in development only, 384 random numbers. *)
Definition fromService (w : world) (it : item) : Prop :=
  (exists data, post w (chunkIndex it) = Ok data /\ embedding it = Data data)
  \/ (development w = true
      /\ exists values, embedding it = Random values /\ length values = 384).

Lemma generateEmbedding_calls (w : world) (i : nat) (text : jsstring)
    (model : json) (apiKey : option json) (calls : list call) :
  exists r posts,
    generateEmbedding w i text model apiKey calls = (r, calls ++ posts)
    /\ Forall isPost posts
    /\ match r with
       | Ok v =>
           (exists data, post w i = Ok data /\ v = Data data)
           \/ (development w = true
               /\ exists values, v = Random values /\ length values = 384)
       | Throw _ => development w = false
       end.
Proof.
  unfold generateEmbedding, try, bind, lift, request, ret, throw.
  assert (length (random w i <$> seq 0 384) = 384) as Hlen
    by (by rewrite length_fmap, length_seq).
  destruct (toStringValue apiKey) as [shown|e].
  - destruct (post w i) as [data|e] eqn:Hpost.
    + exists (Ok (Data data)), [Post text model apiKey].
      split; [reflexivity|]. split; [by repeat constructor|].
      left. by exists data.
    + destruct (development w) eqn:Hdev.
      * eexists (Ok _), [Post text model apiKey].
        split; [reflexivity|]. split; [by repeat constructor|].
        right. split; [reflexivity|]. by eexists.
      * exists (Throw e), [Post text model apiKey].
        split; [reflexivity|]. split; [by repeat constructor|reflexivity].
  - destruct (development w) eqn:Hdev.
    + eexists (Ok _), []. rewrite app_nil_r.
      split; [reflexivity|]. split; [constructor|].
      right. split; [reflexivity|]. by eexists.
    + exists (Throw e), []. rewrite app_nil_r.
      split; [reflexivity|]. split; [constructor|reflexivity].
Qed.

(** The loop gives one item for each chunk, in order, with the chunk's
    index, and makes nothing but calls to the embedding service. *)
Lemma embedChunks_items (w : world) (model : json) (apiKey source : option json)
    (textChunks : list jsstring) :
  forall i embeddings calls,
    exists r posts,
      embedChunks w model apiKey source i textChunks embeddings calls
      = (r, calls ++ posts)
      /\ Forall isPost posts
      /\ forall items,
           r = Ok items ->
           exists new,
             items = embeddings ++ new
             /\ text <$> new = textChunks
             /\ chunkIndex <$> new = seq i (length textChunks)
             /\ Forall (fromService w) new.
Proof.
  induction textChunks as [|chunk rest IH]; intros i embeddings calls.
  - exists (Ok embeddings), []. rewrite app_nil_r.
    split; [reflexivity|]. split; [constructor|].
    intros items [= <-]. exists []. rewrite app_nil_r. by repeat split.
  - cbn [embedChunks]. unfold bind at 1.
    destruct (generateEmbedding_calls w i chunk model apiKey calls)
      as (r1 & posts1 & -> & Hposts1 & Hr1).
    destruct r1 as [v|e].
    2:{ exists (Throw e), posts1. split; [reflexivity|].
        split; [exact Hposts1|]. discriminate. }
    unfold bind at 1, lift at 1.
    destruct (prop source "url") as [url|e].
    2:{ exists (Throw e), posts1. split; [reflexivity|].
        split; [exact Hposts1|]. discriminate. }
    unfold bind at 1, lift at 1.
    destruct (prop source "name") as [name|e].
    2:{ exists (Throw e), posts1. split; [reflexivity|].
        split; [exact Hposts1|]. discriminate. }
    destruct (IH (S i) (embeddings ++ [mkItem chunk v i url name])
                (calls ++ posts1)) as (r & posts & -> & Hposts & Hr).
    exists r, (posts1 ++ posts). rewrite app_assoc.
    split; [reflexivity|]. split; [by apply Forall_app|].
    intros items Hitems.
    destruct (Hr items Hitems) as (new & -> & Htext & Hindex & Hfrom).
    exists (mkItem chunk v i url name :: new). rewrite <- app_assoc.
    split; [reflexivity|]. cbn [fmap list_fmap text chunkIndex length seq].
    split; [by rewrite <- Htext|]. split; [by rewrite <- Hindex|].
    constructor; [exact Hr1|exact Hfrom].
Qed.

(** The steps before the chunks make the two reads, in this order, unless
    one of them fails or the event lacks what they need. *)
Lemma readText_calls (w : world) (ev : event) :
  exists r reads,
    readText w ev [] = (r, reads)
    /\ Forall (fun c => match c with
                        | GetSecretValue | GetObject _ => True
                        | _ => False
                        end) reads
    /\ forall embeddingModel apiKey rawText,
         r = Ok (embeddingModel, apiKey, rawText) ->
         getObject w = Ok rawText
         /\ truthyValue (extractedText ev) = true
         /\ exists key, reads = [GetSecretValue; GetObject key].
Proof.
  unfold readText, getEmbeddingApiKey, try, bind, lift, request, ret, throw.
  destruct (truthyValue (extractedText ev)) eqn:Hext; cbn [negb].
  2:{ eexists _, []. split; [reflexivity|]. split; [constructor|].
      discriminate. }
  destruct (prop (extractedText ev) "processedTextKey") as [key|e].
  2:{ eexists _, []. split; [reflexivity|]. split; [constructor|].
      discriminate. }
  destruct (truthyValue key); cbn [negb].
  2:{ eexists _, []. split; [reflexivity|]. split; [constructor|].
      discriminate. }
  destruct (embeddingModelOf (config ev)) as [model|e].
  2:{ eexists _, []. split; [reflexivity|]. split; [constructor|].
      discriminate. }
  destruct (toString model) as [shown|e].
  2:{ eexists _, []. split; [reflexivity|]. split; [constructor|].
      discriminate. }
  cbn [app].
  destruct (getSecretValue w) as [secretJson|e].
  2:{ eexists _, _. split; [reflexivity|]. split; [by repeat constructor|].
      discriminate. }
  destruct (getProp secretJson "apiKey") as [apiKey|e].
  2:{ eexists _, _. split; [reflexivity|]. split; [by repeat constructor|].
      discriminate. }
  cbn [app]. destruct (getObject w) as [rawText|e].
  2:{ eexists _, _. split; [reflexivity|]. split; [by repeat constructor|].
      discriminate. }
  eexists _, _. split; [reflexivity|]. split; [by repeat constructor|].
  intros ? ? ? [= <- <- <-]. split; [reflexivity|]. split; [reflexivity|].
  by eexists.
Qed.

Lemma prop_truthy (v : option json) (key : string) :
  truthyValue v = true -> exists x, prop v key = Ok x.
Proof. destruct v as [[]|]; try discriminate; by eexists. Qed.

(** What the steps from the chunks on do: the calls for the chunks, then at
    most the write of the file, which is the last call when it is made. *)
Lemma store_calls (w : world) (ev : event) (embeddingModel : json)
    (apiKey : option json) (textChunks : list jsstring) (calls : list call) :
  truthyValue (extractedText ev) = true ->
  exists r calls' posts,
    store w ev embeddingModel apiKey textChunks calls = (r, calls')
    /\ Forall isPost posts
    /\ (calls' = calls ++ posts /\ (exists e, r = Throw e)
        \/ exists items key,
             calls' = calls ++ posts ++ [PutObject key items]
             /\ text <$> items = textChunks
             /\ chunkIndex <$> items = seq 0 (length textChunks)
             /\ Forall (fromService w) items
             /\ match r with
                | Ok out =>
                    putObject w = Ok tt
                    /\ embeddingsKey out = key
                    /\ chunkCount out = length textChunks
                | Throw e => putObject w = Throw e
                end).
Proof.
  intros Hext. unfold store. unfold bind at 1.
  destruct (embedChunks_items w embeddingModel apiKey (dataSource ev)
              textChunks 0 [] calls) as (r1 & posts & -> & Hposts & Hitems).
  destruct r1 as [items|e].
  2:{ exists (Throw e), (calls ++ posts), posts. split; [reflexivity|].
      split; [exact Hposts|]. left. split; [reflexivity|by eexists]. }
  destruct (Hitems items eq_refl) as (new & Hnew & Htext & Hindex & Hfrom).
  cbn [app] in Hnew. subst new.
  unfold bind, lift, request, ret.
  destruct (toStringValue (tenantId ev)) as [tenant|e].
  2:{ exists (Throw e), (calls ++ posts), posts. split; [reflexivity|].
      split; [exact Hposts|]. left. split; [reflexivity|by eexists]. }
  destruct (prop (dataSource ev) "name") as [name|e].
  2:{ exists (Throw e), (calls ++ posts), posts. split; [reflexivity|].
      split; [exact Hposts|]. left. split; [reflexivity|by eexists]. }
  destruct (toStringValue name) as [shownName|e].
  2:{ exists (Throw e), (calls ++ posts), posts. split; [reflexivity|].
      split; [exact Hposts|]. left. split; [reflexivity|by eexists]. }
  destruct (prop (dataSource ev) "type") as [type|e].
  2:{ exists (Throw e), (calls ++ posts), posts. split; [reflexivity|].
      split; [exact Hposts|]. left. split; [reflexivity|by eexists]. }
  cbv zeta.
  destruct (putObject w) as [[]|e] eqn:Hput.
  2:{ eexists (Throw e), _, posts. split; [reflexivity|].
      split; [exact Hposts|]. right. eexists items, _.
      rewrite <- app_assoc. split; [reflexivity|]. by repeat split. }
  destruct (prop_truthy _ "sourceId" Hext) as [sourceId ->].
  eexists (Ok _), _, posts. split; [reflexivity|].
  split; [exact Hposts|]. right. eexists items, _.
  rewrite <- app_assoc. split; [reflexivity|].
  cbn [embeddingsKey chunkCount]. repeat split; try assumption.
  by rewrite <- Htext, length_fmap.
Qed.

Definition isSendMessage (c : call) : Prop :=
  match c with
  | SendMessage _ => True
  | _ => False
  end.

Definition isPutObject (c : call) : Prop :=
  match c with
  | PutObject _ _ => True
  | _ => False
  end.

(** X22: the handler returns, or throws, on every event and in every world:
    the chunker it calls ends. When it returns, it has read the secret and
    the text, called the embedding service for the chunks and written one
    file, in this order and nothing else; the file holds one item for each
    chunk of the text, in the order of the chunks, with the chunk as its
    text and the chunk's position as its index; and the count it returns is
    the number of chunks. *)
Theorem embeddings_follow_the_chunks (w : world) (ev : event) :
  (exists r, handler w ev = Some r)
  /\ forall out calls,
       handler w ev = Some (Ok out, calls) ->
       exists rawText textChunks key posts items,
         getObject w = Ok rawText
         /\ Chunker.splitTextIntoChunks rawText Chunker.MAX_CHUNK_SIZE
            = Some textChunks
         /\ calls = [GetSecretValue; GetObject key] ++ posts
                    ++ [PutObject (embeddingsKey out) items]
         /\ Forall isPost posts
         /\ text <$> items = textChunks
         /\ chunkIndex <$> items = seq 0 (length textChunks)
         /\ chunkCount out = length textChunks.
Proof.
  unfold handler.
  destruct (readText_calls w ev) as (r0 & reads & -> & _ & Hread).
  destruct r0 as [[[embeddingModel apiKey] rawText]|error].
  2:{ split; [by eexists|]. unfold report, bind, request, throw, lift.
      intros out calls. by destruct (sendMessage w). }
  destruct (Hread _ _ _ eq_refl) as (Hget & Hext & key & ->).
  destruct (ChunkerFacts.splitTextIntoChunks_total rawText
              Chunker.MAX_CHUNK_SIZE) as [textChunks Hchunks];
    [unfold Chunker.MAX_CHUNK_SIZE; lia|].
  rewrite Hchunks. cbn [mbind option_bind].
  split; [by eexists|]. intros out calls [= Hrun]. revert Hrun.
  unfold try.
  destruct (store_calls w ev embeddingModel apiKey textChunks
              [GetSecretValue; GetObject key] Hext)
    as (r & calls' & posts & -> & Hposts & Hshape).
  destruct r as [out'|e].
  2:{ unfold report, bind, request, throw, lift.
      by destruct (sendMessage w). }
  intros [= -> ->].
  destruct Hshape as [[_ [e [=]]]|(items & key' & -> & Htext & Hindex & _
                                   & _ & <- & Hcount)].
  by exists rawText, textChunks, key, posts, items.
Qed.

(** An event for a website whose text has been extracted, a world in which
    the embedding service is down and one in which it answers. *)
Definition textEvent : event :=
  mkEvent (Some (JStr (lit "tenant-1")))
    (Some (JObj [("type", JStr (lit "website"));
                 ("url", JStr (lit "https://example.com"));
                 ("name", JStr (lit "Docs"))]))
    (Some (JObj [("processedTextKey", JStr (lit "tenant-1/extracted-text/Docs-1.txt"));
                 ("sourceId", JStr (lit "source-Docs-1"))]))
    (Some (JObj [])).

Definition serviceDown : world :=
  mkWorld false (Ok (JObj [("apiKey", JStr (lit "key"))]))
    (Ok (lit "Refunds are made within 30 days."))
    (fun _ => Throw (lit "Request failed with status code 503"))
    (fun _ _ => 0%Q) 1700000000000 (Ok tt) (Ok tt).

Definition serviceUp : world :=
  mkWorld false (Ok (JObj [("apiKey", JStr (lit "key"))]))
    (Ok (lit "Refunds are made within 30 days."))
    (fun _ => Ok (Some (JArr [JNum 1; JNum 0])))
    (fun _ _ => 0%Q) 1700000000000 (Ok tt) (Ok tt).

(** X23: when the handler throws, the last thing it did was to send the
    error to the dead-letter queue, once; the error it throws is the one it
    sent unless the sending itself failed; and no file of embeddings was
    written: the one write it may have made is the one that failed. A chunk
    whose embedding fails thus leaves nothing of the other chunks. *)
Theorem failed_run_stores_nothing (w : world) (ev : event)
    (error : jsstring) (calls : list call) :
  handler w ev = Some (Throw error, calls) ->
  exists before sent,
    calls = before ++ [SendMessage sent]
    /\ Forall (fun c => ¬ isSendMessage c) before
    /\ (sendMessage w = Ok tt -> error = sent)
    /\ (Exists isPutObject before -> putObject w = Throw sent).
Proof.
  unfold handler.
  destruct (readText_calls w ev) as (r0 & reads & -> & Hreads & Hread).
  assert (forall sent before,
            report w sent before = (Throw error, calls) ->
            calls = before ++ [SendMessage sent]
            /\ (sendMessage w = Ok tt -> error = sent)) as Hreport.
  { intros sent before. unfold report, bind, request, throw, lift.
    destruct (sendMessage w) as [[]|e]; intros [= <- <-]; by split. }
  destruct r0 as [[[embeddingModel apiKey] rawText]|sent].
  2:{ intros [= Hrun]. destruct (Hreport _ _ Hrun) as [-> Hsame].
      exists reads, sent. split; [reflexivity|]. split; [|split].
      - eapply Forall_impl; [exact Hreads|].
        intros c Hc Hs; destruct c; cbn in *; tauto.
      - exact Hsame.
      - intros Hput. apply Exists_exists in Hput as (c & Hc & Hput).
        rewrite Forall_forall in Hreads. specialize (Hreads c Hc).
        by destruct c. }
  destruct (Hread _ _ _ eq_refl) as (Hget & Hext & key & ->).
  destruct (Chunker.splitTextIntoChunks rawText Chunker.MAX_CHUNK_SIZE)
    as [textChunks|]; [|discriminate].
  cbn [mbind option_bind]. intros [= Hrun]. revert Hrun. unfold try.
  destruct (store_calls w ev embeddingModel apiKey textChunks
              [GetSecretValue; GetObject key] Hext)
    as (r & calls' & posts & -> & Hposts & Hshape).
  destruct r as [out|sent]; [discriminate|].
  intros Hrun. destruct (Hreport _ _ Hrun) as [-> Hsame].
  exists calls', sent. split; [reflexivity|].
  assert (Forall (fun c => ¬ isSendMessage c) posts
          /\ Forall (fun c => ¬ isPutObject c) posts) as [Hnosend Hnoput].
  { split; (eapply Forall_impl; [exact Hposts|]);
      intros c Hc Hs; destruct c; cbn in *; tauto. }
  destruct Hshape as [[-> _]|(items & key' & -> & _ & _ & _ & Hput)].
  - split; [|split; [exact Hsame|]].
    + repeat (constructor; [intros Hs; exact Hs|]). exact Hnosend.
    + intros Hex. exfalso.
      apply Exists_exists in Hex as (c & Hc & Hput).
      cbn [app] in Hc.
      apply elem_of_cons in Hc as [->|Hc]; [done|].
      apply elem_of_cons in Hc as [->|Hc]; [done|].
      rewrite Forall_forall in Hnoput. by apply (Hnoput c).
  - split; [|split; [exact Hsame|by intros _]].
    repeat (constructor; [intros Hs; exact Hs|]).
    apply Forall_app. split; [exact Hnosend|].
    constructor; [intros Hs; exact Hs|constructor].
Qed.

Lemma failed_run_stores_nothing_witness :
  handler serviceDown textEvent
  = Some (Throw (lit "Request failed with status code 503"),
          [GetSecretValue;
           GetObject (Some (JStr (lit "tenant-1/extracted-text/Docs-1.txt")));
           Post (lit "Refunds are made within 30 days.")
             (JStr (lit "sentence-transformers/all-MiniLM-L6-v2"))
             (Some (JStr (lit "key")));
           SendMessage (lit "Request failed with status code 503")])
  /\ exists before sent,
       [GetSecretValue;
        GetObject (Some (JStr (lit "tenant-1/extracted-text/Docs-1.txt")));
        Post (lit "Refunds are made within 30 days.")
          (JStr (lit "sentence-transformers/all-MiniLM-L6-v2"))
          (Some (JStr (lit "key")));
        SendMessage (lit "Request failed with status code 503")]
       = before ++ [SendMessage sent]
       /\ Forall (fun c => ¬ isSendMessage c) before
       /\ (sendMessage serviceDown = Ok tt
           -> lit "Request failed with status code 503" = sent)
       /\ (Exists isPutObject before -> putObject serviceDown = Throw sent).
Proof.
  assert (handler serviceDown textEvent
          = Some (Throw (lit "Request failed with status code 503"),
                  [GetSecretValue;
                   GetObject
                     (Some (JStr (lit "tenant-1/extracted-text/Docs-1.txt")));
                   Post (lit "Refunds are made within 30 days.")
                     (JStr (lit "sentence-transformers/all-MiniLM-L6-v2"))
                     (Some (JStr (lit "key")));
                   SendMessage (lit "Request failed with status code 503")]))
    as Hrun by (vm_compute; reflexivity).
  split; [exact Hrun|].
  apply (failed_run_stores_nothing serviceDown textEvent _ _ Hrun).
Defined.

(** X24: an embedding that is stored is the answer of the embedding
    service to the call made for its chunk, or, in development only, 384
    random numbers: outside development no embedding is made up, and a call
    that fails there fails the run. *)
Theorem stored_embeddings_come_from_the_service (w : world) (ev : event)
    (r : result output) (calls : list call) (key : jsstring)
    (items : list item) :
  handler w ev = Some (r, calls) ->
  PutObject key items ∈ calls ->
  Forall (fromService w) items
  /\ (development w = false ->
      forall it, it ∈ items ->
                 exists data,
                   post w (chunkIndex it) = Ok data
                   /\ embedding it = Data data).
Proof.
  intros Hrun Hin.
  assert (Forall (fromService w) items) as Hfrom.
  { revert Hrun. unfold handler.
    destruct (readText_calls w ev) as (r0 & reads & -> & Hreads & Hread).
    assert (forall sent before,
              (forall c, c ∈ before -> isPutObject c ->
                         c = PutObject key items ->
                         Forall (fromService w) items) ->
              PutObject key items ∈ (report w sent before).2 ->
              Forall (fromService w) items) as Hreport.
    { intros sent before Hbefore. unfold report, bind, request, throw, lift.
      destruct (sendMessage w) as [[]|e]; cbn [snd];
        intros [Hc|Hc]%elem_of_app;
        try (apply list_elem_of_singleton in Hc; discriminate Hc);
        by apply (Hbefore _ Hc). }
    destruct r0 as [[[embeddingModel apiKey] rawText]|sent].
    2:{ intros [= Hrun]. apply (Hreport sent reads).
        - intros c Hc Hput _. rewrite Forall_forall in Hreads.
          specialize (Hreads c Hc). by destruct c.
        - by rewrite Hrun. }
    destruct (Hread _ _ _ eq_refl) as (Hget & Hext & key0 & ->).
    destruct (Chunker.splitTextIntoChunks rawText Chunker.MAX_CHUNK_SIZE)
      as [textChunks|]; [|discriminate].
    cbn [mbind option_bind]. intros [= Hrun]. revert Hrun. unfold try.
    destruct (store_calls w ev embeddingModel apiKey textChunks
                [GetSecretValue; GetObject key0] Hext)
      as (r1 & calls' & posts & -> & Hposts & Hshape).
    assert (PutObject key items ∈ calls' -> Forall (fromService w) items)
      as Hstored.
    { destruct Hshape as [[-> _]|(items' & key' & -> & _ & _ & Hfrom & _)].
      - intros Hc. exfalso. cbn [app] in Hc.
        apply elem_of_cons in Hc as [[=]|Hc].
        apply elem_of_cons in Hc as [[=]|Hc].
        rewrite Forall_forall in Hposts. by apply (Hposts _ Hc).
      - intros Hc. cbn [app] in Hc.
        apply elem_of_cons in Hc as [[=]|Hc].
        apply elem_of_cons in Hc as [[=]|Hc].
        apply elem_of_app in Hc as [Hc|Hc].
        + exfalso. rewrite Forall_forall in Hposts. by apply (Hposts _ Hc).
        + apply list_elem_of_singleton in Hc. by injection Hc as -> ->. }
    destruct r1 as [out|sent].
    - intros [= <- <-]. by apply Hstored.
    - intros Hrun. apply (Hreport sent calls').
      + intros c Hc _ ->. by apply Hstored.
      + by rewrite Hrun. }
  split; [exact Hfrom|].
  intros Hprod it Hit. rewrite Forall_forall in Hfrom.
  destruct (Hfrom it Hit) as [Hdata|[Hdev _]]; [exact Hdata|congruence].
Qed.

Lemma stored_embeddings_come_from_the_service_witness :
  handler serviceUp textEvent
  = Some (Ok (mkOutput (Some (JStr (lit "tenant-1")))
                (Some (JStr (lit "source-Docs-1")))
                (Some (JStr (lit "Docs"))) (Some (JStr (lit "website")))
                (lit "tenant-1/embeddings/Docs-1700000000000.json")
                (JStr (lit "sentence-transformers/all-MiniLM-L6-v2")) 1),
          [GetSecretValue;
           GetObject (Some (JStr (lit "tenant-1/extracted-text/Docs-1.txt")));
           Post (lit "Refunds are made within 30 days.")
             (JStr (lit "sentence-transformers/all-MiniLM-L6-v2"))
             (Some (JStr (lit "key")));
           PutObject (lit "tenant-1/embeddings/Docs-1700000000000.json")
             [mkItem (lit "Refunds are made within 30 days.")
                (Data (Some (JArr [JNum 1; JNum 0]))) 0
                (Some (JStr (lit "https://example.com")))
                (Some (JStr (lit "Docs")))]])
  /\ Forall (fromService serviceUp)
       [mkItem (lit "Refunds are made within 30 days.")
          (Data (Some (JArr [JNum 1; JNum 0]))) 0
          (Some (JStr (lit "https://example.com")))
          (Some (JStr (lit "Docs")))]
  /\ (development serviceUp = false ->
      forall it,
        it ∈ [mkItem (lit "Refunds are made within 30 days.")
                (Data (Some (JArr [JNum 1; JNum 0]))) 0
                (Some (JStr (lit "https://example.com")))
                (Some (JStr (lit "Docs")))] ->
        exists data,
          post serviceUp (chunkIndex it) = Ok data
          /\ embedding it = Data data).
Proof.
  assert (handler serviceUp textEvent
          = Some (Ok (mkOutput (Some (JStr (lit "tenant-1")))
                        (Some (JStr (lit "source-Docs-1")))
                        (Some (JStr (lit "Docs")))
                        (Some (JStr (lit "website")))
                        (lit "tenant-1/embeddings/Docs-1700000000000.json")
                        (JStr (lit "sentence-transformers/all-MiniLM-L6-v2"))
                        1),
                  [GetSecretValue;
                   GetObject
                     (Some (JStr (lit "tenant-1/extracted-text/Docs-1.txt")));
                   Post (lit "Refunds are made within 30 days.")
                     (JStr (lit "sentence-transformers/all-MiniLM-L6-v2"))
                     (Some (JStr (lit "key")));
                   PutObject (lit "tenant-1/embeddings/Docs-1700000000000.json")
                     [mkItem (lit "Refunds are made within 30 days.")
                        (Data (Some (JArr [JNum 1; JNum 0]))) 0
                        (Some (JStr (lit "https://example.com")))
                        (Some (JStr (lit "Docs")))]]))
    as Hrun by (vm_compute; reflexivity).
  split; [exact Hrun|].
  apply (stored_embeddings_come_from_the_service serviceUp textEvent _ _
           (lit "tenant-1/embeddings/Docs-1700000000000.json") _ Hrun).
  do 3 apply list_elem_of_further. apply list_elem_of_here.
Defined.

End EmbeddingsFacts.

(** ** The extraction of the text *)

Module ExtractorFacts.
Import JS Calls Extractor.

(** *** The pages of a crawl *)

(** A page as the crawler writes it to its file. *)
Definition pageJson (stamp : Crawler.page -> jsstring) (p : Crawler.page)
    : json :=
  JObj [("url", JStr (Crawler.pageUrl p));
        ("content", JStr (Crawler.pageContent p));
        ("timestamp", JStr (stamp p))].

(** A page with text that is not blank. *)
Definition hasText (p : Crawler.page) : bool :=
  truthy (Crawler.pageContent p) && truthy (trim (Crawler.pageContent p)).

(** What the text holds of a page: its URL as a heading, its text and a
    rule. *)
Definition section (p : Crawler.page) : list jsstring :=
  [lit "# Page: " ++ Crawler.pageUrl p; Crawler.pageContent p; separator].

Lemma pageTexts_page (stamp : Crawler.page -> jsstring) (p : Crawler.page) :
  pageTexts (pageJson stamp p) = Ok (if hasText p then section p else []).
Proof.
  unfold pageTexts, pageJson, hasText, section.
  change (getProp (JObj ?f) "content")
    with (Ok (A := option json) (Some (JStr (Crawler.pageContent p)))).
  cbn [rbind truthyValue truthyJson].
  destruct (truthy (Crawler.pageContent p)); [|reflexivity].
  cbn [negb andb]. by destruct (truthy (trim (Crawler.pageContent p))).
Qed.

Lemma pagesTexts_pages (stamp : Crawler.page -> jsstring)
    (pages : list Crawler.page) :
  forall allTexts,
    pagesTexts (pageJson stamp <$> pages) allTexts
    = Ok (allTexts ++ concat (section <$> List.filter hasText pages)).
Proof.
  induction pages as [|p pages IH]; intros allTexts.
  - cbn. by rewrite app_nil_r.
  - cbn [fmap list_fmap pagesTexts List.filter]. rewrite pageTexts_page.
    cbn [rbind]. rewrite IH.
    destruct (hasText p); cbn [fmap list_fmap concat];
      by rewrite ?app_nil_r, <- ?app_assoc.
Qed.

Lemma filter_all {A} (f : A -> bool) (l : list A) :
  Forall (fun x => f x = true) l -> List.filter f l = l.
Proof. induction 1 as [|x l Hx _ IH]; [done|]. cbn. by rewrite Hx, IH. Qed.

(** X25: the text extracted from the file of a crawl is made of the pages
    that have text, in their order, each under its URL and followed by a
    rule, joined by newlines; a blank page leaves nothing. The crawler
    stores no blank page, so, when every fetch it starts completes once,
    each page it stored is in the text. *)
Theorem crawled_pages_are_all_extracted (stamp : Crawler.page -> jsstring) :
  (forall pages,
      extractTextFromCrawledPages (JArr (pageJson stamp <$> pages))
      = Ok (join [LF] (concat (section <$> List.filter hasText pages))))
  /\ forall hostname crawlUrl completionOrder baseUrl domain crawlDepth,
       (forall started : list jsstring, completionOrder started ≡ₚ started) ->
       let pages :=
         Crawler.crawledPages
           (Crawler.crawl hostname crawlUrl completionOrder baseUrl domain
              crawlDepth) in
       extractTextFromCrawledPages (JArr (pageJson stamp <$> pages))
       = Ok (join [LF] (concat (section <$> pages))).
Proof.
  assert (forall pages,
            extractTextFromCrawledPages (JArr (pageJson stamp <$> pages))
            = Ok (join [LF] (concat (section <$> List.filter hasText pages))))
    as Hextract.
  { intros pages. unfold extractTextFromCrawledPages.
    by rewrite pagesTexts_pages. }
  split; [exact Hextract|].
  intros hostname crawlUrl completionOrder baseUrl domain crawlDepth Hcompletes.
  cbn zeta. rewrite Hextract, filter_all; [reflexivity|].
  destruct (CrawlerMore.crawl_pagesOk hostname crawlUrl completionOrder
              Hcompletes baseUrl domain crawlDepth) as [_ _ Hcontent].
  eapply Forall_impl; [exact Hcontent|].
  intros p [_ Hsolid]. unfold hasText. rewrite Hsolid.
  destruct (Crawler.pageContent p); [discriminate Hsolid|reflexivity].
Qed.

(** *** The flattening of JSON *)

Lemma andThen_Some {A B} (m : option (result A))
    (k : A -> option (result B)) :
  is_Some m -> (forall a, is_Some (k a)) -> is_Some (andThen m k).
Proof. intros [[a|e] ->] Hk; cbn; [apply Hk|eauto]. Qed.

(** The values inside a value are less deep than it is. *)
Lemma getField_depth (fields : list (string * json)) (key : string) (v : json) :
  getField fields key = Some v -> depth v < depth (JObj fields).
Proof.
  cbn [depth]. induction fields as [|[k x] fields IH]; [discriminate|].
  cbn [getField]. destruct (getField fields key) as [v'|].
  - intros [= ->]. specialize (IH eq_refl). lia.
  - destruct (String.eqb k key); [|discriminate]. intros [= ->]. lia.
Qed.

Lemma item_depth (items : list json) (v : json) :
  v ∈ items -> depth v < depth (JArr items).
Proof.
  cbn [depth]. induction items as [|x items IH]; [by intros ?%elem_of_nil|].
  intros [->|Hin]%elem_of_cons; [lia|]. specialize (IH Hin). lia.
Qed.

Lemma entries_depth (obj : json) (key : jsstring) (v : json) :
  (key, v) ∈ entries obj -> depth v <= pred (depth obj).
Proof.
  destruct obj as [| | | |s|items|fields]; cbn [entries];
    try (by intros ?%elem_of_nil).
  - intros (i & c & [= _ ->] & _)%elem_of_lookup_imap. cbn. lia.
  - intros (i & x & [= _ ->] & Hx)%elem_of_lookup_imap.
    apply list_elem_of_lookup_2 in Hx. apply item_depth in Hx. lia.
  - intros (k & _ & Hk)%list_elem_of_omap.
    destruct (getField fields k) as [x|] eqn:Hx; [|discriminate].
    injection Hk as _ ->. apply getField_depth in Hx. lia.
Qed.

Section Total.

Variable flatten : json -> jsstring -> option (result (list jsstring)).
Variable bound : nat.
Hypothesis flatten_total :
  forall v prefix,
    depth v <= bound -> 0 < bound -> is_Some (flatten v prefix).

Lemma forEach_total (newPrefix : jsstring) (items : list json) :
  Forall (fun v => depth v < bound) items ->
  forall index lines, is_Some (forEach flatten newPrefix items index lines).
Proof.
  induction 1 as [|item items Hitem _ IH]; intros index lines; cbn [forEach];
    [eauto|].
  apply andThen_Some; [apply flatten_total; lia|]. intros flattened. apply IH.
Qed.

Lemma forIn_total (prefix : jsstring) (es : list (jsstring * json)) :
  Forall (fun e => depth e.2 <= bound) es ->
  forall lines, is_Some (forIn flatten prefix es lines).
Proof.
  induction 1 as [|[key value] es Hvalue _ IH]; intros lines; cbn [forIn];
    [eauto|].
  cbn [snd] in Hvalue.
  destruct value as [| | | | |items|fields].
  1-5: apply andThen_Some; [eauto|]; intros shown; apply IH.
  - destruct items as [|first items]; [apply IH|].
    destruct (objectLike first).
    + apply andThen_Some; [|intros lines'; apply IH].
      apply forEach_total. apply Forall_forall. intros v Hv.
      apply item_depth in Hv. lia.
    + apply andThen_Some; [eauto|]. intros joined. apply IH.
  - apply andThen_Some; [|intros flattened; apply IH].
    apply flatten_total; cbn [depth] in *; lia.
Qed.

End Total.

(** With fuel beyond the depth of the value the flattening ends. *)
Lemma flattenJson_total (fuel : nat) :
  forall obj prefix,
    depth obj < fuel -> is_Some (flattenJson fuel obj prefix).
Proof.
  induction fuel as [|fuel IH]; intros obj prefix Hdepth; [lia|].
  cbn [flattenJson]. apply (forIn_total _ (pred (depth obj))).
  - intros v prefix' Hv Hbound. apply IH. lia.
  - apply Forall_forall. intros [key v] Hin. by apply entries_depth in Hin.
Qed.

(** A record: its keys are distinct and none is an array index, and its
    values are strings, numbers, booleans or [null]. *)
Definition primitive (v : json) : bool := negb (objectLike v).

Definition isRecord (fields : list (string * json)) : Prop :=
  NoDup (fields.*1)
  /\ Forall (fun kv => arrayIndex kv.1 = None /\ primitive kv.2 = true) fields.

(** The string form of a primitive value. *)
Definition shown (v : json) : jsstring :=
  match toString v with
  | Ok s => s
  | Throw _ => []
  end.

Lemma firstKeys_distinct (fields : list (string * json)) :
  NoDup (fields.*1) ->
  forall seen,
    (forall k, k ∈ fields.*1 -> k ∉ seen) ->
    firstKeys seen fields = fields.*1.
Proof.
  induction fields as [|[k v] fields IH]; intros Hnodup seen Hseen;
    [reflexivity|].
  cbn [fmap list_fmap fst] in *. apply NoDup_cons in Hnodup as [Hk Hnodup].
  cbn [firstKeys]. rewrite bool_decide_eq_false_2
    by (apply Hseen, elem_of_cons; by left).
  f_equal. apply IH; [exact Hnodup|].
  intros k' Hk' [->|Hin]%elem_of_cons; [done|].
  apply (Hseen k'); [apply elem_of_cons; by right|exact Hin].
Qed.

Lemma ownKeys_record (fields : list (string * json)) :
  isRecord fields -> ownKeys fields = fields.*1.
Proof.
  intros [Hnodup Hkeys]. unfold ownKeys.
  rewrite firstKeys_distinct; [|exact Hnodup|intros k _; apply not_elem_of_nil].
  assert (Forall (fun k => arrayIndex k = None) (fields.*1)) as Hnone.
  { apply Forall_fmap. eapply Forall_impl; [exact Hkeys|]. by intros kv [H _]. }
  clear Hnodup Hkeys.
  assert (foldr (fun k sorted =>
                   match arrayIndex k with
                   | Some n => insertIndex n k sorted
                   | None => sorted
                   end) [] (fields.*1) = []) as ->.
  { induction Hnone as [|k keys Hk _ IH]; [reflexivity|].
    cbn [foldr]. by rewrite Hk. }
  cbn [fmap list_fmap app]. apply filter_all.
  eapply Forall_impl; [exact Hnone|]. by intros k ->.
Qed.

Lemma getField_record (fields : list (string * json)) (k : string) (v : json) :
  NoDup (fields.*1) -> (k, v) ∈ fields -> getField fields k = Some v.
Proof.
  induction fields as [|[k' v'] fields IH]; intros Hnodup Hin;
    [by apply elem_of_nil in Hin|].
  cbn [fmap list_fmap fst] in Hnodup.
  apply NoDup_cons in Hnodup as [Hk Hnodup]. cbn [getField].
  apply elem_of_cons in Hin as [[= -> ->]|Hin].
  - destruct (getField fields k') as [x|] eqn:Hx.
    + exfalso. apply Hk. clear -Hx.
      induction fields as [|[k v] fields IH]; [discriminate|].
      cbn [getField] in Hx. cbn [fmap list_fmap fst].
      destruct (getField fields k') as [y|].
      * apply elem_of_cons. right. by apply IH.
      * destruct (String.eqb_spec k k') as [->|]; [|discriminate].
        apply elem_of_cons. by left.
    + by rewrite String.eqb_refl.
  - by rewrite (IH Hnodup Hin).
Qed.

Lemma omap_fields (all fields : list (string * json)) :
  (forall kv, kv ∈ fields -> getField all kv.1 = Some kv.2) ->
  omap (fun k => (fun v => (lit k, v)) <$> getField all k) (fields.*1)
  = (fun kv => (lit kv.1, kv.2)) <$> fields.
Proof.
  induction fields as [|[k v] fields IH]; intros Hget; [reflexivity|].
  cbn [fmap list_fmap omap list_omap fst snd].
  pose proof (Hget (k, v) ltac:(apply elem_of_cons; by left)) as Hk.
  cbn [fst snd] in Hk. rewrite Hk.
  cbn [fmap option_fmap option_map fst snd]. f_equal. apply IH.
  intros kv Hin. apply Hget. apply elem_of_cons. by right.
Qed.

Lemma entries_record (fields : list (string * json)) :
  isRecord fields ->
  entries (JObj fields) = (fun kv => (lit kv.1, kv.2)) <$> fields.
Proof.
  intros Hrecord. cbn [entries]. rewrite (ownKeys_record _ Hrecord).
  destruct Hrecord as [Hnodup _]. apply omap_fields.
  intros [k v] Hin. by apply getField_record.
Qed.

Lemma forIn_record (flatten : json -> jsstring -> option (result (list jsstring)))
    (fields : list (string * json)) :
  Forall (fun kv => primitive kv.2 = true) fields ->
  forall lines,
    forIn flatten [] ((fun kv => (lit kv.1, kv.2)) <$> fields) lines
    = Some (Ok (lines
                ++ ((fun kv => lit kv.1 ++ lit ": " ++ shown kv.2)
                      <$> fields))).
Proof.
  induction 1 as [|[k v] fields Hv _ IH]; intros lines.
  - cbn. by rewrite app_nil_r.
  - rewrite !fmap_cons. cbn [forIn fst snd truthy].
    destruct v; try discriminate Hv; cbn [andThen toString shown];
      try (destruct b; cbn [andThen]); rewrite IH, <- app_assoc;
      reflexivity.
Qed.

Lemma normalisation_total (parse : jsstring -> result json)
    (jsonText : jsstring) :
  exists text, normalizeJsonForRAG parse jsonText = Some text.
Proof.
  unfold normalizeJsonForRAG.
  destruct (parse jsonText) as [data|e]; [|by eexists].
  destruct (flattenJson_total (S (depth data)) data []) as [[lines|e] ->];
    [lia|by eexists..].
Qed.

(** X26: the normalisation of JSON returns on every text: the flattening
    ends, and a text that is not JSON, or holds a value that cannot be put
    in a string, is returned as it is. A record, an object whose keys are
    distinct and not array indices and whose values are not nested, becomes
    one line [key: value] for each of its fields, in their order. *)
Theorem normalisation_returns_and_lists_a_record
    (parse : jsstring -> result json) (jsonText : jsstring) :
  (exists text, normalizeJsonForRAG parse jsonText = Some text)
  /\ ((exists e, parse jsonText = Throw e) ->
      normalizeJsonForRAG parse jsonText = Some jsonText)
  /\ forall fields,
       parse jsonText = Ok (JObj fields) ->
       isRecord fields ->
       normalizeJsonForRAG parse jsonText
       = Some (join [LF]
                 ((fun kv => lit kv.1 ++ lit ": " ++ shown kv.2) <$> fields)).
Proof.
  split; [apply normalisation_total|].
  unfold normalizeJsonForRAG. split.
  - by intros [e ->].
  - intros fields -> Hrecord. cbn [flattenJson].
    rewrite (entries_record _ Hrecord), forIn_record; [reflexivity|].
    destruct Hrecord as [_ Hkeys].
    eapply Forall_impl; [exact Hkeys|]. by intros kv [_ H].
Qed.

(** *** The handler *)

(** The event holds the result that goes with the type of its source. *)
Definition hasResult (ev : event) (sourceType : option json) : bool :=
  isType sourceType "website" && truthyValue (crawlResult ev)
  || isType sourceType "api" && truthyValue (apiResult ev)
  || isType sourceType "document" && truthyValue (documentResult ev).

Lemma selectSource_hasResult (ev : event) (sourceType : option json)
    (selected : option json * option json) :
  selectSource ev sourceType = Ok selected -> hasResult ev sourceType = true.
Proof.
  unfold selectSource, hasResult.
  destruct (isType sourceType "website" && truthyValue (crawlResult ev));
    [reflexivity|].
  destruct (isType sourceType "api" && truthyValue (apiResult ev));
    [reflexivity|].
  destruct (isType sourceType "document" && truthyValue (documentResult ev));
    [reflexivity|].
  by destruct (toStringValue sourceType).
Qed.

Lemma readSource_calls (w : world) (ev : event) :
  exists r reads,
    readSource w ev [] = (r, reads)
    /\ match r with
       | Ok (sourceType, sourceId, content) =>
           prop (dataSource ev) "type" = Ok sourceType
           /\ hasResult ev sourceType = true
           /\ getObject w = Ok content
           /\ exists key, reads = [GetObject key]
       | Throw _ =>
           (reads = [] \/ exists key, reads = [GetObject key])
           /\ ((forall sourceType,
                   prop (dataSource ev) "type" = Ok sourceType ->
                   hasResult ev sourceType = false) ->
               reads = [])
       end.
Proof.
  unfold readSource, bind, lift, request, ret.
  destruct (prop (dataSource ev) "type") as [sourceType|e].
  2:{ eexists (Throw _), []. split; [reflexivity|]. split; [by left|done]. }
  destruct (selectSource ev sourceType) as [selected|e] eqn:Hselect.
  2:{ eexists (Throw _), []. split; [reflexivity|]. split; [by left|done]. }
  apply selectSource_hasResult in Hselect.
  destruct (toStringValue selected.1) as [shownKey|e].
  2:{ eexists (Throw _), []. split; [reflexivity|]. split; [by left|done]. }
  cbn [app]. destruct (getObject w) as [content|e].
  - eexists (Ok _), _. split; [reflexivity|]. repeat split; try done.
    by eexists.
  - eexists (Throw _), _. split; [reflexivity|].
    split; [right; by eexists|].
    intros Hnone. specialize (Hnone sourceType eq_refl). congruence.
Qed.

Lemma storeText_calls (w : world) (ev : event) (sourceType sourceId : option json)
    (text : jsstring) (calls : list call) :
  let cleaned := Normalizer.cleanText (cheerioText w) (normalize w) text in
  exists r writes,
    storeText w ev sourceType sourceId text calls = (r, calls ++ writes)
    /\ match r with
       | Ok out =>
           writes = [PutObject (processedTextKey out) cleaned;
                     Update sourceId (processedTextKey out) (length cleaned)]
           /\ Extractor.sourceId out = sourceId
           /\ Extractor.sourceType out = sourceType
           /\ textLength out = length cleaned
       | Throw _ => Forall (fun c => match c with
                                     | PutObject _ _ | Update _ _ _ => True
                                     | _ => False
                                     end) writes
       end.
Proof.
  cbn zeta. unfold storeText, bind, lift, request, ret.
  destruct (toStringValue (tenantId ev)) as [tenant|e].
  2:{ eexists (Throw _), []. rewrite app_nil_r. by split. }
  destruct (prop (dataSource ev) "name") as [name|e].
  2:{ eexists (Throw _), []. rewrite app_nil_r. by split. }
  destruct (toStringValue name) as [shownName|e].
  2:{ eexists (Throw _), []. rewrite app_nil_r. by split. }
  cbv zeta. destruct (putObject w) as [[]|e].
  2:{ eexists (Throw _), [_]. split; [reflexivity|]. by repeat constructor. }
  destruct (update w) as [[]|e].
  - eexists (Ok _), [_; _]. rewrite <- app_assoc. split; [reflexivity|].
    by repeat split.
  - eexists (Throw _), [_; _]. rewrite <- app_assoc. split; [reflexivity|].
    by repeat constructor.
Qed.

Lemma transform_total (w : world) (sourceType : option json)
    (text : jsstring) (ContentType : option jsstring) :
  exists r,
    transform w sourceType text ContentType = Some r
    /\ (isType sourceType "document" = true -> r = Ok text).
Proof.
  unfold transform.
  destruct sourceType as [[| | | |t| |]|]; cbn [isType];
    try (eexists; split; [reflexivity|done]).
  case_bool_decide as Hweb.
  { subst t. eexists. split; [reflexivity|].
    intros Hdoc%bool_decide_eq_true. discriminate Hdoc. }
  case_bool_decide as Hapi; [|eexists; split; [reflexivity|done]].
  subst t.
  destruct ContentType as [contentType|]; [|by eexists].
  destruct (includes contentType (lit "json")); [|by eexists].
  destruct (normalisation_total (parse w) text) as [t ->].
  by eexists.
Qed.

(** X27: the handler returns, or throws, on every event and in every world.
    A source is read only when the event holds the result that goes with
    its type: otherwise nothing is read or written and the error goes to the
    dead-letter queue. When the handler returns it has read one object,
    written one text and updated the metadata with the length of that text,
    which is the length it returns; and the text of a document is the
    object's text, cleaned, and nothing else. *)
Theorem source_is_read_with_its_result_only (w : world) (ev : event) :
  (exists r, handler w ev = Some r)
  /\ forall r calls,
       handler w ev = Some (r, calls) ->
       match r with
       | Ok out =>
           exists key text,
             calls = [GetObject key; PutObject (processedTextKey out) text;
                      Update (Extractor.sourceId out) (processedTextKey out)
                        (length text)]
             /\ textLength out = length text
             /\ hasResult ev (Extractor.sourceType out) = true
             /\ (isType (Extractor.sourceType out) "document" = true ->
                 exists Body ContentType,
                   getObject w = Ok (Body, ContentType)
                   /\ text = Normalizer.cleanText (cheerioText w)
                               (normalize w) Body)
       | Throw _ =>
           exists before sent,
             calls = before ++ [SendMessage sent]
             /\ ((forall sourceType,
                     prop (dataSource ev) "type" = Ok sourceType ->
                     hasResult ev sourceType = false) ->
                 before = [])
       end.
Proof.
  unfold handler.
  assert (forall sent before r calls,
            report w sent before = (r, calls) ->
            calls = before ++ [SendMessage sent] /\ exists e, r = Throw e)
    as Hreport.
  { intros sent before r calls. unfold report, bind, request, throw, lift.
    destruct (sendMessage w) as [[]|e]; intros [= <- <-]; split;
      by eexists. }
  destruct (readSource_calls w ev) as (r0 & reads & -> & Hread).
  destruct r0 as [[[sourceType sourceId] [Body ContentType]]|sent].
  2:{ split; [by eexists|]. intros r calls [= Hrun].
      destruct (Hreport _ _ _ _ Hrun) as [-> [e ->]].
      exists reads, sent. split; [reflexivity|]. apply Hread. }
  destruct Hread as (Htype & Hresult & Hget & key & ->).
  destruct (transform_total w sourceType Body ContentType)
    as (transformed & -> & Hdocument).
  cbn [mbind option_bind]. split; [by eexists|].
  intros r calls [= Hrun]. revert Hrun.
  destruct transformed as [text|sent].
  2:{ intros Hrun. destruct (Hreport _ _ _ _ Hrun) as [-> [e ->]].
      exists [GetObject key], sent. split; [reflexivity|].
      intros Hnone. specialize (Hnone sourceType Htype). congruence. }
  unfold try.
  destruct (storeText_calls w ev sourceType sourceId text [GetObject key])
    as (r1 & writes & -> & Hwrites).
  destruct r1 as [out|sent].
  - intros [= <- <-]. destruct Hwrites as (-> & Hid & Hty & Hlen).
    eexists key, _. rewrite Hid, Hty. split; [reflexivity|].
    split; [exact Hlen|]. split; [exact Hresult|].
    intros Hdoc. exists Body, ContentType. split; [exact Hget|].
    specialize (Hdocument Hdoc). by injection Hdocument as ->.
  - intros Hrun. destruct (Hreport _ _ _ _ Hrun) as [-> [e ->]].
    eexists _, sent. split; [reflexivity|].
    intros Hnone. specialize (Hnone sourceType Htype). congruence.
Qed.

End ExtractorFacts.

(** ** The processing of a document *)

Module DocumentFacts.
Import JS Calls Document.

(** The key of the object a call reads or writes. *)
Definition touches (c : call) : option jsstring :=
  match c with
  | HeadObject _ key | Textract _ key | GetObject _ key => Some key
  | PutObject key _ => Some key
  | _ => None
  end.

(** A call that touches no object, or one under the tenant's prefix. *)
Definition underPrefix (ev : event) (c : call) : Prop :=
  forall key,
    touches c = Some key ->
    exists tenant,
      toStringValue (tenantId ev) = Ok tenant
      /\ startsWith key (tenant ++ lit "/") = true.

Lemma startsWith_app (p rest : jsstring) : startsWith (p ++ rest) p = true.
Proof.
  unfold startsWith. apply bool_decide_eq_true. by rewrite take_app_length.
Qed.

Lemma put_underPrefix (ev : event) (tenant rest Body : jsstring) :
  toStringValue (tenantId ev) = Ok tenant ->
  underPrefix ev (PutObject (tenant ++ 47%N :: rest) Body).
Proof.
  intros Htenant key Hkey. exists tenant. split; [exact Htenant|].
  injection Hkey as <-.
  change (tenant ++ 47%N :: rest) with (tenant ++ [47%N] ++ rest).
  rewrite app_assoc. apply startsWith_app.
Qed.

Lemma locate_calls (w : world) (ev : event) (url : option json) :
  exists r calls,
    locate w ev url [] = (r, calls) /\ Forall (underPrefix ev) calls.
Proof.
  unfold locate, bind, lift, request, ret, throw.
  destruct (asString url "startsWith" "url") as [s|e]; [|by eexists _, []].
  destruct (startsWith s (lit "s3://")).
  { destruct (parseUrl w _); by eexists _, []. }
  destruct (includesChar 47 s); [by eexists _, []|].
  cbn [app].
  assert (Forall (underPrefix ev) [DynamoGet s]) as Hget
    by (constructor; [by intros key [=]|constructor]).
  destruct (dynamoGet w) as [Item|e]; [|by eexists _, _].
  destruct (truthyValue Item); cbn [negb].
  - destruct (prop Item "s3Key"); by eexists _, _.
  - destruct (toStringValue (tenantId ev)); by eexists _, _.
Qed.

Lemma authorise_key (ev : event) (documentKey : option json) (key : jsstring)
    (calls calls' : list call) :
  authorise ev documentKey calls = (Ok key, calls') ->
  calls' = calls
  /\ exists tenant,
       toStringValue (tenantId ev) = Ok tenant
       /\ startsWith key (tenant ++ lit "/") = true.
Proof.
  unfold authorise, bind, lift, ret, throw.
  destruct documentKey as [[| | | |k| |]|]; cbn [asString]; try discriminate.
  all: destruct (toStringValue (tenantId ev)) as [tenant|e];
    try discriminate.
  destruct (startsWith k (tenant ++ lit "/")) eqn:Hprefix; cbn [negb];
    [|discriminate].
  intros [= <- <-]. split; [reflexivity|]. by exists tenant.
Qed.

Lemma prepare_calls (w : world) (ev : event) (url : option json) :
  exists r calls,
    prepare w ev url [] = (r, calls)
    /\ Forall (underPrefix ev) calls
    /\ forall bucket documentKey contentType method,
         r = Ok (bucket, documentKey, contentType, method) ->
         exists tenant,
           toStringValue (tenantId ev) = Ok tenant
           /\ startsWith documentKey (tenant ++ lit "/") = true.
Proof.
  unfold prepare. unfold bind at 1.
  destruct (locate_calls w ev url) as (r0 & calls0 & -> & Hcalls0).
  destruct r0 as [located|e]; [|by eexists _, _].
  unfold bind at 1, lift at 1.
  destruct (toStringValue located.2); [|by eexists _, _].
  unfold bind at 1, lift at 1.
  destruct (toStringValue (tenantId ev)) as [tenant|e] eqn:Htenant;
    [|by eexists _, _].
  unfold bind at 1.
  destruct (authorise ev located.2 calls0) as [[documentKey|e] calls1]
    eqn:Hauth.
  2:{ eexists _, _. split; [reflexivity|]. split; [|discriminate].
      revert Hauth. unfold authorise, bind, lift, ret, throw.
      rewrite Htenant.
      destruct located.2 as [[| | | |k| |]|]; cbn [asString];
        try (by intros [= _ <-]).
      destruct (negb _); [unfold lift; by intros [= _ <-]|discriminate]. }
  apply authorise_key in Hauth as (-> & tenant' & Htenant' & Hprefix).
  assert (Forall (underPrefix ev) (calls0 ++ [HeadObject located.1 documentKey]))
    as Hhead.
  { apply Forall_app. split; [exact Hcalls0|].
    constructor; [|constructor]. intros key [= <-]. by exists tenant'. }
  unfold throw, bind, lift, request, ret.
  destruct (headObject w) as [[contentType|]|e].
  2,3: eexists _, _; (split; [reflexivity|]); split;
    [exact Hhead|discriminate].
  destruct (methodOf contentType) as [method|].
  2:{ eexists _, _. split; [reflexivity|]. split; [exact Hhead|discriminate]. }
  eexists _, _. split; [reflexivity|]. split; [exact Hhead|].
  intros ? ? ? ? [= _ <- _ _]. exists tenant'.
  split; [congruence|exact Hprefix].
Qed.

Lemma storeDocument_calls (w : world) (ev : event) (name : option json)
    (contentType : jsstring) (method : string) (documentText : jsstring)
    (calls : list call) :
  Forall (underPrefix ev) calls ->
  exists r calls',
    storeDocument w ev name contentType method documentText calls
    = (r, calls')
    /\ Forall (underPrefix ev) calls'.
Proof.
  intros Hcalls. unfold storeDocument, bind, lift, request, ret.
  destruct (toStringValue (tenantId ev)) as [tenant|e] eqn:Htenant;
    [|by eexists _, _].
  destruct (toStringValue name) as [shownName|e]; [|by eexists _, _].
  cbv zeta.
  assert (Forall (underPrefix ev)
            (calls ++ [PutObject (tenant ++ lit "/processed-text/" ++ shownName
                                  ++ lit "-" ++ decimal (getTime w)
                                  ++ lit ".txt") documentText])) as Hput.
  { apply Forall_app. split; [exact Hcalls|]. constructor; [|constructor].
    exact (put_underPrefix ev tenant
             (lit "processed-text/" ++ shownName ++ lit "-"
              ++ decimal (getTime w) ++ lit ".txt") documentText Htenant). }
  destruct (putObject w) as [[]|e]; [|by eexists _, _].
  assert (forall id, Forall (underPrefix ev)
                       ((calls ++ [PutObject (tenant ++ lit "/processed-text/"
                                              ++ shownName ++ lit "-"
                                              ++ decimal (getTime w)
                                              ++ lit ".txt") documentText])
                        ++ [DynamoPut id])) as Hdynamo.
  { intros id. apply Forall_app. split; [exact Hput|].
    constructor; [by intros key [=]|constructor]. }
  destruct (dynamoPut w) as [[]|e]; by eexists _, _.
Qed.

Lemma report_calls (w : world) (ev : event) (error : jsstring)
    (calls : list call) :
  Forall (underPrefix ev) calls ->
  exists r calls',
    report w error calls = (r, calls') /\ Forall (underPrefix ev) calls'.
Proof.
  intros Hcalls. unfold report, bind, request, throw, lift.
  assert (Forall (underPrefix ev) (calls ++ [SendMessage error])) as Hsend.
  { apply Forall_app. split; [exact Hcalls|].
    constructor; [by intros key [=]|constructor]. }
  destruct (sendMessage w) as [[]|e]; by eexists _, _.
Qed.

(** The text is read by [read], which touches the document under its
    authorised key, and stored. *)
Lemma extraction_calls (w : world) (ev : event) (name : option json)
    (contentType : jsstring) (method : string) (c : call)
    (answer : result jsstring) (calls : list call) :
  underPrefix ev c ->
  Forall (underPrefix ev) calls ->
  exists r calls',
    try (documentText <- request c answer ;;
         storeDocument w ev name contentType method documentText)
      (report w) calls = (r, calls')
    /\ Forall (underPrefix ev) calls'.
Proof.
  intros Hc Hcalls. unfold try, bind at 1, request at 1.
  assert (Forall (underPrefix ev) (calls ++ [c])) as Hread
    by (apply Forall_app; split; [exact Hcalls|by repeat constructor]).
  destruct answer as [documentText|e].
  - destruct (storeDocument_calls w ev name contentType method documentText
                _ Hread) as (r & calls' & -> & Hcalls').
    destruct r as [out|e]; [by eexists _, _|].
    by apply report_calls.
  - by apply report_calls.
Qed.

(** X28: a document is touched only under the prefix of its tenant. Of
    every run that ends, each object that was looked up, read, handed to
    Textract or written has a key that starts with the tenant's identifier
    and a slash: a document whose key lacks the prefix is refused before
    anything of it is read, and the text is written under the prefix. The
    bucket is not part of the check. *)
Theorem documents_are_touched_under_the_tenant_prefix (w : world)
    (ev : event) (r : result output) (calls : list call) :
  handler w ev = Some (r, calls) ->
  forall c key,
    c ∈ calls ->
    touches c = Some key ->
    exists tenant,
      toStringValue (tenantId ev) = Ok tenant
      /\ startsWith key (tenant ++ lit "/") = true.
Proof.
  intros Hrun.
  assert (Forall (underPrefix ev) calls) as Hall.
  { revert Hrun. unfold handler.
    destruct (destructure (dataSource ev)) as [[url name]|e].
    2:{ intros [= _ <-]. constructor. }
    destruct (prepare_calls w ev url) as (r0 & calls0 & -> & Hcalls0 & Hkey).
    destruct r0 as [[[[bucket documentKey] contentType] method]|e].
    2:{ intros [= Hrun].
        destruct (report_calls w ev e calls0 Hcalls0) as (r' & calls' & Heq & H).
        rewrite Heq in Hrun. by injection Hrun as _ <-. }
    destruct (Hkey _ _ _ _ eq_refl) as (tenant & Htenant & Hprefix).
    destruct (String.eqb method "text").
    - intros [= Hrun].
      destruct (extraction_calls w ev name contentType method
                  (GetObject bucket documentKey) (getObject w) calls0)
        as (r' & calls' & Heq & H); [|exact Hcalls0|].
      { intros key [= <-]. by exists tenant. }
      rewrite Heq in Hrun. by injection Hrun as _ <-.
    - destruct (extractWithTextract w) as [extracted|]; [|discriminate].
      cbn [mbind option_bind]. intros [= Hrun].
      destruct (extraction_calls w ev name contentType method
                  (Textract bucket documentKey) extracted calls0)
        as (r' & calls' & Heq & H); [|exact Hcalls0|].
      { intros key [= <-]. by exists tenant. }
      rewrite Heq in Hrun. by injection Hrun as _ <-. }
  intros c key Hc. rewrite Forall_forall in Hall. by apply Hall.
Qed.

(** A text document given by its bucket and key, and one of another
    tenant. *)
Definition guide : event :=
  mkEvent (Some (JObj [("type", JStr (lit "document"));
                       ("url", JStr (lit "docs/tenant-1/guide.txt"));
                       ("name", JStr (lit "Guide"))]))
    (Some (JStr (lit "tenant-1"))).

Definition foreign : event :=
  mkEvent (Some (JObj [("type", JStr (lit "document"));
                       ("url", JStr (lit "docs/tenant-2/guide.txt"));
                       ("name", JStr (lit "Guide"))]))
    (Some (JStr (lit "tenant-1"))).

Definition plainText : world :=
  mkWorld (lit "documents") (fun _ => Throw (lit "Invalid URL")) (Ok None)
    (Ok (Some (lit "text/plain"))) None
    (Ok (lit "Refunds are made within 30 days.")) 1700000000000
    (Ok tt) (Ok tt) (Ok tt).

Lemma documents_are_touched_under_the_tenant_prefix_witness :
  handler plainText guide
  = Some (Ok (mkOutput (lit "document-Guide-1700000000000")
                (lit "tenant-1/processed-text/Guide-1700000000000.txt")
                (lit "text/plain") "text" 32),
          [HeadObject (lit "docs") (lit "tenant-1/guide.txt");
           GetObject (lit "docs") (lit "tenant-1/guide.txt");
           PutObject (lit "tenant-1/processed-text/Guide-1700000000000.txt")
             (lit "Refunds are made within 30 days.");
           DynamoPut (lit "document-Guide-1700000000000")])
  /\ (forall c key,
        c ∈ [HeadObject (lit "docs") (lit "tenant-1/guide.txt");
             GetObject (lit "docs") (lit "tenant-1/guide.txt");
             PutObject (lit "tenant-1/processed-text/Guide-1700000000000.txt")
               (lit "Refunds are made within 30 days.");
             DynamoPut (lit "document-Guide-1700000000000")] ->
        touches c = Some key ->
        exists tenant,
          toStringValue (tenantId guide) = Ok tenant
          /\ startsWith key (tenant ++ lit "/") = true)
  /\ handler plainText foreign
     = Some (Throw accessDenied, [SendMessage accessDenied]).
Proof.
  assert (handler plainText guide
          = Some (Ok (mkOutput (lit "document-Guide-1700000000000")
                        (lit "tenant-1/processed-text/Guide-1700000000000.txt")
                        (lit "text/plain") "text" 32),
                  [HeadObject (lit "docs") (lit "tenant-1/guide.txt");
                   GetObject (lit "docs") (lit "tenant-1/guide.txt");
                   PutObject
                     (lit "tenant-1/processed-text/Guide-1700000000000.txt")
                     (lit "Refunds are made within 30 days.");
                   DynamoPut (lit "document-Guide-1700000000000")]))
    as Hrun by (vm_compute; reflexivity).
  split; [exact Hrun|]. split; [|vm_compute; reflexivity].
  apply (documents_are_touched_under_the_tenant_prefix plainText guide _ _
           Hrun).
Defined.

End DocumentFacts.

(** ** The links of a page *)

Module LinksFacts.
Import JS Links.

Lemma dedupe_NoDup (l : list jsstring) :
  forall seen,
    NoDup (Crawler.dedupe seen l)
    /\ forall x, x ∈ Crawler.dedupe seen l -> (x ∉ seen) /\ (x ∈ l).
Proof.
  induction l as [|y l IH]; intros seen; cbn [Crawler.dedupe].
  - split; [constructor|]. by intros x ?%elem_of_nil.
  - case_bool_decide as Hseen.
    + destruct (IH seen) as [Hnodup Hin]. split; [exact Hnodup|].
      intros x Hx. destruct (Hin x Hx). split; [done|].
      apply elem_of_cons. by right.
    + destruct (IH ({[y]} ∪ seen)) as [Hnodup Hin]. split.
      * constructor; [|exact Hnodup]. intros Hy.
        destruct (Hin y Hy) as [Hnot _]. apply Hnot, elem_of_union. left.
        by apply elem_of_singleton.
      * intros x [->|Hx]%elem_of_cons.
        -- split; [exact Hseen|]. apply elem_of_cons. by left.
        -- destruct (Hin x Hx) as [Hnot Hl]. split.
           ++ intros Hs. apply Hnot, elem_of_union. by right.
           ++ apply elem_of_cons. by right.
Qed.

Lemma beforeFirst_none (c : N) (s : jsstring) : c ∉ Document.beforeFirst c s.
Proof.
  induction s as [|x s IH]; cbn [Document.beforeFirst];
    [apply not_elem_of_nil|].
  destruct (N.eqb_spec x c) as [->|Hne]; [apply not_elem_of_nil|].
  intros [->|Hin]%elem_of_cons; [done|by apply IH].
Qed.

(** Cutting a string at a character keeps a start that lacks it. *)
Lemma beforeFirst_startsWith (c : N) (p : jsstring) :
  c ∉ p ->
  forall s,
    Document.startsWith s p = true ->
    Document.startsWith (Document.beforeFirst c s) p = true.
Proof.
  unfold Document.startsWith. intros Hp s Hs.
  apply bool_decide_eq_true in Hs. apply bool_decide_eq_true.
  revert s Hs. induction p as [|x p IH]; intros s Hs; [by rewrite take_0|].
  destruct s as [|y s]; [discriminate Hs|].
  cbn [length take] in Hs. injection Hs as -> Hs.
  apply not_elem_of_cons in Hp as [Hne Hp].
  cbn [Document.beforeFirst].
  destruct (N.eqb_spec x c) as [->|_]; [done|].
  cbn [length take]. f_equal. by apply IH.
Qed.

(** X29: the links of a page are web addresses, each once: a link that is
    kept parses as a URL and starts with [http://] or [https://]; an
    anchor, a [javascript:] or a [mailto:] link gives none; and a link that
    is already absolute is kept up to its fragment: what follows the first
    [#] is cut and the rest, the query string included, is the link. *)
Theorem links_are_web_addresses (protocol origin : jsstring)
    (resolve : jsstring -> jsstring -> result jsstring)
    (parses : jsstring -> bool) (currentUrl : jsstring)
    (hrefs : list jsstring) :
  let links := linksOf protocol origin resolve parses currentUrl hrefs in
  NoDup links
  /\ Forall (fun url => isValidUrl parses url = true) links
  /\ (forall href,
        Document.startsWith href (lit "#")
        || Document.startsWith href (lit "javascript:")
        || Document.startsWith href (lit "mailto:") = true ->
        linkOf protocol origin resolve parses currentUrl href = None)
  /\ (forall href,
        Document.startsWith href (lit "http://")
        || Document.startsWith href (lit "https://") = true ->
        makeAbsoluteUrl protocol origin resolve href currentUrl
        = Some (Document.beforeFirst 35 href)
        /\ 35%N ∉ Document.beforeFirst 35 href).
Proof.
  cbn zeta. unfold linksOf. split; [apply dedupe_NoDup|]. split; [|split].
  - apply Forall_forall. intros url Hurl.
    apply (dedupe_NoDup _ ∅) in Hurl as [_ Hurl].
    apply list_elem_of_omap in Hurl as (href & _ & Hlink).
    unfold linkOf in Hlink. destruct (truthy href); [|discriminate].
    destruct (makeAbsoluteUrl _ _ _ _ _) as [absoluteUrl|]; [|discriminate].
    destruct (truthy absoluteUrl && isValidUrl parses absoluteUrl) eqn:Hvalid;
      [|discriminate].
    injection Hlink as <-. by apply andb_true_iff in Hvalid as [_ Hvalid].
  - intros href Hskip. unfold linkOf, makeAbsoluteUrl.
    destruct (truthy href); [|reflexivity]. cbn [negb orb].
    by rewrite Hskip.
  - intros href Habsolute. split; [|apply beforeFirst_none].
    unfold makeAbsoluteUrl.
    assert (Document.startsWith (Document.beforeFirst 35 href) (lit "http://")
            || Document.startsWith (Document.beforeFirst 35 href)
                 (lit "https://") = true) as ->.
    { apply orb_true_iff in Habsolute as [Hhttp|Hhttps];
        apply orb_true_iff; [left|right];
        (apply beforeFirst_startsWith; [|assumption]);
        apply (bool_decide_unpack _); vm_compute; exact I. }
    assert (negb (truthy href) || Document.startsWith href (lit "#")
            || Document.startsWith href (lit "javascript:")
            || Document.startsWith href (lit "mailto:") = false) as ->;
      [|reflexivity].
    unfold Document.startsWith in *.
    apply orb_true_iff in Habsolute as [H|H];
      apply bool_decide_eq_true in H;
      destruct href as [|c0 [|c1 [|c2 [|c3 [|c4 [|c5 [|c6 [|c7 href]]]]]]]];
      try discriminate H; cbn in H; injection H as -> -> -> -> -> -> ->;
      reflexivity.
Qed.

End LinksFacts.

(** ** The storing of the embeddings *)

Module StoreFacts.
Import JS Calls Store.

(** The batches of documents a run has sent. *)
Definition bulks (calls : list call) : list (list document) :=
  omap (fun c => match c with Bulk ds => Some ds | _ => None end) calls.

(** A batch has between one and a hundred documents. *)
Definition sized (batch : list document) : Prop :=
  0 < length batch <= batchSize.

(** The calls made before the update of the metadata: no update, and
    batches of the right size. *)
Definition beforeUpdate (c : call) : Prop :=
  match c with
  | Bulk ds => sized ds
  | Update _ _ => False
  | _ => True
  end.

Lemma bulks_app (calls calls' : list call) :
  bulks (calls ++ calls') = bulks calls ++ bulks calls'.
Proof. unfold bulks. apply omap_app. Qed.

Lemma bulks_Bulk (batches : list (list document)) :
  bulks (Bulk <$> batches) = batches.
Proof.
  induction batches as [|b bs IH]; [reflexivity|].
  cbn. f_equal. exact IH.
Qed.

Lemma documentsFrom_length (w : world) (tenantId : option json)
    (embeddings : list json) :
  forall reading index ds,
    documentsFrom w tenantId reading index embeddings = Ok ds ->
    length ds = length embeddings.
Proof.
  induction embeddings as [|e rest IH]; intros reading index ds;
    cbn [documentsFrom].
  - by intros [= <-].
  - destruct (documentOf w tenantId reading index e); [|discriminate].
    cbn [rbind].
    destruct (documentsFrom w tenantId (S reading) (S index) rest) as [ds'|]
      eqn:Hrest; [|discriminate].
    intros [= <-]. cbn [length]. f_equal. by apply (IH _ _ _ Hrest).
Qed.

Lemma documentsFrom_app (w : world) (tenantId : option json)
    (l1 l2 : list json) :
  forall reading index d1 d2,
    documentsFrom w tenantId reading index l1 = Ok d1 ->
    documentsFrom w tenantId (reading + length l1) (index + length l1) l2
    = Ok d2 ->
    documentsFrom w tenantId reading index (l1 ++ l2) = Ok (d1 ++ d2).
Proof.
  induction l1 as [|e l1 IH]; intros reading index d1 d2; cbn [documentsFrom app].
  - intros [= <-]. cbn [length]. by rewrite !Nat.add_0_r.
  - destruct (documentOf w tenantId reading index e) as [d|]; [|discriminate].
    cbn [rbind].
    destruct (documentsFrom w tenantId (S reading) (S index) l1) as [ds|]
      eqn:Hl1; [|discriminate].
    intros [= <-]. cbn [length]. rewrite <- !Nat.add_succ_comm. intros Hl2.
    by rewrite (IH _ _ _ _ Hl1 Hl2).
Qed.

(** The batches are the documents of all the embeddings, in order, cut
    into pieces of a hundred. *)
Lemma batchesFrom_concat (w : world) (tenantId : option json) (total : nat)
    (fuel : nat) :
  forall i rest batches,
    length rest <= fuel ->
    batchesFrom fuel w tenantId total i rest = Ok batches ->
    documentsFrom w tenantId (total + i) i rest = Ok (concat batches)
    /\ Forall sized batches.
Proof.
  induction fuel as [|fuel IH]; intros i rest batches Hfuel.
  - destruct rest; [|cbn in Hfuel; lia]. by intros [= <-].
  - destruct rest as [|e rest]; [by intros [= <-]|].
    cbn [batchesFrom].
    destruct (documentsFrom w tenantId (total + i) i
                (take batchSize (e :: rest))) as [batch|] eqn:Hbatch;
      [|discriminate].
    cbn [rbind].
    destruct (batchesFrom fuel w tenantId total (i + batchSize)
                (drop batchSize (e :: rest))) as [others|] eqn:Hothers;
      [|discriminate].
    intros [= <-].
    apply IH in Hothers as [Hdocs Hsized].
    2:{ rewrite length_drop. unfold batchSize. cbn [length] in *. lia. }
    pose proof (documentsFrom_length _ _ _ _ _ _ Hbatch) as Hlen.
    rewrite length_take in Hlen.
    split.
    + rewrite <- (take_drop batchSize (e :: rest)) at 1. cbn [concat].
      apply documentsFrom_app; [exact Hbatch|].
      rewrite length_take.
      destruct (Nat.le_gt_cases batchSize (length (e :: rest))) as [Hfull|Hlast].
      * rewrite Nat.min_l by exact Hfull. by rewrite <- Nat.add_assoc.
      * rewrite (drop_ge (e :: rest)) in Hdocs |- * by lia.
        cbn [documentsFrom] in Hdocs |- *. exact Hdocs.
    + constructor; [|exact Hsized]. unfold sized. rewrite Hlen.
      unfold batchSize. cbn [length]. lia.
Qed.

(** The requests of the batches: sent in order until one is rejected. *)
Lemma sendBatches_calls (w : world) (batches : list (list document)) :
  forall k results calls,
    exists r sent,
      sendBatches w k batches results calls = (r, calls ++ (Bulk <$> sent))
      /\ sent `prefix_of` batches
      /\ forall all,
           r = Ok all ->
           sent = batches
           /\ exists responses,
                all = results ++ responses
                /\ length responses = length batches
                /\ forall j response,
                     responses !! j = Some response ->
                     bulk w (k + j) = Ok response.
Proof.
  induction batches as [|batch rest IH]; intros k results calls;
    cbn [sendBatches].
  - exists (Ok results), []. cbn. rewrite app_nil_r.
    split; [reflexivity|]. split; [done|].
    intros all [= <-]. split; [reflexivity|]. exists [].
    rewrite app_nil_r. by repeat split.
  - unfold bind at 1, request at 1.
    destruct (bulk w k) as [response|e] eqn:Hk.
    + destruct (IH (S k) (results ++ [response]) (calls ++ [Bulk batch]))
        as (r & sent & -> & Hprefix & Hall).
      exists r, (batch :: sent). rewrite <- app_assoc.
      split; [reflexivity|]. split; [by apply prefix_cons|].
      intros all Hr. destruct (Hall all Hr) as (-> & responses & -> & Hlen & Hj).
      split; [reflexivity|]. exists (response :: responses).
      rewrite <- app_assoc. split; [reflexivity|].
      split; [cbn; by rewrite Hlen|].
      intros [|j] response'; cbn [lookup list_lookup].
      * intros [= <-]. by rewrite Nat.add_0_r.
      * intros Hlookup. rewrite <- Nat.add_succ_comm. by apply Hj.
    + exists (Throw e), [batch]. split; [reflexivity|].
      split; [by apply prefix_cons, prefix_nil|]. discriminate.
Qed.

Lemma someErrors_none (results : list json) :
  someErrors results = Ok false ->
  Forall (fun r => exists errors,
              getProp r "errors" = Ok errors /\ truthyValue errors = false)
    results.
Proof.
  induction results as [|r results IH]; [constructor|].
  cbn [someErrors]. destruct (getProp r "errors") as [errors|] eqn:Hr;
    [|discriminate].
  cbn [rbind]. destruct (truthyValue errors) eqn:Herrors; [discriminate|].
  intros Hrest. constructor; [by exists errors|by apply IH].
Qed.

(** Every document of [items] was inserted and no response reported an
    error. *)
Definition inserted (w : world) (ev : event) (items : list json)
    (sent : list (list document)) : Prop :=
  documentsFrom w (tenantId ev) (length items) 0 items = Ok (concat sent)
  /\ length (concat sent) = length items
  /\ forall k,
       k < length sent ->
       exists response errors,
         bulk w k = Ok response
         /\ getProp response "errors" = Ok errors
         /\ truthyValue errors = false.

Lemma bulkInsert_calls (w : world) (ev : event) (embeddingsData : json)
    (calls : list call) :
  exists r sent,
    bulkInsertEmbeddings w embeddingsData (tenantId ev) calls
    = (r, calls ++ (Bulk <$> sent))
    /\ Forall sized sent
    /\ forall items,
         r = Ok (false, items) ->
         exists embeddings,
           embeddingsData = JArr embeddings /\ inserted w ev embeddings sent.
Proof.
  unfold bulkInsertEmbeddings.
  destruct embeddingsData as [| | | | |items|];
    try (exists (Throw (lit "embeddings.forEach is not a function")), [];
         cbn; rewrite app_nil_r; split; [reflexivity|];
         split; [constructor|discriminate]).
  unfold bind at 1, lift at 1.
  destruct (documentsFrom w (tenantId ev) 0 0 items) as [first|e].
  2:{ exists (Throw e), []. cbn. rewrite app_nil_r.
      split; [reflexivity|]. split; [constructor|discriminate]. }
  unfold bind at 1, lift at 1.
  destruct (batchesFrom (length items) w (tenantId ev) (length items) 0 items)
    as [batches|e] eqn:Hbatches.
  2:{ exists (Throw e), []. cbn. rewrite app_nil_r.
      split; [reflexivity|]. split; [constructor|discriminate]. }
  apply batchesFrom_concat in Hbatches as [Hdocs Hsized]; [|lia].
  rewrite Nat.add_0_r in Hdocs.
  unfold bind at 1.
  destruct (sendBatches_calls w batches 0 [] calls)
    as (r & sent & -> & Hprefix & Hall).
  assert (Forall sized sent) as Hsent.
  { destruct Hprefix as [later ->]. by apply Forall_app in Hsized as [H _]. }
  destruct r as [results|e].
  2:{ exists (Throw e), sent. split; [reflexivity|].
      split; [exact Hsent|discriminate]. }
  destruct (Hall results eq_refl) as (-> & responses & Hresults & Hlen & Hj).
  cbn [app] in Hresults. subst responses.
  unfold bind, lift, ret.
  destruct (sumTook results) as [[]|e].
  2:{ exists (Throw e), batches. split; [reflexivity|].
      split; [exact Hsent|discriminate]. }
  destruct (someErrors results) as [errors|e] eqn:Herrors.
  2:{ exists (Throw e), batches. split; [reflexivity|].
      split; [exact Hsent|discriminate]. }
  destruct (allItems results) as [items'|e].
  2:{ exists (Throw e), batches. split; [reflexivity|].
      split; [exact Hsent|discriminate]. }
  exists (Ok (errors, items')), batches. split; [reflexivity|].
  split; [exact Hsent|].
  intros items'' [= -> _]. exists items. split; [reflexivity|].
  split; [exact Hdocs|]. split; [by apply (documentsFrom_length _ _ _ _ _ _ Hdocs)|].
  intros k Hk. rewrite <- Hlen in Hk.
  destruct (lookup_lt_is_Some_2 results k Hk) as [response Hresponse].
  apply someErrors_none in Herrors. rewrite Forall_forall in Herrors.
  destruct (Herrors response) as (errors & Hget & Hfalsy);
    [by apply list_elem_of_lookup_2 in Hresponse|].
  exists response, errors. split; [|by split].
  by apply (Hj k response Hresponse).
Qed.

(** What a run of the [try] block comes to: it throws before the update of
    the metadata, or it has inserted every document when it makes the
    update. *)
Lemma store_updates_last (w : world) (ev : event) :
  exists r calls,
    store w ev [] = (r, calls)
    /\ (Forall beforeUpdate calls /\ (exists e, r = Throw e)
        \/ exists before id items,
             calls = before ++ [Update id (Some (JNum (Z.of_nat (length items))))]
             /\ Forall beforeUpdate before
             /\ getObject w = Ok (JArr items)
             /\ inserted w ev items (bulks before)
             /\ forall out,
                  r = Ok out ->
                  vectorCount out = Some (JNum (Z.of_nat (length items)))).
Proof.
  unfold store. unfold bind at 1.
  assert (forall (A : Type) (e : jsstring) (calls : list call),
            Forall beforeUpdate calls ->
            exists (r : result output) calls',
              (Throw e, calls) = (r, calls')
              /\ (Forall beforeUpdate calls' /\ (exists e, r = Throw e)
                  \/ exists before id items,
                       calls'
                       = before
                         ++ [Update id (Some (JNum (Z.of_nat (length items))))]
                       /\ Forall beforeUpdate before
                       /\ getObject w = Ok (JArr items)
                       /\ inserted w ev items (bulks before)
                       /\ forall out,
                            r = Ok out ->
                            vectorCount out
                            = Some (JNum (Z.of_nat (length items)))))
    as Hthrow.
  { intros _ e calls Hcalls. exists (Throw e), calls.
    split; [reflexivity|]. left. split; [exact Hcalls|by eexists]. }
  specialize (Hthrow unit).
  match goal with
  | |- context [match ?m [] with _ => _ end] =>
      assert (exists r0, m [] = (r0, [])) as [r0 ->]
  end.
  { unfold bind, lift, throw, ret.
    destruct (truthyValue (embeddings ev)); cbn [negb]; [|by eexists].
    destruct (prop (embeddings ev) "embeddingsKey") as [key|]; [|by eexists].
    destruct (truthyValue key); by eexists. }
  destruct r0 as [key|e]; [|by apply Hthrow].
  unfold bind at 1, request at 1. cbn [app].
  destruct (getObject w) as [embeddingsData|e] eqn:Hget;
    [|apply Hthrow; by repeat constructor].
  unfold bind at 1, lift at 1.
  destruct (lengthOf embeddingsData) as [count|e] eqn:Hcount;
    [|apply Hthrow; by repeat constructor].
  unfold bind at 1, lift at 1.
  destruct (toStringValue count) as [shownCount|e];
    [|apply Hthrow; by repeat constructor].
  unfold bind at 1, lift at 1.
  destruct (toStringValue (tenantId ev)) as [tenant|e];
    [|apply Hthrow; by repeat constructor].
  cbv zeta. unfold bind at 1.
  assert (exists exists_ : result bool,
            checkIndexExists w (tenant ++ lit "-vectors") [GetObject key]
            = (exists_, [GetObject key; HeadIndex (tenant ++ lit "-vectors")]))
    as [indexExists ->].
  { unfold checkIndexExists, try, throw, lift.
    destruct (headIndex w); by eexists. }
  destruct indexExists as [indexExists|e];
    [|apply Hthrow; by repeat constructor].
  unfold bind at 1.
  match goal with
  | |- context [match ?m ?cs with _ => _ end] =>
      assert (exists r1 calls1,
                m cs = (r1, calls1)
                /\ Forall beforeUpdate calls1 /\ bulks calls1 = [])
        as (r1 & calls1 & -> & Hcalls1 & Hnone)
  end.
  { destruct indexExists; cbn [negb]; unfold bind, lift, request, ret.
    - eexists _, _. split; [reflexivity|]. split; [|reflexivity].
      by repeat constructor.
    - destruct (dimensionsOf embeddingsData) as [dimensions|e].
      + destruct (createIndex w) as [[]|e'];
          (eexists _, _; split; [reflexivity|]; split; [|reflexivity];
           by repeat constructor).
      + eexists _, _. split; [reflexivity|]. split; [|reflexivity].
        by repeat constructor. }
  destruct r1 as [[]|e]; [|by apply Hthrow].
  unfold bind at 1.
  destruct (bulkInsert_calls w ev embeddingsData calls1)
    as (r2 & sent & -> & Hsized & Hinserted).
  assert (Forall beforeUpdate (calls1 ++ (Bulk <$> sent))) as Hcalls2.
  { apply Forall_app. split; [exact Hcalls1|].
    apply Forall_fmap. eapply Forall_impl; [exact Hsized|]. by intros b Hb. }
  destruct r2 as [[errors items']|e]; [|by apply Hthrow].
  unfold bind at 1. cbn [fst snd].
  destruct errors.
  { unfold bind, lift, throw.
    destruct (failedItems items'); by apply Hthrow. }
  destruct (Hinserted items' eq_refl) as (items & -> & Hall).
  cbn [lengthOf] in Hcount. injection Hcount as <-.
  unfold ret at 1, bind at 1, lift at 1.
  destruct (prop (embeddings ev) "sourceId") as [sourceId|e];
    [|by apply Hthrow].
  assert (bulks (calls1 ++ (Bulk <$> sent)) = sent) as Hbulks.
  { rewrite bulks_app, bulks_Bulk.
    by rewrite Hnone. }
  unfold bind, request, lift, ret.
  destruct (update w) as [[]|e].
  - destruct (prop (dataSource ev) "name") as [name|e].
    + eexists (Ok _), _. split; [reflexivity|]. right.
      exists (calls1 ++ (Bulk <$> sent)), sourceId, items.
      split; [reflexivity|]. split; [exact Hcalls2|].
      split; [reflexivity|]. split; [by rewrite Hbulks|].
      by intros out [= <-].
    + eexists (Throw _), _. split; [reflexivity|]. right.
      exists (calls1 ++ (Bulk <$> sent)), sourceId, items.
      split; [reflexivity|]. split; [exact Hcalls2|].
      split; [reflexivity|]. split; [by rewrite Hbulks|]. discriminate.
  - eexists (Throw _), _. split; [reflexivity|]. right.
    exists (calls1 ++ (Bulk <$> sent)), sourceId, items.
    split; [reflexivity|]. split; [exact Hcalls2|].
    split; [reflexivity|]. split; [by rewrite Hbulks|]. discriminate.
Qed.

(** What a run with an empty list of embeddings and no index yet comes to:
    it fails before the index is created. *)
Definition reads (c : call) : Prop :=
  match c with
  | GetObject _ | HeadIndex _ | SendMessage _ => True
  | _ => False
  end.

Lemma empty_store_calls (w : world) (ev : event) :
  getObject w = Ok (JArr []) ->
  headIndex w = Missing ->
  exists e calls,
    handler w ev = (Throw e, calls) /\ Forall reads calls.
Proof.
  intros Hget Hhead. unfold handler, try, store.
  unfold bind at 1.
  assert (forall e calls,
            Forall reads calls ->
            exists e' calls', report w e calls = (Throw e', calls')
                              /\ Forall reads calls') as Hreport.
  { intros e calls Hcalls. unfold report, bind, request, throw.
    destruct (sendMessage w) as [[]|e'];
      (eexists _, _; split; [reflexivity|]; apply Forall_app; split;
       [exact Hcalls|by repeat constructor]). }
  match goal with
  | |- context [match ?m [] with _ => _ end] =>
      assert (exists r0, m [] = (r0, [])) as [r0 ->]
  end.
  { unfold bind, lift, throw, ret.
    destruct (truthyValue (embeddings ev)); cbn [negb]; [|by eexists].
    destruct (prop (embeddings ev) "embeddingsKey") as [key|]; [|by eexists].
    destruct (truthyValue key); by eexists. }
  destruct r0 as [key|e]; [|by apply Hreport].
  unfold bind at 1, request at 1. rewrite Hget. cbn [app].
  unfold bind at 1, lift at 1. cbn [lengthOf length].
  unfold bind at 1, lift at 1.
  destruct (toStringValue (Some (JNum (Z.of_nat 0)))) as [shown|e];
    [|apply Hreport; by repeat constructor].
  unfold bind at 1, lift at 1.
  destruct (toStringValue (tenantId ev)) as [tenant|e];
    [|apply Hreport; by repeat constructor].
  cbv zeta. unfold bind at 1, checkIndexExists, try. rewrite Hhead.
  cbn [app negb]. unfold bind at 1. unfold bind at 1, lift at 1.
  cbn [dimensionsOf first head rbind prop].
  apply Hreport. by repeat constructor.
Qed.

(** X30: the documents go to the search service in requests of between one
    and a hundred documents each; when the metadata is updated, the object
    read was an array, the count written is its length, the requests sent
    carry one document for each of its items, in order and with the item's
    position in the whole array, and every request was answered without a
    flagged error; a run that returns has made that update, and reports the
    same count; and a run that reads an empty array and finds no index
    fails before it creates the index, inserts or updates anything. *)
Theorem embeddings_are_inserted_in_batches_of_a_hundred (w : world)
    (ev : event) :
  Forall sized (bulks (handler w ev).2)
  /\ (forall id count,
        Update id count ∈ (handler w ev).2 ->
        exists items,
          getObject w = Ok (JArr items)
          /\ count = Some (JNum (Z.of_nat (length items)))
          /\ inserted w ev items (bulks (handler w ev).2))
  /\ (forall out,
        (handler w ev).1 = Ok out ->
        exists id, Update id (vectorCount out) ∈ (handler w ev).2)
  /\ (getObject w = Ok (JArr []) ->
      headIndex w = Missing ->
      (exists e, (handler w ev).1 = Throw e)
      /\ Forall reads (handler w ev).2).
Proof.
  assert (forall calls, Forall beforeUpdate calls -> Forall sized (bulks calls))
    as Hsized.
  { intros calls Hcalls. induction Hcalls as [|c calls Hc _ IH]; [constructor|].
    destruct c; cbn in *; try exact IH. by constructor. }
  assert (forall calls id count,
            Forall beforeUpdate calls -> Update id count ∉ calls) as Hnone.
  { intros calls id count Hcalls Hin. rewrite Forall_forall in Hcalls.
    exact (Hcalls _ Hin). }
  destruct (store_updates_last w ev) as (r & calls & Hstore & Hshape).
  unfold handler, try. rewrite Hstore.
  destruct Hshape
    as [[Hcalls [e ->]]
       |(before & id & items & -> & Hbefore & Hget & Hinserted & Hcount)].
  - assert (exists r', report w e calls = (r', calls ++ [SendMessage e])
                       /\ exists e', r' = Throw e') as (r' & Hr & e' & ->).
    { unfold report, bind, request, throw.
      destruct (sendMessage w) as [[]|e'];
        (eexists; split; [reflexivity|by eexists]). }
    rewrite Hr. cbn [fst snd].
    assert (Forall beforeUpdate (calls ++ [SendMessage e])) as Hall.
    { apply Forall_app. split; [exact Hcalls|by repeat constructor]. }
    split; [by apply Hsized|].
    split; [intros id count Hin; by destruct (Hnone _ _ _ Hall Hin)|].
    split; [discriminate|].
    intros Hget Hhead.
    destruct (empty_store_calls w ev Hget Hhead) as (e0 & calls0 & H0 & Hreads).
    unfold handler, try in H0. rewrite Hstore, Hr in H0.
    injection H0 as _ <-.
    split; [by eexists|exact Hreads].
  - set (updated := before ++ [Update id (Some (JNum (Z.of_nat (length items))))]).
    assert (bulks updated = bulks before) as Hbulks.
    { unfold updated. rewrite bulks_app. cbn. by rewrite app_nil_r. }
    assert (forall id' count,
              Update id' count ∈ updated ->
              count = Some (JNum (Z.of_nat (length items)))) as Hupdate.
    { intros id' count Hin. unfold updated in Hin.
      apply elem_of_app in Hin as [Hin|Hin];
        [by destruct (Hnone _ _ _ Hbefore Hin)|].
      apply list_elem_of_singleton in Hin. by injection Hin as _ ->. }
    destruct r as [out|e]; cbn [fst snd].
    + split; [rewrite Hbulks; by apply Hsized|].
      split.
      { intros id' count Hin. exists items. split; [exact Hget|].
        split; [by apply (Hupdate id')|by rewrite Hbulks]. }
      split.
      { intros out' [= <-]. exists id. rewrite (Hcount out eq_refl).
        unfold updated. apply elem_of_app. right. by constructor. }
      intros Hget' Hhead.
      destruct (empty_store_calls w ev Hget' Hhead) as (e0 & calls0 & H0 & _).
      unfold handler, try in H0. by rewrite Hstore in H0.
    + assert (exists r', report w e updated = (r', updated ++ [SendMessage e])
                         /\ exists e', r' = Throw e') as (r' & Hr & e' & ->).
      { unfold report, bind, request, throw.
        destruct (sendMessage w) as [[]|e'];
          (eexists; split; [reflexivity|by eexists]). }
      rewrite Hr. cbn [fst snd].
      assert (bulks (updated ++ [SendMessage e]) = bulks before) as Hbulks'.
      { rewrite bulks_app, Hbulks. cbn. by rewrite app_nil_r. }
      split; [rewrite Hbulks'; by apply Hsized|].
      split.
      { intros id' count Hin. exists items. split; [exact Hget|].
        apply elem_of_app in Hin as [Hin|Hin].
        - split; [by apply (Hupdate id')|by rewrite Hbulks'].
        - apply list_elem_of_singleton in Hin. discriminate. }
      split; [discriminate|].
      intros Hget' Hhead.
      destruct (empty_store_calls w ev Hget' Hhead) as (e0 & calls0 & H0 & Hreads).
      unfold handler, try in H0. rewrite Hstore in H0. fold updated in H0.
      rewrite Hr in H0. injection H0 as _ <-.
      rewrite Forall_forall in Hreads.
      assert (Update id (Some (JNum (Z.of_nat (length items))))
              ∈ updated ++ [SendMessage e]) as Hin.
      { unfold updated. rewrite !elem_of_app. left. right. by constructor. }
      destruct (Hreads _ Hin).
Qed.

End StoreFacts.
